(** * PIXI.animate.MovieClip: timeline playback, verified against its description

    A shallow embedding of [MovieClip] (the animated display node of
    pixi-animate): its frame clock, the resolution pass
    ([_updateTimeline] / [_setTimelinePosition]), the registration methods
    ([addAction], [addTween], [addTimedChild], [addKeyframes]) and the compact
    keyframe decoder.

    Conventions of the embedding.
    - Display objects live in a store indexed by references; every alias of a
      JavaScript object is the same reference, so mutation through one alias
      is seen through the others.
    - Frame numbers are JavaScript numbers that the code only ever adds,
      subtracts, compares and reduces modulo another frame number; they are
      modelled as [Int z] with [z : Z], or [NaN] (which the code produces
      itself: [_goto] stores it in [_prevPos], and [x % 0] and
      [x - undefined] evaluate to it).  Magnitudes beyond 2^53 are not
      modelled.
    - Times in seconds ([_t], [_framerate], [_duration]) are exact rationals;
      the rounding of IEEE doubles is not modelled.
    - Frame scripts are opaque: calling one is recorded in the trace of the
      run, and so are [tween.setPosition], [addChild] and [removeChild]. *)

From Stdlib Require Import ZArith QArith Qround Lia List Bool Ascii String.
From stdpp Require Import base option list gmap strings.

Local Open Scope Z_scope.

(** ** JavaScript numbers used as frame positions *)

Inductive num : Type :=
  | NaN : num
  | Int : Z -> num.

#[global] Instance num_eq_dec : EqDecision num.
Proof. solve_decision. Defined.

(** [a < b], [a <= b], [a >= b], [a == b] on numbers: false as soon as one
    side is [NaN]. *)
Definition num_lt (a b : num) : bool :=
  match a, b with Int x, Int y => x <? y | _, _ => false end.

Definition num_le (a b : num) : bool :=
  match a, b with Int x, Int y => x <=? y | _, _ => false end.

Definition num_ge (a b : num) : bool := num_le b a.

Definition num_eq (a b : num) : bool :=
  match a, b with Int x, Int y => x =? y | _, _ => false end.

Definition num_add (a b : num) : num :=
  match a, b with Int x, Int y => Int (x + y) | _, _ => NaN end.

Definition num_sub (a b : num) : num :=
  match a, b with Int x, Int y => Int (x - y) | _, _ => NaN end.

(** [a % b]: the sign follows the dividend; [x % 0] is [NaN]. *)
Definition num_rem (a b : num) : num :=
  match a, b with
  | Int x, Int y => if y =? 0 then NaN else Int (Z.rem x y)
  | _, _ => NaN
  end.

(** [Math.min(a, b)]. *)
Definition num_min (a b : num) : num :=
  match a, b with Int x, Int y => Int (Z.min x y) | _, _ => NaN end.

(** [ToNumber] of a property that may be [undefined]. *)
Definition to_number (o : option Z) : num :=
  match o with Some z => Int z | None => NaN end.

(** [a[i]] on an array: [undefined] ([None]) out of range. *)
Definition js_index {A : Type} (a : list A) (i : Z) : option A :=
  if i <? 0 then None else a !! Z.to_nat i.

(** [a[i]] with a number as index: [a[NaN]] is [undefined]. *)
Definition js_index_num {A : Type} (a : list A) (i : num) : option A :=
  match i with Int z => js_index a z | NaN => None end.

(** ** Property values of a keyframe *)

(** A number read from a literal: its exact decimal value, [Infinity] or
    [NaN]. *)
Inductive jsnumber : Type :=
  | NumNaN : jsnumber
  | NumInf : bool -> jsnumber
  | Num : Q -> jsnumber.

Inductive value : Type :=
  | VNumber : jsnumber -> value
  | VString : string -> value
  | VBoolean : bool -> value
  | VArray : list jsnumber -> value.

(** A property set ([{x: 100, y: 100}]): property name to value. *)
Abbreviation props := (gmap string value).

(** ** The objects of a scene *)

(** References to display objects. *)
Abbreviation ref := nat (only parsing).

(** Frame scripts are identified by a name; the code only ever stores and
    calls them. *)
Abbreviation callback := nat (only parsing).

(** Modelled from the spec: a segment of the TweenTimeline collaborator
    ([PIXI.animate.Tween]), of which the clip reads [startFrame] and
    [endFrame] and calls [setPosition]. *)
Record Tween : Type := mkTween {
  tw_target : ref;
  tw_props : props;
  tw_startFrame : num;
  tw_endFrame : num;
  tw_ease : option nat
}.

(** Modelled from the spec: the TweenTimeline collaborator
    ([PIXI.animate.Timeline]), an array of segments with a [target]. *)
Record Timeline : Type := mkTimeline {
  target : ref;
  tweens : list Tween
}.

(** An element of [_timedChildTimelines]: an array of booleans indexed by
    frame, with holes ([None]) where [length] was extended and nothing
    written, and a [target] property. *)
Record ChildTimeline : Type := mkChildTimeline {
  ct_target : ref;
  ct_frames : list (option bool)
}.

Record MovieClip : Type := mkMovieClip {
  mode : Z;
  startPosition : Z;
  parentStartPosition : option Z;
  loop : bool;
  currentFrame : num;
  _labelDict : list (string * Z);
  selfAdvance : bool;
  paused : bool;
  actionsEnabled : bool;
  autoReset : bool;
  _synchOffset : num;
  _prevPos : num;
  _t : Q;
  _framerate : Q;
  _duration : Q;
  _totalFrames : Z;
  _timelines : list Timeline;
  _timedChildTimelines : list ChildTimeline;
  _actions : list (option (list callback));
  (* inherited from PIXI.Container *)
  parent : option ref;
  children : list ref
}.

Definition INDEPENDENT : Z := 0.
Definition SINGLE_FRAME : Z := 1.
Definition SYNCHED : Z := 2.

(** Field updates, one per field the code assigns. *)
Definition set_parentStartPosition (v : option Z) (n : MovieClip) : MovieClip :=
  mkMovieClip (mode n) (startPosition n) v (loop n) (currentFrame n)
    (_labelDict n) (selfAdvance n) (paused n) (actionsEnabled n) (autoReset n)
    (_synchOffset n) (_prevPos n) (_t n) (_framerate n) (_duration n)
    (_totalFrames n) (_timelines n) (_timedChildTimelines n) (_actions n)
    (parent n) (children n).

Definition set_currentFrame (v : num) (n : MovieClip) : MovieClip :=
  mkMovieClip (mode n) (startPosition n) (parentStartPosition n) (loop n) v
    (_labelDict n) (selfAdvance n) (paused n) (actionsEnabled n) (autoReset n)
    (_synchOffset n) (_prevPos n) (_t n) (_framerate n) (_duration n)
    (_totalFrames n) (_timelines n) (_timedChildTimelines n) (_actions n)
    (parent n) (children n).

Definition set_paused (v : bool) (n : MovieClip) : MovieClip :=
  mkMovieClip (mode n) (startPosition n) (parentStartPosition n) (loop n)
    (currentFrame n) (_labelDict n) (selfAdvance n) v (actionsEnabled n)
    (autoReset n) (_synchOffset n) (_prevPos n) (_t n) (_framerate n)
    (_duration n) (_totalFrames n) (_timelines n) (_timedChildTimelines n)
    (_actions n) (parent n) (children n).

Definition set__synchOffset (v : num) (n : MovieClip) : MovieClip :=
  mkMovieClip (mode n) (startPosition n) (parentStartPosition n) (loop n)
    (currentFrame n) (_labelDict n) (selfAdvance n) (paused n)
    (actionsEnabled n) (autoReset n) v (_prevPos n) (_t n) (_framerate n)
    (_duration n) (_totalFrames n) (_timelines n) (_timedChildTimelines n)
    (_actions n) (parent n) (children n).

Definition set__prevPos (v : num) (n : MovieClip) : MovieClip :=
  mkMovieClip (mode n) (startPosition n) (parentStartPosition n) (loop n)
    (currentFrame n) (_labelDict n) (selfAdvance n) (paused n)
    (actionsEnabled n) (autoReset n) (_synchOffset n) v (_t n) (_framerate n)
    (_duration n) (_totalFrames n) (_timelines n) (_timedChildTimelines n)
    (_actions n) (parent n) (children n).

Definition set__t (v : Q) (n : MovieClip) : MovieClip :=
  mkMovieClip (mode n) (startPosition n) (parentStartPosition n) (loop n)
    (currentFrame n) (_labelDict n) (selfAdvance n) (paused n)
    (actionsEnabled n) (autoReset n) (_synchOffset n) (_prevPos n) v
    (_framerate n) (_duration n) (_totalFrames n) (_timelines n)
    (_timedChildTimelines n) (_actions n) (parent n) (children n).

Definition set__framerate (v : Q) (n : MovieClip) : MovieClip :=
  mkMovieClip (mode n) (startPosition n) (parentStartPosition n) (loop n)
    (currentFrame n) (_labelDict n) (selfAdvance n) (paused n)
    (actionsEnabled n) (autoReset n) (_synchOffset n) (_prevPos n) (_t n) v
    (_duration n) (_totalFrames n) (_timelines n) (_timedChildTimelines n)
    (_actions n) (parent n) (children n).

Definition set__duration (v : Q) (n : MovieClip) : MovieClip :=
  mkMovieClip (mode n) (startPosition n) (parentStartPosition n) (loop n)
    (currentFrame n) (_labelDict n) (selfAdvance n) (paused n)
    (actionsEnabled n) (autoReset n) (_synchOffset n) (_prevPos n) (_t n)
    (_framerate n) v (_totalFrames n) (_timelines n) (_timedChildTimelines n)
    (_actions n) (parent n) (children n).

Definition set__totalFrames (v : Z) (n : MovieClip) : MovieClip :=
  mkMovieClip (mode n) (startPosition n) (parentStartPosition n) (loop n)
    (currentFrame n) (_labelDict n) (selfAdvance n) (paused n)
    (actionsEnabled n) (autoReset n) (_synchOffset n) (_prevPos n) (_t n)
    (_framerate n) (_duration n) v (_timelines n) (_timedChildTimelines n)
    (_actions n) (parent n) (children n).

Definition set__timelines (v : list Timeline) (n : MovieClip) : MovieClip :=
  mkMovieClip (mode n) (startPosition n) (parentStartPosition n) (loop n)
    (currentFrame n) (_labelDict n) (selfAdvance n) (paused n)
    (actionsEnabled n) (autoReset n) (_synchOffset n) (_prevPos n) (_t n)
    (_framerate n) (_duration n) (_totalFrames n) v (_timedChildTimelines n)
    (_actions n) (parent n) (children n).

Definition set__timedChildTimelines (v : list ChildTimeline) (n : MovieClip)
  : MovieClip :=
  mkMovieClip (mode n) (startPosition n) (parentStartPosition n) (loop n)
    (currentFrame n) (_labelDict n) (selfAdvance n) (paused n)
    (actionsEnabled n) (autoReset n) (_synchOffset n) (_prevPos n) (_t n)
    (_framerate n) (_duration n) (_totalFrames n) (_timelines n) v
    (_actions n) (parent n) (children n).

Definition set__actions (v : list (option (list callback))) (n : MovieClip)
  : MovieClip :=
  mkMovieClip (mode n) (startPosition n) (parentStartPosition n) (loop n)
    (currentFrame n) (_labelDict n) (selfAdvance n) (paused n)
    (actionsEnabled n) (autoReset n) (_synchOffset n) (_prevPos n) (_t n)
    (_framerate n) (_duration n) (_totalFrames n) (_timelines n)
    (_timedChildTimelines n) v (parent n) (children n).

Definition set_parent (v : option ref) (n : MovieClip) : MovieClip :=
  mkMovieClip (mode n) (startPosition n) (parentStartPosition n) (loop n)
    (currentFrame n) (_labelDict n) (selfAdvance n) (paused n)
    (actionsEnabled n) (autoReset n) (_synchOffset n) (_prevPos n) (_t n)
    (_framerate n) (_duration n) (_totalFrames n) (_timelines n)
    (_timedChildTimelines n) (_actions n) v (children n).

Definition set_children (v : list ref) (n : MovieClip) : MovieClip :=
  mkMovieClip (mode n) (startPosition n) (parentStartPosition n) (loop n)
    (currentFrame n) (_labelDict n) (selfAdvance n) (paused n)
    (actionsEnabled n) (autoReset n) (_synchOffset n) (_prevPos n) (_t n)
    (_framerate n) (_duration n) (_totalFrames n) (_timelines n)
    (_timedChildTimelines n) (_actions n) (parent n) v.

(** ** Runs: a store of display objects, a trace, an outcome *)

Inductive event : Type :=
  | EvSetPosition : Tween -> num -> event    (* tween.setPosition(frame) *)
  | EvAddChild : ref -> ref -> event         (* parent.addChild(child) *)
  | EvRemoveChild : ref -> ref -> event      (* parent.removeChild(child) *)
  | EvAction : ref -> callback -> event.     (* callback.call(clip) *)

Inductive outcome (A : Type) : Type :=
  | Done : A -> outcome A
  | Throw : string -> outcome A       (* a JavaScript exception *)
  | OutOfFuel : outcome A.            (* the bound of the model was reached *)
Arguments Done {A} _.
Arguments Throw {A} _.
Arguments OutOfFuel {A}.

(** A computation reads and writes the store, appends to the trace, and
    either returns, throws or exhausts the fuel of the model; the store and
    the trace reached so far are kept in every case. *)
Definition M (A : Type) : Type :=
  gmap ref MovieClip -> outcome A * gmap ref MovieClip * list event.

#[global] Instance M_ret : MRet M := fun A a s => (Done a, s, []).

#[global] Instance M_bind : MBind M := fun A B f m s =>
  match m s with
  | (Done a, s1, t1) =>
      match f a s1 with (o, s2, t2) => (o, s2, t1 ++ t2) end
  | (Throw e, s1, t1) => (Throw e, s1, t1)
  | (OutOfFuel, s1, t1) => (OutOfFuel, s1, t1)
  end.

Definition throw {A : Type} (e : string) : M A := fun s => (Throw e, s, []).
Definition out_of_fuel {A : Type} : M A := fun s => (OutOfFuel, s, []).
Definition emit (e : event) : M unit := fun s => (Done tt, s, [e]).
Definition emit_all (es : list event) : M unit := fun s => (Done tt, s, es).

(** Dereference: a reference that is not in the store has no counterpart in
    JavaScript; reading through it stops the run. *)
Definition get_node (r : ref) : M MovieClip := fun s =>
  match s !! r with
  | Some n => (Done n, s, [])
  | None => (Throw "dangling reference", s, [])
  end.

Definition modify_node (r : ref) (f : MovieClip -> MovieClip) : M unit :=
  fun s =>
  match s !! r with
  | Some n => (Done tt, <[r := f n]> s, [])
  | None => (Throw "dangling reference", s, [])
  end.

(** [for] over the elements of an array that the body does not change. *)
Fixpoint for_each {A : Type} (body : A -> M unit) (l : list A) : M unit :=
  match l with
  | [] => mret tt
  | x :: l' => body x ;; for_each body l'
  end.

(** ** Strings: [parseInt], [parseFloat], [split]

    Strings are sequences of code units below 256. *)

Definition char_code (c : ascii) : Z := Z.of_nat (nat_of_ascii c).

(** White space skipped by [parseInt] and [parseFloat]: TAB, LF, VT, FF, CR,
    SP and NBSP. *)
Definition is_whitespace (c : ascii) : bool :=
  let n := char_code c in
  ((9 <=? n) && (n <=? 13)) || (n =? 32) || (n =? 160).

Fixpoint trim_left (s : list ascii) : list ascii :=
  match s with
  | c :: s' => if is_whitespace c then trim_left s' else s
  | [] => []
  end.

(** The value of a digit in radixes up to 36. *)
Definition digit_value (c : ascii) : option Z :=
  let n := char_code c in
  if (48 <=? n) && (n <=? 57) then Some (n - 48)
  else if (97 <=? n) && (n <=? 122) then Some (n - 87)
  else if (65 <=? n) && (n <=? 90) then Some (n - 55)
  else None.

(** The longest prefix of digits of radix [R], as digit values, and the
    rest. *)
Fixpoint span_digits (R : Z) (s : list ascii) : list Z * list ascii :=
  match s with
  | c :: s' =>
      match digit_value c with
      | Some d =>
          if d <? R
          then let '(ds, rest) := span_digits R s' in (d :: ds, rest)
          else ([], s)
      | None => ([], s)
      end
  | [] => ([], [])
  end.

Definition digits_value (R : Z) (ds : list Z) : Z :=
  fold_left (fun acc d => acc * R + d) ds 0.

(** An optional sign: [-1] or [1], and the rest. *)
Definition read_sign (s : list ascii) : Z * list ascii :=
  match s with
  | c :: s' =>
      if Ascii.eqb c "-" then (-1, s')
      else if Ascii.eqb c "+" then (1, s')
      else (1, s)
  | [] => (1, [])
  end.

(** [parseInt(str, radix)]; [radix] is [None] when the argument is left
    out. *)
Definition parseInt (str : string) (radix : option Z) : num :=
  let '(sign, s0) := read_sign (trim_left (list_ascii_of_string str)) in
  let R := default 0 radix in
  if negb (R =? 0) && ((R <? 2) || (36 <? R)) then NaN
  else
    let stripPrefix := (R =? 0) || (R =? 16) in
    let R := if R =? 0 then 10 else R in
    let '(R, s0) :=
      match s0 with
      | c0 :: c1 :: s0' =>
          if stripPrefix && Ascii.eqb c0 "0"
             && (Ascii.eqb c1 "x" || Ascii.eqb c1 "X")
          then (16, s0') else (R, s0)
      | _ => (R, s0)
      end in
    match span_digits R s0 with
    | ([], _) => NaN
    | (ds, _) => Int (sign * digits_value R ds)
    end.

Fixpoint starts_with (p s : list ascii) : bool :=
  match p, s with
  | [], _ => true
  | a :: p', b :: s' => Ascii.eqb a b && starts_with p' s'
  | _ :: _, [] => false
  end.

(** [parseFloat(str)]: the value of the longest prefix that is a decimal
    literal, exactly ([-0] is [0]). *)
Definition parseFloat (str : string) : jsnumber :=
  let '(sign, s0) := read_sign (trim_left (list_ascii_of_string str)) in
  if starts_with (list_ascii_of_string "Infinity") s0 then NumInf (sign <? 0)
  else
    let '(ip, s1) := span_digits 10 s0 in
    let '(fp, s2) :=
      match s1 with
      | c :: s0' => if Ascii.eqb c "." then span_digits 10 s0' else ([], s1)
      | [] => ([], s1)
      end in
    match ip ++ fp with
    | [] => NumNaN
    | ds =>
        let e :=
          match s2 with
          | c :: s3 =>
              if Ascii.eqb c "e" || Ascii.eqb c "E" then
                let '(esign, s4) := read_sign s3 in
                match span_digits 10 s4 with
                | ([], _) => 0
                | (es, _) => esign * digits_value 10 es
                end
              else 0
          | [] => 0
          end in
        Num (Qred (inject_Z (sign * digits_value 10 ds)
                   * Qpower (inject_Z 10) (e - Z.of_nat (length fp))))
    end.

(** [str.split(sep)] for a separator of one character. *)
Fixpoint split_on (sep : ascii) (s : list ascii) (cur : string) : list string :=
  match s with
  | [] => [cur]
  | c :: s' =>
      if Ascii.eqb c sep then cur :: split_on sep s' EmptyString
      else split_on sep s' (cur +:+ String c EmptyString)
  end.

Definition split (str : string) (sep : ascii) : list string :=
  split_on sep (list_ascii_of_string str) EmptyString.

(** [str.substr(1)]. *)
Definition substr1 (str : string) : string :=
  match str with String _ s => s | EmptyString => EmptyString end.

Definition num_to_jsnumber (n : num) : jsnumber :=
  match n with Int z => Num (inject_Z z) | NaN => NumNaN end.

(** [!!n] for a number. *)
Definition num_truthy (n : num) : bool :=
  match n with Int z => negb (z =? 0) | NaN => false end.

Definition jsnumber_truthy (n : jsnumber) : bool :=
  match n with
  | Num q => negb (Qeq_bool q 0)
  | NumInf _ => true
  | NumNaN => false
  end.

(** ** Plain objects

    An object literal is the list of its own properties in creation order. *)

Fixpoint obj_set {A : Type} (k : string) (v : A) (o : list (string * A))
  : list (string * A) :=
  match o with
  | [] => [(k, v)]
  | (k', v') :: o' =>
      if String.eqb k' k then (k', v) :: o' else (k', v') :: obj_set k v o'
  end.

Fixpoint obj_get {A : Type} (k : string) (o : list (string * A)) : option A :=
  match o with
  | [] => None
  | (k', v') :: o' => if String.eqb k' k then Some v' else obj_get k o'
  end.

(** A property name that is an array index: a canonical decimal numeral
    below 2^32 - 1. *)
Definition array_index (k : string) : option Z :=
  match span_digits 10 (list_ascii_of_string k) with
  | (d :: ds, []) =>
      if (d =? 0) && negb (bool_decide (ds = [])) then None
      else
        let v := digits_value 10 (d :: ds) in
        if v <? 4294967295 then Some v else None
  | _ => None
  end.

Fixpoint insert_sorted {A : Type} (x : Z * A) (l : list (Z * A))
  : list (Z * A) :=
  match l with
  | [] => [x]
  | y :: l' => if fst x <? fst y then x :: l else y :: insert_sorted x l'
  end.

(** The order in which [for (k in o)] visits the properties of [o]: array
    indices in ascending order, then the other names in creation order. *)
Definition for_in {A : Type} (o : list (string * A)) : list (string * A) :=
  let indexed :=
    fold_right
      (fun kv acc =>
         match array_index (fst kv) with
         | Some i => insert_sorted (i, kv) acc
         | None => acc
         end) [] o in
  map snd indexed
  ++ filter (fun kv => bool_decide (array_index (fst kv) = None)) o.

(** ** The compact keyframe decoder ([addKeyframes], string argument) *)

Definition keysMap (c : ascii) : option string :=
  if Ascii.eqb c "X" then Some "x"        (* x position *)
  else if Ascii.eqb c "Y" then Some "y"   (* y position *)
  else if Ascii.eqb c "A" then Some "sx"  (* scale x *)
  else if Ascii.eqb c "B" then Some "sy"  (* scale y *)
  else if Ascii.eqb c "C" then Some "kx"  (* skew x *)
  else if Ascii.eqb c "D" then Some "ky"  (* skew y *)
  else if Ascii.eqb c "R" then Some "r"   (* rotation *)
  else if Ascii.eqb c "L" then Some "a"   (* alpha *)
  else if Ascii.eqb c "T" then Some "t"   (* tint *)
  else if Ascii.eqb c "F" then Some "c"   (* colorTransform *)
  else if Ascii.eqb c "V" then Some "v"   (* visibility *)
  else None.

(** The variable [prop]: [undefined] at first, [null] after a space, else a
    value of [keysMap]. *)
Inductive propname : Type :=
  | PropUndefined : propname
  | PropNull : propname
  | PropName : string -> propname.

(** [if (prop)]. *)
Definition prop_truthy (p : propname) : bool :=
  match p with
  | PropName s => negb (String.eqb s "")
  | _ => false
  end.

(** The property name [frame[prop]] writes to. *)
Definition prop_key (p : propname) : string :=
  match p with
  | PropUndefined => "undefined"
  | PropNull => "null"
  | PropName s => s
  end.

(** [prop === s], as the cases of [switch (prop)] compare. *)
Definition prop_is (p : propname) (s : string) : bool :=
  match p with
  | PropName s' => String.eqb s' s
  | _ => false
  end.

(** [parseValue(frame, prop, buffer)], as the new contents of [frame]. *)
Definition parseValue (frame : props) (prop : propname) (buffer : string)
  : props :=
  if prop_is prop "c" then
    <["c" := VArray (map parseFloat (split buffer ","))]> frame
  else if prop_is prop "t" then
    <["t" := VString buffer]> frame
  else if prop_is prop "v" then
    <["v" := VBoolean (num_truthy (parseInt buffer None))]> frame
  else
    <[prop_key prop := VNumber (parseFloat buffer)]> frame.

(** The variables of the decoding loop.  [d_frame] and the values of
    [d_result] are references into [d_objects], the objects created by
    [{}] so far: [result[buffer] = frame] stores an alias, and properties
    parsed later are seen through it. *)
Record decoder : Type := mkDecoder {
  d_objects : list props;
  d_result : list (string * nat);
  d_buffer : string;
  d_isFrameStarted : bool;
  d_prop : propname;
  d_frame : nat
}.

Definition decoder_init : decoder :=
  mkDecoder [∅] [] "" false PropUndefined 0%nat.

(** [parseValue(frame, prop, buffer)] on the object [frame] refers to. *)
Definition decoder_parseValue (st : decoder) : decoder :=
  mkDecoder
    (alter (fun f => parseValue f (d_prop st) (d_buffer st)) (d_frame st)
       (d_objects st))
    (d_result st) (d_buffer st) (d_isFrameStarted st) (d_prop st) (d_frame st).

(** One turn of [while (i < keyframes.length)], on the character
    [c = keyframes[i]]; every branch ends in [i++]. *)
Definition decode_step (st : decoder) (c : ascii) : decoder :=
  match keysMap c with
  | Some p =>
      let st1 :=
        if d_isFrameStarted st then st
        else mkDecoder (d_objects st)
               (obj_set (d_buffer st) (d_frame st) (d_result st))
               (d_buffer st) true (d_prop st) (d_frame st) in
      let st2 := if prop_truthy (d_prop st1) then decoder_parseValue st1
                 else st1 in
      mkDecoder (d_objects st2) (d_result st2) "" (d_isFrameStarted st2)
        (PropName p) (d_frame st2)
  | None =>
      if Ascii.eqb c " " then
        (* Start a new prop *)
        let st1 := decoder_parseValue st in
        mkDecoder (d_objects st1 ++ [∅]) (d_result st1) "" false PropNull
          (length (d_objects st1))
      else
        mkDecoder (d_objects st) (d_result st)
          (d_buffer st +:+ String c EmptyString) (d_isFrameStarted st)
          (d_prop st) (d_frame st)
  end.

Definition decode_loop (keyframes : string) : decoder :=
  fold_left decode_step (list_ascii_of_string keyframes) decoder_init.

(** The object [result] when the loop ends, with the references followed. *)
Definition decodeKeyframes (keyframes : string) : list (string * props) :=
  let st := decode_loop keyframes in
  map (fun kr => (fst kr, default ∅ (d_objects st !! snd kr))) (d_result st).

(** ** Construction *)

(** The options of the constructor, after the defaults have been applied. *)
Record Options : Type := mkOptions {
  opt_mode : Z;
  opt_startPosition : Z;
  opt_loop : bool;
  opt_labels : list (string * Z);
  opt_duration : Z;
  opt_framerate : Q
}.

Definition default_options : Options :=
  mkOptions INDEPENDENT 0 true [] 0 0%Q.

(** [value > 0] on times. *)
Definition Qpositive (q : Q) : bool := negb (Qle_bool q 0).

(** The setter of [framerate]. *)
Definition framerate_set (value : Q) (this : MovieClip) : MovieClip :=
  if Qpositive value then
    set__duration
      (if Qeq_bool value 0 then 0%Q
       else (inject_Z (_totalFrames this) / value)%Q)
      (set__framerate value this)
  else set__duration 0%Q (set__framerate 0%Q this).

(** [new MovieClip(options)]: the object the constructor leaves. *)
Definition new_MovieClip (options : Options) : MovieClip :=
  let this :=
    mkMovieClip (opt_mode options) (opt_startPosition options) None
      (opt_loop options) (Int 0) (opt_labels options) true false true true
      (Int 0) (Int (-1)) 0%Q (opt_framerate options) 0%Q
      (opt_duration options) [] [] [] None [] in
  if negb (Qeq_bool (opt_framerate options) 0)
  then framerate_set (opt_framerate options) this
  else this.

(** ** Registration: tweens and frame scripts *)

(** The last index of [l] whose element satisfies [P], as the loops
    [for (i = length - 1; i >= 0; --i)] of the code find it. *)
Fixpoint find_last {A : Type} (P : A -> bool) (l : list A) : option nat :=
  match l with
  | [] => None
  | x :: l' =>
      match find_last P l' with
      | Some i => Some (S i)
      | None => if P x then Some 0%nat else None
      end
  end.

(** Modelled from the spec: [Timeline.addTween] of the TweenTimeline
    collaborator appends the segment [startFrame, startFrame + duration]. *)
Definition Timeline_addTween (instance : ref) (properties : props)
    (startFrame : num) (duration : Z) (ease : option nat) (tl : Timeline)
  : Timeline :=
  mkTimeline (target tl)
    (tweens tl ++ [mkTween instance properties startFrame
                     (num_add startFrame (Int duration)) ease]).

(** Convert any string colors to uints. *)
Definition convert_properties (properties : props) : props :=
  match properties !! "t" with
  | Some (VString t) =>
      <["t" := VNumber (num_to_jsnumber (parseInt (substr1 t) (Some 16)))]>
        properties
  | _ =>
      match properties !! "v" with
      | Some (VNumber v) => <["v" := VBoolean (jsnumber_truthy v)]> properties
      | _ => properties
      end
  end.

(** [this.addTween(instance, properties, startFrame, duration, ease)]. *)
Definition addTween (instance : ref) (properties : props) (startFrame : num)
    (duration : option Z) (ease : option nat) (this : MovieClip) : MovieClip :=
  let duration := default 0 duration in
  let this1 :=
    match find_last (fun tl => bool_decide (target tl = instance))
            (_timelines this) with
    | Some _ => this
    | None => set__timelines (_timelines this ++ [mkTimeline instance []]) this
    end in
  let i := default 0%nat
             (find_last (fun tl => bool_decide (target tl = instance))
                (_timelines this1)) in
  let properties := convert_properties properties in
  let this2 :=
    set__timelines
      (alter (Timeline_addTween instance properties startFrame duration ease)
         i (_timelines this1)) this1 in
  match num_add startFrame (Int duration) with
  | Int e => if _totalFrames this2 <? e then set__totalFrames e this2
             else this2
  | NaN => this2
  end.

(** The argument [keyframes] of [addKeyframes]: left out, a data string, or
    an object from frame number to properties. *)
Inductive keyframes_arg : Type :=
  | KfNone : keyframes_arg
  | KfString : string -> keyframes_arg
  | KfObject : list (string * props) -> keyframes_arg.

(** [this.addKeyframes(instance, keyframes)]. *)
Definition addKeyframes (this instance : ref) (keyframes : keyframes_arg)
  : M unit :=
  let register (keyframes : list (string * props)) : M unit :=
    for_each
      (fun kv =>
         modify_node this
           (addTween instance (snd kv) (parseInt (fst kv) (Some 10)) None None))
      (for_in keyframes) in
  match keyframes with
  | KfNone => mret tt
  | KfString s =>
      if String.eqb s "" then mret tt else register (decodeKeyframes s)
  | KfObject o => register o
  end.

(** [actions.length = n] for [n] past the length, and [a[i] = v] inside. *)
Definition array_grow {A : Type} (n : Z) (a : list (option A))
  : list (option A) :=
  a ++ replicate (Z.to_nat n - length a) None.

(** [this.addAction(callback, startFrame)].  With a negative [startFrame]
    the assignment [actions[startFrame] = [callback]] creates a property
    that is no element of the array; the model leaves it out. *)
Definition addAction (callback : callback) (startFrame : Z) (this : MovieClip)
  : MovieClip :=
  let actions := _actions this in
  let actions :=
    if Z.of_nat (length actions) <=? startFrame
    then array_grow (startFrame + 1) actions else actions in
  let this1 :=
    if _totalFrames this <? startFrame then set__totalFrames startFrame this
    else this in
  let actions :=
    match js_index actions startFrame with
    | Some (Some frameActions) =>
        <[Z.to_nat startFrame := Some (frameActions ++ [callback])]> actions
    | _ =>
        if startFrame <? 0 then actions
        else <[Z.to_nat startFrame := Some [callback]]> actions
    end in
  set__actions actions this1.

Definition play (this : MovieClip) : MovieClip := set_paused false this.

Definition stop (this : MovieClip) : MovieClip := set_paused true this.

Definition _reset (this : MovieClip) : MovieClip :=
  set_currentFrame (Int 0) (set__t 0%Q (set__prevPos (Int (-1)) this)).

(** ** The display tree *)

Fixpoint remove_first (c : ref) (l : list ref) : list ref :=
  match l with
  | [] => []
  | x :: l' => if bool_decide (x = c) then l' else x :: remove_first c l'
  end.

(** Modelled from the spec: the display-tree primitive ([PIXI.Container]),
    which provides attach, detach, the children and the parent
    back-reference.  Detaching a node that is no child does nothing;
    attaching first detaches the node from the parent it has. *)
Definition removeChild (this child : ref) : M unit :=
  n ← get_node this;
  if bool_decide (child ∈ children n) then
    modify_node child (set_parent None) ;;
    modify_node this (fun n => set_children (remove_first child (children n)) n)
  else mret tt.

Definition addChild (this child : ref) : M unit :=
  c ← get_node child;
  match parent c with
  | Some p => removeChild p child
  | None => mret tt
  end ;;
  modify_node child (set_parent (Some this)) ;;
  modify_node this (fun n => set_children (children n ++ [child]) n).

(** ** The resolution pass: [_setTimelinePosition] *)

(** The first segment of a timeline that contains [currentFrame]. *)
Fixpoint find_tween (timeline : list Tween) (currentFrame : num)
  : option Tween :=
  match timeline with
  | [] => None
  | tween :: rest =>
      if num_ge currentFrame (tw_startFrame tween)
         && num_le currentFrame (tw_endFrame tween)
      then Some tween
      else find_tween rest currentFrame
  end.

(** handle all tweens: the calls of [setPosition], from the last timeline to
    the first. *)
Definition tween_events (_timelines : list Timeline) (currentFrame : num)
  : list event :=
  flat_map
    (fun timeline =>
       match find_tween (tweens timeline) currentFrame with
       | Some tween => [EvSetPosition tween currentFrame]
       | None => []
       end)
    (reverse _timelines).

(** [shouldBeChild], as a condition. *)
Definition truthy (b : option (option bool)) : bool :=
  match b with Some (Some true) => true | _ => false end.

(** One turn of the loop over [_timedChildTimelines]. *)
Definition update_timed_child (this : ref) (currentFrame : num)
    (timeline : ChildTimeline) : M unit :=
  let target := ct_target timeline in
  let shouldBeChild := truthy (js_index_num (ct_frames timeline) currentFrame) in
  t ← get_node target;
  if shouldBeChild && negb (bool_decide (parent t = Some this)) then
    emit (EvAddChild this target) ;;
    addChild this target ;;
    t ← get_node target;
    if (mode t =? INDEPENDENT) && autoReset t
    then modify_node target _reset
    else mret tt
  else if negb shouldBeChild && bool_decide (parent t = Some this) then
    emit (EvRemoveChild this target) ;;
    removeChild this target
  else mret tt.

(** go through all children and update synched movieclips that are not single
    frames: the turns [i], [i + 1], ... of
    [for (i = 0, length = children.length; i < length; ++i)], with [remaining]
    turns to go.  [children[i]] is read from the array as it is at that turn;
    [updateTimeline] is [child._updateTimeline()]. *)
Fixpoint sync_children (updateTimeline : ref -> M unit) (this : ref)
    (currentFrame : num) (i remaining : nat) : M unit :=
  match remaining with
  | O => mret tt
  | S remaining' =>
      n ← get_node this;
      match children n !! i with
      | None => throw "TypeError: child is undefined"
      | Some child =>
          c ← get_node child;
          (if mode c =? SYNCHED then
             modify_node child
               (set__synchOffset
                  (num_sub currentFrame (to_number (parentStartPosition c)))) ;;
             updateTimeline child
           else mret tt) ;;
          sync_children updateTimeline this currentFrame (S i) remaining'
      end
  end.

(** The calls made for frame [i]: [frameActions[j].call(this)] for every [j],
    when [actions[i]] is set. *)
Definition frame_events (this : ref) (actions : list (option (list callback)))
    (i : Z) : list event :=
  match js_index actions i with
  | Some (Some frameActions) => map (EvAction this) frameActions
  | _ => []
  end.

(** The body of [for (...; i < length; ++i)] over the frame scripts, from
    the state [(i, length, needsLoop)]; [None] when [fuel] turns are not
    enough. *)
Fixpoint fire_loop (fuel : nat) (this : ref)
    (actions : list (option (list callback))) (currentFrame : Z)
    (i length : Z) (needsLoop : bool) : option (list event) :=
  if i <? length then
    match fuel with
    | O => None
    | S fuel' =>
        let fired := frame_events this actions i in
        (* handle looping around *)
        let '(i, length, needsLoop) :=
          if needsLoop && (i =? length - 1)
          then (0, currentFrame + 1, false)
          else (i, length, needsLoop) in
        rest ← fire_loop fuel' this actions currentFrame (i + 1) length
                 needsLoop;
        Some (fired ++ rest)
    end
  else Some [].

(** A number of turns that is always enough. *)
Definition fire_fuel (currentFrame i length : Z) (needsLoop : bool) : nat :=
  (Z.to_nat (length - i)
   + (if needsLoop then Z.to_nat (currentFrame + 1) + 1 else 0))%nat.

(** handle actions: the block under [if (doActions)].  With a [NaN] among
    [startFrame] and [currentFrame] the test [i < length] fails at once. *)
Definition fireActions (this : ref) (actions : list (option (list callback)))
    (startFrame currentFrame : num) : option (list event) :=
  match startFrame, currentFrame with
  | Int startFrame, Int currentFrame =>
      let len := Z.of_nat (List.length actions) in
      (* handle looping around *)
      let needsLoop := false in
      let '(length, needsLoop) :=
        if currentFrame <? startFrame then (len, true)
        else (Z.min (currentFrame + 1) len, needsLoop) in
      (* the initialiser of the loop assigns [length] again *)
      let i := startFrame in
      let length := Z.min (currentFrame + 1) len in
      fire_loop (fire_fuel currentFrame i length needsLoop) this actions
        currentFrame i length needsLoop
  | _, _ => Some []
  end.

(** [this._setTimelinePosition(startFrame, currentFrame, doActions)];
    [updateTimeline] is the method [_updateTimeline] of the children. *)
Definition _setTimelinePosition (updateTimeline : ref -> M unit) (this : ref)
    (startFrame currentFrame : num) (doActions : bool) : M unit :=
  n ← get_node this;
  emit_all (tween_events (_timelines n) currentFrame) ;;
  n ← get_node this;
  for_each (update_timed_child this currentFrame) (_timedChildTimelines n) ;;
  n ← get_node this;
  sync_children updateTimeline this currentFrame 0 (length (children n)) ;;
  if doActions then
    n ← get_node this;
    match fireActions this (_actions n) startFrame currentFrame with
    | Some fired => emit_all fired
    | None => out_of_fuel
    end
  else mret tt.

(** The frame a clip of mode other than INDEPENDENT is put on. *)
Definition synched_frame (n : MovieClip) : num :=
  let currentFrame :=
    num_add (Int (startPosition n))
      (if mode n =? SINGLE_FRAME then Int 0 else _synchOffset n) in
  if num_ge currentFrame (Int (_totalFrames n))
  then num_rem currentFrame (Int (_totalFrames n))
  else currentFrame.

(** [this._updateTimeline()]; [fuel] bounds the depth of the calls on
    children of children. *)
Fixpoint _updateTimeline (fuel : nat) (this : ref) : M unit :=
  match fuel with
  | O => out_of_fuel
  | S fuel' =>
      n ← get_node this;
      let synched := negb (mode n =? INDEPENDENT) in
      (if synched then modify_node this (fun n => set_currentFrame (synched_frame n) n)
       else mret tt) ;;
      n ← get_node this;
      if num_eq (_prevPos n) (currentFrame n) then mret tt
      else
        (* update timeline position, ignoring actions if this is a graphic. *)
        let startFrame :=
          if num_lt (_prevPos n) (Int 0) then Int 0 else _prevPos n in
        _setTimelinePosition (_updateTimeline fuel') this startFrame
          (currentFrame n) (if synched then false else actionsEnabled n) ;;
        modify_node this (fun n => set__prevPos (currentFrame n) n)
  end.

(** ** Seeking and advancing *)

(** [this._goto(positionOrLabel)], with a label or a frame number. *)
Definition _goto (fuel : nat) (this : ref) (positionOrLabel : string + Z)
  : M unit :=
  n ← get_node this;
  let pos :=
    match positionOrLabel with
    | inl label => obj_get label (_labelDict n)
    | inr position => Some position
    end in
  match pos with
  | None => mret tt
  | Some pos =>
      (* prevent _updateTimeline from overwriting the new position because
         of a reset *)
      (if num_eq (_prevPos n) (Int (-1))
       then modify_node this (set__prevPos NaN) else mret tt) ;;
      modify_node this (set_currentFrame (Int pos)) ;;
      (* update the elapsed time if a time based movieclip *)
      modify_node this
        (fun n =>
           if Qpositive (_framerate n)
           then set__t (inject_Z pos / _framerate n)%Q n
           else set__t 0%Q n) ;;
      _updateTimeline fuel this
  end.

Definition gotoAndPlay (fuel : nat) (this : ref) (positionOrLabel : string + Z)
  : M unit :=
  modify_node this (set_paused false) ;;
  _goto fuel this positionOrLabel.

Definition gotoAndStop (fuel : nat) (this : ref) (positionOrLabel : string + Z)
  : M unit :=
  modify_node this (set_paused true) ;;
  _goto fuel this positionOrLabel.

(** [while ((o = o.parent) && !fps)] of [advance]: the frame rate of the
    nearest INDEPENDENT ancestor that has one. *)
Fixpoint inherited_framerate (fuel : nat) (o : ref) (fps : Q) : M Q :=
  match fuel with
  | O => out_of_fuel
  | S fuel' =>
      n ← get_node o;
      match parent n with
      | None => mret fps
      | Some o =>
          if Qeq_bool fps 0 then
            n ← get_node o;
            inherited_framerate fuel' o
              (if mode n =? INDEPENDENT then _framerate n else fps)
          else mret fps
      end
  end.

(** [this.advance(time)]. *)
Definition advance (fuel : nat) (this : ref) (time : Q) : M unit :=
  n ← get_node this;
  (if Qeq_bool (_framerate n) 0 then
     fps ← inherited_framerate fuel this (_framerate n);
     modify_node this (framerate_set fps)
   else mret tt) ;;
  (if negb (Qeq_bool time 0)
   then modify_node this (fun n => set__t (_t n + time)%Q n) else mret tt) ;;
  modify_node this
    (fun n =>
       if negb (Qle_bool (_t n) (_duration n))
       then set__t (if loop n then (_t n - _duration n)%Q else _duration n) n
       else n) ;;
  (* add a tiny amount to account for potential floating point errors *)
  modify_node this
    (fun n =>
       set_currentFrame
         (Int (Qfloor (_t n * _framerate n + (1 # 100000000))%Q)) n) ;;
  (* final error checking *)
  modify_node this
    (fun n =>
       if num_ge (currentFrame n) (Int (_totalFrames n))
       then set_currentFrame (Int (_totalFrames n - 1)) n else n) ;;
  (* update all tweens & actions in the timeline *)
  _updateTimeline fuel this.

(** ** Registration: timed children *)

(** [a[i] = v] for every index [i] of the array with [from <= i < to]. *)
Definition set_range {A : Type} (v : A) (from to : Z) (a : list A) : list A :=
  imap (fun i x =>
          if (from <=? Z.of_nat i) && (Z.of_nat i <? to) then v else x) a.

(** [a.fill(v, start, end)]: a negative bound counts from the end. *)
Definition array_fill {A : Type} (v : A) (start end_ : Z) (a : list A)
  : list A :=
  let len := Z.of_nat (length a) in
  let k := if start <? 0 then Z.max (len + start) 0 else Z.min start len in
  let final := if end_ <? 0 then Z.max (len + end_) 0 else Z.min end_ len in
  set_range v k final a.

(** The part of [addTimedChild] that records the presence of [instance] on
    the frames [startFrame, startFrame + duration) and extends
    [_totalFrames].  [es6_fill] tells whether arrays have the method [fill];
    without it the code writes [true] up to the length of the timeline. *)
Definition register_presence (es6_fill : bool) (instance : ref)
    (startFrame duration : Z) (this : MovieClip) : MovieClip :=
  (* get existing timeline; if there wasn't one, make a new one *)
  let this1 :=
    match find_last (fun tl => bool_decide (ct_target tl = instance))
            (_timedChildTimelines this) with
    | Some _ => this
    | None =>
        set__timedChildTimelines
          (_timedChildTimelines this ++ [mkChildTimeline instance []]) this
    end in
  let i := default 0%nat
             (find_last (fun tl => bool_decide (ct_target tl = instance))
                (_timedChildTimelines this1)) in
  let update (timeline : list (option bool)) : list (option bool) :=
    (* ensure that the timeline is long enough *)
    let oldLength := Z.of_nat (length timeline) in
    let timeline :=
      if oldLength <? startFrame + duration then
        let timeline := array_grow (startFrame + duration) timeline in
        (* fill any gaps with false *)
        if oldLength <? startFrame then
          if es6_fill then array_fill (Some false) oldLength startFrame timeline
          else set_range (Some false) oldLength startFrame timeline
        else timeline
      else timeline in
    if es6_fill
    then array_fill (Some true) startFrame (startFrame + duration) timeline
    else set_range (Some true) startFrame (Z.of_nat (length timeline)) timeline in
  let this2 :=
    set__timedChildTimelines
      (alter (fun tl => mkChildTimeline (ct_target tl) (update (ct_frames tl)))
         i (_timedChildTimelines this1)) this1 in
  if _totalFrames this2 <? startFrame + duration
  then set__totalFrames (startFrame + duration) this2
  else this2.

(** [this.addTimedChild(instance, startFrame, duration, keyframes)];
    arguments left out are [None]. *)
Definition addTimedChild (fuel : nat) (es6_fill : bool) (this instance : ref)
    (startFrame duration : option Z) (keyframes : keyframes_arg) : M unit :=
  n ← get_node this;
  let startFrame := default 0 startFrame in
  let duration :=
    match duration with
    | Some d =>
        if d <? 1 then (if _totalFrames n =? 0 then 1 else _totalFrames n)
        else d
    | None => if _totalFrames n =? 0 then 1 else _totalFrames n
    end in
  (* Add the starting offset for synced movie clips *)
  inst ← get_node instance;
  (if mode inst =? SYNCHED
   then modify_node instance (set_parentStartPosition (Some startFrame))
   else mret tt) ;;
  modify_node this (register_presence es6_fill instance startFrame duration) ;;
  (* Add the collection of keyframes *)
  addKeyframes this instance keyframes ;;
  (* Set the initial position/add *)
  n ← get_node this;
  _setTimelinePosition (_updateTimeline fuel) this (Int startFrame)
    (currentFrame n) true.

(** ** Observations on runs *)

Definition outcome_of {A : Type}
    (r : outcome A * gmap nat MovieClip * list event) : outcome A :=
  fst (fst r).

Definition store_of {A : Type}
    (r : outcome A * gmap nat MovieClip * list event) : gmap nat MovieClip :=
  snd (fst r).

Definition trace_of {A : Type}
    (r : outcome A * gmap nat MovieClip * list event) : list event :=
  snd r.

Definition is_action (e : event) : bool :=
  match e with EvAction _ _ => true | _ => false end.

(** The frame scripts a pass fires over the frames [first, last] in
    ascending order. *)
Definition fired_between (this : ref) (actions : list (option (list callback)))
    (first last : Z) : list event :=
  flat_map (frame_events this actions) (seqZ first (last + 1 - first)).

(** The frame [_updateTimeline] resolves a clip to. *)
Definition resolved_frame (n : MovieClip) : num :=
  if mode n =? INDEPENDENT then currentFrame n else synched_frame n.

(** A clip without children and without timed children. *)
Definition leaf (n : MovieClip) : Prop :=
  children n = [] /\ _timedChildTimelines n = [].

(** ** Scenes *)

(** A looping clip of five frames, one frame per second, with the frame
    scripts 0, 3 and 4 on the frames 0, 3 and 4. *)
Definition seam_clip : MovieClip :=
  addAction 4%nat 4
    (addAction 3%nat 3
       (addAction 0%nat 0
          (new_MovieClip (mkOptions INDEPENDENT 0 true [] 5 1%Q)))).

Definition seam_scene : gmap nat MovieClip := {[ 0%nat := seam_clip ]}.

(** A clip of five frames that does not loop. *)
Definition short_clip : MovieClip :=
  new_MovieClip (mkOptions INDEPENDENT 0 false [("intro", 2)] 5 1%Q).

Definition short_scene : gmap nat MovieClip := {[ 0%nat := short_clip ]}.

(** A parent (0) of twelve frames and a SYNCHED clip (1) of four frames
    whose own [startPosition] is 2. *)
Definition synched_scene : gmap nat MovieClip :=
  {[ 0%nat := new_MovieClip (mkOptions INDEPENDENT 0 true [] 12 1%Q);
     1%nat := addAction 9%nat 1
                (new_MovieClip (mkOptions SYNCHED 2 true [] 4 0%Q)) ]}.

(** The scene above once the parent has registered clip 1 as a timed child
    on its frames 5 to 8, with two keyframes, and a frame script on its own
    frame 6. *)
Definition staged_scene : gmap nat MovieClip :=
  store_of
    ((addTimedChild 2 true 0%nat 1%nat (Some 5) (Some 4)
        (KfString "0X100Y100 10X150 ") ;;
      modify_node 0%nat (addAction 7%nat 6))
       synched_scene).

(** The staged scene after the parent was sent to frame 7. *)
Definition played_scene : gmap nat MovieClip :=
  store_of (gotoAndStop 2 0%nat (inr 7) staged_scene).

(** The clip a reference denotes in a scene that holds it. *)
Definition clip_of (s : gmap nat MovieClip) (r : ref) : MovieClip :=
  default (new_MovieClip default_options) (s !! r).

(** No frame script is called in a trace. *)
Definition no_actions (t : list event) : Prop :=
  Forall (fun e => is_action e = false) t.

(** What the pass of a parent at [parentFrame] leaves of an attached child
    that was [before]: a SYNCHED child has its offset counted from
    [parentStartPosition] and is resolved to the frame that follows from it;
    another child is as before. *)
Definition synched_with (parentFrame : num) (before : MovieClip)
    (after : option MovieClip) : Prop :=
  if mode before =? SYNCHED then
    exists n' : MovieClip,
      after = Some n' /\
      _synchOffset n' =
        num_sub parentFrame (to_number (parentStartPosition before)) /\
      currentFrame n' = synched_frame n' /\
      _prevPos n' = currentFrame n'
  else after = Some before.

(** ** Statements about the decoder *)

(** The mapping [{0: {x: 100, y: 100}, 10: {x: 150}}]. *)
Definition two_keyframes : list (string * props) :=
  [ ("0", {[ "x" := VNumber (Num 100); "y" := VNumber (Num 100) ]});
    ("10", {[ "x" := VNumber (Num 150) ]}) ].

Definition is_letter (c : ascii) : bool :=
  let n := char_code c in
  ((65 <=? n) && (n <=? 90)) || ((97 <=? n) && (n <=? 122)).

(** A letter that is no code of [keysMap]. *)
Definition unknown_code (c : ascii) : bool :=
  is_letter c && match keysMap c with Some _ => false | None => true end.

Definition has_unknown_code (keyframes : string) : bool :=
  existsb unknown_code (list_ascii_of_string keyframes).

(** The state of the decoding loop with [c] appended to [buffer]. *)
Definition buffer_append (st : decoder) (c : ascii) : decoder :=
  mkDecoder (d_objects st) (d_result st)
    (d_buffer st +:+ String c EmptyString) (d_isFrameStarted st) (d_prop st)
    (d_frame st).

(** A computation keeps the clips of the store and their modes. *)
Definition keeps_mode {A : Type} (m : M A) : Prop :=
  forall (s s1 : gmap nat MovieClip) (a : A) (t1 : list event) (r : ref)
         (n : MovieClip),
    m s = (Done a, s1, t1) -> s !! r = Some n ->
    exists n', s1 !! r = Some n' /\ mode n' = mode n.

(** A SYNCHED clip (0) with a frame script on its frame 0, and a clip (1)
    that is not on the stage yet. *)
Definition graphic_scene : gmap nat MovieClip :=
  {[ 0%nat := addAction 5%nat 0
                (new_MovieClip (mkOptions SYNCHED 0 true [] 3 0%Q));
     1%nat := new_MovieClip (mkOptions SINGLE_FRAME 0 true [] 1 0%Q) ]}.

(** ** Further statements about runs *)

(** A computation keeps every clip of the store, and each clip is related to
    what it was by [R], however the run ends. *)
Definition keeps (R : MovieClip -> MovieClip -> Prop) {A : Type} (m : M A)
  : Prop :=
  forall (s s1 : gmap nat MovieClip) (o : outcome A) (t1 : list event)
         (r : ref) (n : MovieClip),
    m s = (o, s1, t1) -> s !! r = Some n ->
    exists n', s1 !! r = Some n' /\ R n n'.

(** The fields no resolution writes: what was registered on the clip (tweens,
    timed children, frame scripts, labels, length), its mode and flags, its
    frame rate.  A resolution writes [currentFrame], [_prevPos],
    [_synchOffset], [_t] (on reset), [parent] and [children] only. *)
Definition same_registration (n n' : MovieClip) : Prop :=
  mode n' = mode n /\
  startPosition n' = startPosition n /\
  parentStartPosition n' = parentStartPosition n /\
  loop n' = loop n /\
  _labelDict n' = _labelDict n /\
  selfAdvance n' = selfAdvance n /\
  paused n' = paused n /\
  actionsEnabled n' = actionsEnabled n /\
  autoReset n' = autoReset n /\
  _framerate n' = _framerate n /\
  _duration n' = _duration n /\
  _totalFrames n' = _totalFrames n /\
  _timelines n' = _timelines n /\
  _timedChildTimelines n' = _timedChildTimelines n /\
  _actions n' = _actions n.

(** The played scene with the playhead of the parent moved to frame 8, as
    [advance] leaves it before it resolves. *)
Definition moved_scene : gmap nat MovieClip :=
  <[0%nat := set_currentFrame (Int 8) (clip_of played_scene 0%nat)]>
    played_scene.

(** The clip [_goto] hands to [_updateTimeline] when it seeks to the frame
    [pos]: the never-resolved mark [-1] of [_prevPos] replaced by NaN, the
    frame and the elapsed time set. *)
Definition sought (pos : Z) (n : MovieClip) : MovieClip :=
  let n1 := if num_eq (_prevPos n) (Int (-1)) then set__prevPos NaN n else n in
  let n2 := set_currentFrame (Int pos) n1 in
  if Qpositive (_framerate n2)
  then set__t (inject_Z pos / _framerate n2)%Q n2
  else set__t 0%Q n2.

(** The clip of five frames after a first seek to frame 0. *)
Definition resting_scene : gmap nat MovieClip :=
  store_of (gotoAndPlay 1 0%nat (inr 0) seam_scene).

(** The scene of a parent and a SYNCHED clip, the clip attached with
    [addChild] alone: no [addTimedChild] has recorded a start frame for it. *)
Definition adopted_scene : gmap nat MovieClip :=
  store_of (addChild 0%nat 1%nat synched_scene).

(** The clip [advance] hands to [_updateTimeline] when the clip has a frame
    rate of its own: the time added, wrapped or held at the duration, the
    frame computed from it and clamped below [_totalFrames]. *)
Definition advanced (time : Q) (n : MovieClip) : MovieClip :=
  let n1 := if negb (Qeq_bool time 0) then set__t (_t n + time)%Q n else n in
  let n2 :=
    if negb (Qle_bool (_t n1) (_duration n1))
    then set__t (if loop n1 then (_t n1 - _duration n1)%Q else _duration n1) n1
    else n1 in
  let n3 :=
    set_currentFrame
      (Int (Qfloor (_t n2 * _framerate n2 + (1 # 100000000))%Q)) n2 in
  if num_ge (currentFrame n3) (Int (_totalFrames n3))
  then set_currentFrame (Int (_totalFrames n3 - 1)) n3
  else n3.

(** ** Further statements about registration *)

(** The frame scripts registered on frame [i], in the order of the calls:
    none for a hole of the array or past its end. *)
Definition scripts_at (actions : list (option (list callback))) (i : Z)
  : list callback :=
  match js_index actions i with
  | Some (Some frameActions) => frameActions
  | _ => []
  end.

(** The clip is at least as long as it was. *)
Definition not_shorter (n n' : MovieClip) : Prop :=
  _totalFrames n <= _totalFrames n'.

(** The presence timeline of [instance] on a clip, as the loop of
    [addTimedChild] finds it: the frames of the last element of
    [_timedChildTimelines] with that target, none when there is no such
    element. *)
Definition presence (n : MovieClip) (instance : ref) : list (option bool) :=
  match find_last (fun tl => bool_decide (ct_target tl = instance))
          (_timedChildTimelines n) with
  | Some i => default [] (ct_frames <$> _timedChildTimelines n !! i)
  | None => []
  end.

(** The frames [addTimedChild] leaves of a presence timeline [timeline]
    when it registers the frames [startFrame, startFrame + duration). *)
Definition marked (es6_fill : bool) (startFrame duration : Z)
    (timeline : list (option bool)) (f : Z) : option (option bool) :=
  let oldLength := Z.of_nat (length timeline) in
  let last := if es6_fill then startFrame + duration
              else Z.max oldLength (startFrame + duration) in
  if (startFrame <=? f) && (f <? last) then Some (Some true)
  else if f <? oldLength then js_index timeline f
  else if f <? startFrame then Some (Some false)
  else None.

(** The function [update] of [register_presence], by name. *)
Definition presence_update (es6_fill : bool) (startFrame duration : Z)
    (timeline : list (option bool)) : list (option bool) :=
  let oldLength := Z.of_nat (length timeline) in
  let timeline :=
    if oldLength <? startFrame + duration then
      let timeline := array_grow (startFrame + duration) timeline in
      if oldLength <? startFrame then
        if es6_fill then array_fill (Some false) oldLength startFrame timeline
        else set_range (Some false) oldLength startFrame timeline
      else timeline
    else timeline in
  if es6_fill
  then array_fill (Some true) startFrame (startFrame + duration) timeline
  else set_range (Some true) startFrame (Z.of_nat (length timeline)) timeline.

(** The first presence timeline of a clip. *)
Definition first_presence (n : MovieClip) : ChildTimeline :=
  default (mkChildTimeline 0%nat []) (_timedChildTimelines n !! 0%nat).

(** A parent (0) of eight frames that has registered an INDEPENDENT clip (1)
    of five frames on its frames 2 to 4; the clip, not on the parent at
    frame 0, was then sent to its frame 3. *)
Definition returning_scene : gmap nat MovieClip :=
  store_of
    ((addTimedChild 2 true 0%nat 1%nat (Some 2) (Some 3) KfNone ;;
      gotoAndStop 2 1%nat (inr 3))
       {[ 0%nat := new_MovieClip (mkOptions INDEPENDENT 0 true [] 8 1%Q);
          1%nat := short_clip ]}).

(** ** The compact keyframe format, written out *)

(** A character of a token (a frame number or a value): neither a code of
    [keysMap] nor a space. *)
Definition token_char (c : ascii) : bool :=
  match keysMap c with
  | Some _ => false
  | None => negb (Ascii.eqb c " ")
  end.

Definition token (s : string) : Prop :=
  Forall (fun c => token_char c = true) (list_ascii_of_string s).

(** The properties of a keyframe in the compact format: for each one its
    code letter, then its value. *)
Definition write_properties (ps : list (ascii * string)) : list ascii :=
  flat_map (fun cv => fst cv :: list_ascii_of_string (snd cv)) ps.

(** A keyframe in the compact format: the frame number, the properties, a
    space. *)
Definition write_keyframe (kf : string * list (ascii * string)) : list ascii :=
  list_ascii_of_string (fst kf) ++ write_properties (snd kf) ++ [" "%char].

Definition write_keyframes (kfs : list (string * list (ascii * string)))
  : string :=
  string_of_list_ascii (flat_map write_keyframe kfs).

(** A keyframe the format can hold: its frame number and its values are
    tokens, its code letters are codes of [keysMap], and it has a property. *)
Definition well_written (kf : string * list (ascii * string)) : Prop :=
  token (fst kf) /\ snd kf <> [] /\
  Forall (fun cv => is_Some (keysMap (fst cv)) /\ token (snd cv)) (snd kf).

(** [parseValue] for the property a code letter names. *)
Definition read_property (frame : props) (cv : ascii * string) : props :=
  parseValue frame (PropName (default "" (keysMap (fst cv)))) (snd cv).

Definition read_properties (ps : list (ascii * string)) : props :=
  fold_left read_property ps ∅.

(** The properties of a record read so far whose value [parseValue] has
    stored (all but the last), and the one that waits in [prop] and
    [buffer]. *)
Fixpoint stored (cv : ascii * string) (ps : list (ascii * string))
  : list (ascii * string) :=
  match ps with
  | [] => []
  | cv' :: ps' => cv :: stored cv' ps'
  end.

Fixpoint waiting (cv : ascii * string) (ps : list (ascii * string))
  : ascii * string :=
  match ps with
  | [] => cv
  | cv' :: ps' => waiting cv' ps'
  end.

(** The properties of [result] after the keyframes [kfs], the first of them
    in the object [i]. *)
Fixpoint results_from (i : nat) (kfs : list (string * list (ascii * string)))
    (result : list (string * nat)) : list (string * nat) :=
  match kfs with
  | [] => result
  | kf :: rest => results_from (S i) rest (obj_set (fst kf) i result)
  end.

(** ** Statements about tweens *)



(** Two states of a clip with the same mode and the same start frame on the
    parent. *)
Definition same_start (n n' : MovieClip) : Prop :=
  mode n = mode n' /\ parentStartPosition n = parentStartPosition n'.

(** * Properties *)

(** ** Running computations *)

Lemma bind_run {A B : Type} (m : M A) (f : A -> M B) (s : gmap nat MovieClip) :
  (m ≫= f) s =
  match m s with
  | (Done a, s1, t1) =>
      match f a s1 with (o, s2, t2) => (o, s2, t1 ++ t2) end
  | (Throw e, s1, t1) => (Throw e, s1, t1)
  | (OutOfFuel, s1, t1) => (OutOfFuel, s1, t1)
  end.
Proof. reflexivity. Qed.

Lemma get_node_run (r : nat) (n : MovieClip) (s : gmap nat MovieClip) :
  s !! r = Some n -> get_node r s = (Done n, s, []).
Proof. intros H. unfold get_node. by rewrite H. Qed.

Lemma modify_node_run (r : nat) (f : MovieClip -> MovieClip) (n : MovieClip)
    (s : gmap nat MovieClip) :
  s !! r = Some n -> modify_node r f s = (Done tt, <[r := f n]> s, []).
Proof. intros H. unfold modify_node. by rewrite H. Qed.

Lemma get_node_inv (r : nat) (s s1 : gmap nat MovieClip) (n : MovieClip)
    (t1 : list event) :
  get_node r s = (Done n, s1, t1) -> s1 = s /\ s !! r = Some n /\ t1 = [].
Proof.
  unfold get_node. destruct (s !! r); intros H; by simplify_eq.
Qed.

Lemma modify_node_inv (r : nat) (f : MovieClip -> MovieClip)
    (s s1 : gmap nat MovieClip) (t1 : list event) :
  modify_node r f s = (Done tt, s1, t1) ->
  exists n, s !! r = Some n /\ s1 = <[r := f n]> s /\ t1 = [].
Proof.
  unfold modify_node. destruct (s !! r) as [n|]; intros H; simplify_eq.
  by exists n.
Qed.

(** ** Frame scripts *)

Lemma frame_events_out_of_range (this : nat)
    (actions : list (option (list nat))) (i : Z) :
  Z.of_nat (length actions) <= i -> frame_events this actions i = [].
Proof.
  intros Hi. unfold frame_events, js_index.
  destruct (i <? 0) eqn:Hneg; [done|].
  rewrite lookup_ge_None_2; [done|lia].
Qed.

Lemma flat_map_nil {A B : Type} (f : A -> list B) (l : list A) :
  (forall x, x ∈ l -> f x = []) -> flat_map f l = [].
Proof.
  induction l as [|x l IH]; intros H; [done|].
  simpl. rewrite (H x) by left. apply IH. intros y Hy. apply H. by right.
Qed.

(** Without wraparound the loop is a plain [for] from [i] to [length]. *)
Lemma fire_loop_forward (fuel : nat) (this : nat)
    (actions : list (option (list nat))) (currentFrame i len : Z) :
  (Z.to_nat (len - i) <= fuel)%nat ->
  fire_loop fuel this actions currentFrame i len false =
  Some (flat_map (frame_events this actions) (seqZ i (len - i))).
Proof.
  revert i. induction fuel as [|fuel IH]; intros i Hfuel.
  - simpl. destruct (i <? len) eqn:Hlt; [lia|].
    rewrite seqZ_nil by lia. done.
  - simpl. destruct (i <? len) eqn:Hlt.
    + rewrite IH by lia. simpl.
      rewrite (seqZ_cons i (len - i)) by lia. simpl.
      by replace (Z.pred (len - i)) with (len - (i + 1)) by lia.
    + rewrite seqZ_nil by lia. done.
Qed.

Lemma forward_frames_clip (this : nat) (actions : list (option (list nat)))
    (startFrame currentFrame : Z) :
  flat_map (frame_events this actions)
    (seqZ startFrame
       (Z.min (currentFrame + 1) (Z.of_nat (length actions)) - startFrame)) =
  flat_map (frame_events this actions)
    (seqZ startFrame (currentFrame + 1 - startFrame)).
Proof.
  set (len := Z.of_nat (length actions)).
  destruct (Z.le_gt_cases (currentFrame + 1) len) as [Hle|Hgt].
  { by rewrite Z.min_l. }
  rewrite Z.min_r by lia.
  destruct (Z.le_gt_cases startFrame len) as [Hs|Hs].
  - replace (currentFrame + 1 - startFrame)
      with ((len - startFrame) + (currentFrame + 1 - len)) by lia.
    rewrite seqZ_app by lia. rewrite flat_map_app.
    rewrite (flat_map_nil _ (seqZ (startFrame + (len - startFrame)) _)).
    + by rewrite app_nil_r.
    + intros x Hx. apply elem_of_seqZ in Hx.
      apply frame_events_out_of_range. fold len. lia.
  - rewrite seqZ_nil by lia. symmetry. apply flat_map_nil.
    intros x Hx. apply elem_of_seqZ in Hx.
    apply frame_events_out_of_range. fold len. lia.
Qed.

(** A pass without wraparound, as the loop runs it. *)
Lemma fire_forward (this : nat)
    (actions : list (option (list nat))) (startFrame newFrame : Z) :
  startFrame <= newFrame ->
  fireActions this actions (Int startFrame) (Int newFrame) =
  Some (fired_between this actions startFrame newFrame).
Proof.
  intros Hle. unfold fireActions, fired_between.
  destruct (newFrame <? startFrame) eqn:Hwrap; [lia|].
  unfold fire_fuel. rewrite fire_loop_forward by lia.
  by rewrite forward_frames_clip.
Qed.

(** The number of turns [fire_fuel] allows is enough for the loop from any
    state, wraparound included. *)
Lemma fire_loop_enough (fuel : nat) (this : nat)
    (actions : list (option (list nat))) (currentFrame i len : Z)
    (needsLoop : bool) :
  (fire_fuel currentFrame i len needsLoop <= fuel)%nat ->
  is_Some (fire_loop fuel this actions currentFrame i len needsLoop).
Proof.
  revert i len needsLoop.
  induction fuel as [|fuel IH]; intros i len needsLoop Hfuel; simpl.
  - destruct (i <? len) eqn:Hlt; [|by eexists].
    unfold fire_fuel in Hfuel. lia.
  - destruct (i <? len) eqn:Hlt; [|by eexists].
    destruct (needsLoop && (i =? len - 1)) eqn:Hwrap.
    + apply andb_true_iff in Hwrap as [-> Hi].
      destruct (IH (0 + 1) (currentFrame + 1) false) as [rest Hrest].
      { unfold fire_fuel in *. lia. }
      rewrite Hrest. by eexists.
    + destruct (IH (i + 1) len needsLoop) as [rest Hrest].
      { unfold fire_fuel in *. destruct needsLoop; lia. }
      rewrite Hrest. by eexists.
Qed.

(** What the block under [if (doActions)] fires, for any pair of frames: the
    scripts of the frames from [startFrame] to [currentFrame], which are none
    when [currentFrame < startFrame]. *)
Lemma fireActions_run (this : nat) (actions : list (option (list nat)))
    (startFrame currentFrame : num) :
  fireActions this actions startFrame currentFrame =
  Some match startFrame, currentFrame with
       | Int first, Int last => fired_between this actions first last
       | _, _ => []
       end.
Proof.
  destruct startFrame as [|first], currentFrame as [|last]; try done.
  destruct (Z.le_gt_cases first last) as [Hle|Hgt].
  { by apply fire_forward. }
  unfold fireActions, fired_between.
  destruct (last <? first) eqn:Hwrap; [|lia].
  rewrite seqZ_nil by lia. simpl.
  destruct (fire_fuel _ _ _ _); simpl;
    by destruct (first <? Z.min (last + 1) (Z.of_nat (length actions))) eqn:E;
      [lia|].
Qed.

(** A pass with wraparound fires nothing: [length] is at most
    [currentFrame + 1] when the loop starts at [startFrame]. *)
Lemma wraparound_never_fires (this : nat) (actions : list (option (list nat)))
    (startFrame currentFrame : Z) :
  currentFrame < startFrame ->
  fireActions this actions (Int startFrame) (Int currentFrame) = Some [].
Proof.
  intros Hwrap. rewrite fireActions_run. unfold fired_between.
  by rewrite seqZ_nil by lia.
Qed.




(** C1 (the code at the scenario): the clip has five frames and scripts on
    the frames 0, 3 and 4.  Seeking to frame 3 leaves 3 as the previous
    frame; advancing by three seconds wraps the clock to frame 1, and the
    pass from 3 to 1 calls no frame script at all: the bound computed for
    the wraparound is overwritten by the initialiser of the loop, so the
    loop body never runs. *)
Theorem wraparound_pass_fires_nothing :
  fireActions 0%nat (_actions seam_clip) (Int 3) (Int 1) = Some [] /\
  exists s1 s2 : gmap nat MovieClip,
    gotoAndPlay 1 0%nat (inr 3) seam_scene = (Done tt, s1, []) /\
    _prevPos <$> s1 !! 0%nat = Some (Int 3) /\
    advance 1 0%nat 3%Q s1 = (Done tt, s2, []) /\
    currentFrame <$> s2 !! 0%nat = Some (Int 1) /\
    _prevPos <$> s2 !! 0%nat = Some (Int 1).
Proof.
  split; [reflexivity|].
  eexists _, _. split; [vm_compute; reflexivity|].
  split; [reflexivity|].
  split; [vm_compute; reflexivity|].
  split; reflexivity.
Qed.

(** ** Registration of frame scripts *)

(** C6 (the code at the failing input): [addAction] raises [_totalFrames]
    to [startFrame], not to [startFrame + 1]; on a new clip a script on
    frame 4 leaves four frames, the frames 0 to 3. *)
Theorem addAction_totalFrames :
  (forall (callback : nat) (startFrame : Z) (this : MovieClip),
     _totalFrames (addAction callback startFrame this) =
     Z.max (_totalFrames this) startFrame) /\
  _totalFrames (addAction 0%nat 4 (new_MovieClip default_options)) = 4 /\
  length (_actions (addAction 0%nat 4 (new_MovieClip default_options))) = 5%nat.
Proof.
  split; [|split; reflexivity].
  intros callback startFrame this. unfold addAction.
  destruct (_totalFrames this <? startFrame) eqn:Hlt; simpl; lia.
Qed.

(** ** The pass on a clip without children *)

Lemma set_currentFrame_same (n : MovieClip) :
  set_currentFrame (currentFrame n) n = n.
Proof. by destruct n. Qed.

Lemma num_eq_true (a b : num) : num_eq a b = true -> a = b.
Proof.
  destruct a as [|x], b as [|y]; simpl; try done.
  intros H. f_equal. lia.
Qed.

Lemma setTimelinePosition_leaf (updateTimeline : nat -> M unit) (this : nat)
    (n : MovieClip) (s : gmap nat MovieClip) (startFrame currentFrame : num)
    (doActions : bool) :
  s !! this = Some n -> leaf n ->
  _setTimelinePosition updateTimeline this startFrame currentFrame doActions s =
  (Done tt, s,
   tween_events (_timelines n) currentFrame
   ++ if doActions
      then match startFrame, currentFrame with
           | Int first, Int last => fired_between this (_actions n) first last
           | _, _ => []
           end
      else []).
Proof.
  intros Hn [Hchildren Htimed]. unfold _setTimelinePosition.
  rewrite bind_run, (get_node_run this n s Hn).
  rewrite bind_run. unfold emit_all at 1.
  rewrite bind_run, (get_node_run this n s Hn).
  rewrite Htimed. simpl for_each.
  rewrite bind_run. unfold mret at 1, M_ret at 1.
  rewrite bind_run, (get_node_run this n s Hn).
  rewrite Hchildren. simpl sync_children.
  rewrite bind_run. unfold mret at 1, M_ret at 1.
  destruct doActions.
  - rewrite bind_run, (get_node_run this n s Hn).
    rewrite fireActions_run. unfold emit_all. simpl.
    by rewrite ?app_nil_r.
  - unfold mret, M_ret. simpl. by rewrite ?app_nil_r.
Qed.

(** [_updateTimeline] on a clip without children: nothing when the frame is
    the previous one, else the tweens are positioned, the scripts fired (for
    an INDEPENDENT clip with actions enabled) and the frame recorded. *)
Lemma updateTimeline_leaf (fuel : nat) (this : nat) (n : MovieClip)
    (s : gmap nat MovieClip) :
  s !! this = Some n -> leaf n ->
  _updateTimeline (S fuel) this s =
  let n1 := set_currentFrame (resolved_frame n) n in
  if num_eq (_prevPos n1) (currentFrame n1) then (Done tt, <[this := n1]> s, [])
  else
    (Done tt, <[this := set__prevPos (currentFrame n1) n1]> s,
     tween_events (_timelines n) (currentFrame n1)
     ++ if (mode n =? INDEPENDENT) && actionsEnabled n
        then match (if num_lt (_prevPos n) (Int 0) then Int 0 else _prevPos n),
                   currentFrame n1 with
             | Int first, Int last => fired_between this (_actions n) first last
             | _, _ => []
             end
        else []).
Proof.
  intros Hn Hleaf. cbn [_updateTimeline].
  rewrite bind_run, (get_node_run this n s Hn).
  assert (Hstep :
    (if negb (mode n =? INDEPENDENT)
     then modify_node this (fun n => set_currentFrame (synched_frame n) n)
     else mret tt) s
    = (Done tt, <[this := set_currentFrame (resolved_frame n) n]> s, [])).
  { unfold resolved_frame. destruct (mode n =? INDEPENDENT); simpl.
    - unfold mret, M_ret. by rewrite set_currentFrame_same, insert_id.
    - by rewrite (modify_node_run this _ n s Hn). }
  rewrite bind_run, Hstep. clear Hstep.
  set (n1 := set_currentFrame (resolved_frame n) n).
  assert (Hn1 : <[this := n1]> s !! this = Some n1) by apply lookup_insert_eq.
  rewrite bind_run, (get_node_run this n1 _ Hn1).
  cbn zeta.
  destruct (num_eq (_prevPos n1) (currentFrame n1)) eqn:Hsame; [done|].
  rewrite bind_run.
  rewrite (setTimelinePosition_leaf _ this n1 _ _ _ _ Hn1) by apply Hleaf.
  rewrite (modify_node_run this _ n1 _ Hn1). rewrite insert_insert_eq.
  simpl. rewrite app_nil_r. do 2 f_equal.
  destruct (mode n =? INDEPENDENT); simpl; [|done].
  by destruct (actionsEnabled n).
Qed.

(** ** Resolving and seeking *)

(** C3: when the frame a clip resolves to equals the frame of its previous
    resolution, [_updateTimeline] returns at once: it calls no
    [setPosition], attaches and detaches no child and fires no frame script
    (the trace is empty), and the clip keeps its fields, [currentFrame]
    being the resolved frame. *)
Theorem resolving_same_frame_is_silent (fuel : nat) (this : nat)
    (n : MovieClip) (s : gmap nat MovieClip) :
  s !! this = Some n ->
  num_eq (_prevPos n) (resolved_frame n) = true ->
  _updateTimeline (S fuel) this s =
    (Done tt, <[this := set_currentFrame (resolved_frame n) n]> s, []) /\
  (currentFrame n = resolved_frame n ->
   <[this := set_currentFrame (resolved_frame n) n]> s = s).
Proof.
  intros Hn Hsame. split.
  - cbn [_updateTimeline].
    rewrite bind_run, (get_node_run this n s Hn).
    assert (Hstep :
      (if negb (mode n =? INDEPENDENT)
       then modify_node this (fun n => set_currentFrame (synched_frame n) n)
       else mret tt) s
      = (Done tt, <[this := set_currentFrame (resolved_frame n) n]> s, [])).
    { unfold resolved_frame. destruct (mode n =? INDEPENDENT); simpl.
      - unfold mret, M_ret. by rewrite set_currentFrame_same, insert_id.
      - by rewrite (modify_node_run this _ n s Hn). }
    rewrite bind_run, Hstep.
    rewrite bind_run, (get_node_run this _ _ (lookup_insert_eq _ _ _)).
    cbn [_prevPos currentFrame set_currentFrame]. by rewrite Hsame.
  - intros <-. by rewrite set_currentFrame_same, insert_id.
Qed.

Lemma resolving_same_frame_is_silent_witness :
  played_scene !! 0%nat = Some (clip_of played_scene 0%nat) /\
  num_eq (_prevPos (clip_of played_scene 0%nat))
    (resolved_frame (clip_of played_scene 0%nat)) = true /\
  _updateTimeline 2 0%nat played_scene =
    (Done tt,
     <[0%nat := set_currentFrame (resolved_frame (clip_of played_scene 0%nat))
                  (clip_of played_scene 0%nat)]> played_scene, []).
Proof.
  split; [vm_compute; reflexivity|]. split; [vm_compute; reflexivity|].
  apply (resolving_same_frame_is_silent 1 0%nat (clip_of played_scene 0%nat)
           played_scene); vm_compute; reflexivity.
Defined.



(** C5 (the code at the failing input): seeking to a frame number does not
    clamp it.  On the clip of five frames [gotoAndStop(7)] leaves
    [currentFrame] at 7, outside of [0, 5); [advance], on a clip of five
    frames that does not loop, clamps the frame it computes to 4. *)
Theorem seek_past_end_is_not_clamped :
  (exists s : gmap nat MovieClip,
     gotoAndStop 1 0%nat (inr 7) seam_scene = (Done tt, s, []) /\
     currentFrame <$> s !! 0%nat = Some (Int 7) /\
     _totalFrames <$> s !! 0%nat = Some 5) /\
  (exists s : gmap nat MovieClip,
     advance 1 0%nat 7%Q short_scene = (Done tt, s, []) /\
     currentFrame <$> s !! 0%nat = Some (Int 4) /\
     _totalFrames <$> s !! 0%nat = Some 5).
Proof.
  split; eexists; (split; [vm_compute; reflexivity|]); split; reflexivity.
Qed.

(** ** Traces of composed computations *)

Lemma bind_trace (P : event -> Prop) {A B : Type} (m : M A) (f : A -> M B)
    (s : gmap nat MovieClip) :
  Forall P (trace_of (m s)) ->
  (forall a s1 t1, m s = (Done a, s1, t1) -> Forall P (trace_of (f a s1))) ->
  Forall P (trace_of ((m ≫= f) s)).
Proof.
  intros Hm Hf. rewrite bind_run.
  destruct (m s) as [[[a|e|] s1] t1] eqn:Hrun; simpl in *; try done.
  specialize (Hf a s1 t1 eq_refl).
  destruct (f a s1) as [[o s2] t2]. simpl in *.
  by apply Forall_app.
Qed.

Lemma get_node_trace (r : nat) (s : gmap nat MovieClip) :
  trace_of (get_node r s) = [].
Proof. unfold get_node. by destruct (s !! r). Qed.

Lemma modify_node_trace (r : nat) (f : MovieClip -> MovieClip)
    (s : gmap nat MovieClip) :
  trace_of (modify_node r f s) = [].
Proof. unfold modify_node. by destruct (s !! r). Qed.

(** The display-tree primitives call nothing back. *)
Lemma removeChild_trace (this child : nat) (s : gmap nat MovieClip) :
  Forall (fun _ => False) (trace_of (removeChild this child s)).
Proof.
  unfold removeChild. apply bind_trace.
  { by rewrite get_node_trace. }
  intros n s1 t1 _. case_bool_decide; [|done].
  apply bind_trace; intros; by rewrite modify_node_trace.
Qed.

Lemma addChild_trace (this child : nat) (s : gmap nat MovieClip) :
  Forall (fun _ => False) (trace_of (addChild this child s)).
Proof.
  unfold addChild. apply bind_trace.
  { by rewrite get_node_trace. }
  intros c s1 t1 _. apply bind_trace.
  { destruct (parent c); [apply removeChild_trace|done]. }
  intros _ s2 t2 _. apply bind_trace; intros; by rewrite modify_node_trace.
Qed.

Lemma Forall_False_any {A : Type} (P : A -> Prop) (l : list A) :
  Forall (fun _ => False) l -> Forall P l.
Proof. intros H. eapply Forall_impl; [exact H|done]. Qed.

Lemma for_each_trace (P : event -> Prop) {A : Type} (body : A -> M unit)
    (l : list A) :
  (forall x s, Forall P (trace_of (body x s))) ->
  forall s, Forall P (trace_of (for_each body l s)).
Proof.
  intros Hbody. induction l as [|x l IH]; intros s; simpl; [done|].
  apply bind_trace; [apply Hbody|]. intros. apply IH.
Qed.

(** ** Modes are never written *)

Lemma modify_node_keeps_mode (r : nat) (f : MovieClip -> MovieClip)
    (s s1 : gmap nat MovieClip) (t1 : list event) (this : nat) (n : MovieClip) :
  (forall m, mode (f m) = mode m) ->
  modify_node r f s = (Done tt, s1, t1) ->
  s !! this = Some n ->
  exists n', s1 !! this = Some n' /\ mode n' = mode n.
Proof.
  intros Hf Hrun Hn. apply modify_node_inv in Hrun as (m & Hm & -> & ->).
  destruct (decide (r = this)) as [->|Hne].
  - exists (f m). rewrite lookup_insert_eq. simplify_eq. by rewrite Hf.
  - exists n. by rewrite lookup_insert_ne.
Qed.

Lemma keeps_mode_ret {A : Type} (a : A) : keeps_mode (mret a : M A).
Proof. intros s s1 a' t1 r n H Hn. unfold mret, M_ret in H. simplify_eq. eauto. Qed.

Lemma keeps_mode_get (r0 : nat) : keeps_mode (get_node r0).
Proof.
  intros s s1 a t1 r n H Hn. apply get_node_inv in H as (-> & _ & _). eauto.
Qed.

Lemma keeps_mode_modify (r0 : nat) (f : MovieClip -> MovieClip) :
  (forall m, mode (f m) = mode m) -> keeps_mode (modify_node r0 f).
Proof.
  intros Hf s s1 [] t1 r n H Hn. by eapply modify_node_keeps_mode.
Qed.

Lemma keeps_mode_bind {A B : Type} (m : M A) (f : A -> M B) :
  keeps_mode m -> (forall a, keeps_mode (f a)) -> keeps_mode (m ≫= f).
Proof.
  intros Hm Hf s s2 b t r n H Hn. rewrite bind_run in H.
  destruct (m s) as [[[a|e|] s1] t1] eqn:Hrun; try done.
  destruct (f a s1) as [[o s2'] t2] eqn:Hrun2. simplify_eq.
  destruct (Hm s s1 a t1 r n Hrun Hn) as (n1 & Hn1 & E1).
  destruct (Hf a s1 s2 b t2 r n1 Hrun2 Hn1) as (n2 & Hn2 & E2).
  exists n2. split; [done|congruence].
Qed.

Lemma keeps_mode_inherited_framerate (fuel : nat) :
  forall (o : nat) (fps : Q), keeps_mode (inherited_framerate fuel o fps).
Proof.
  induction fuel as [|fuel IH]; intros o fps; simpl.
  - intros s s1 a t1 r n H. done.
  - apply keeps_mode_bind; [apply keeps_mode_get|]. intros n.
    destruct (parent n); [|apply keeps_mode_ret].
    destruct (Qeq_bool fps 0); [|apply keeps_mode_ret].
    apply keeps_mode_bind; [apply keeps_mode_get|]. intros n'. apply IH.
Qed.

Lemma inherited_framerate_trace (fuel : nat) :
  forall (o : nat) (fps : Q) (s : gmap nat MovieClip),
    trace_of (inherited_framerate fuel o fps s) = [].
Proof.
  induction fuel as [|fuel IH]; intros o fps s; simpl; [done|].
  rewrite bind_run. unfold get_node at 1.
  destruct (s !! o) as [n|]; [|done].
  destruct (parent n) as [p|]; [|done].
  destruct (Qeq_bool fps 0); [|done].
  rewrite bind_run. unfold get_node at 1.
  destruct (s !! p) as [n'|]; [|done].
  specialize (IH p (if mode n' =? INDEPENDENT then _framerate n' else fps) s).
  destruct (inherited_framerate fuel p _ s) as [[o' s'] t']. simpl in *.
  by subst.
Qed.

Lemma framerate_set_mode (value : Q) (m : MovieClip) :
  mode (framerate_set value m) = mode m.
Proof. unfold framerate_set. by destruct (Qpositive value). Qed.

(** ** Clips that are not INDEPENDENT *)

Lemma tween_events_no_actions (timelines : list Timeline) (frame : num) :
  no_actions (tween_events timelines frame).
Proof.
  unfold tween_events, no_actions.
  induction (reverse timelines) as [|tl l IH]; simpl; [done|].
  apply Forall_app. split; [|done].
  by destruct (find_tween (tweens tl) frame); repeat constructor.
Qed.

Lemma update_timed_child_no_actions (this : nat) (frame : num)
    (timeline : ChildTimeline) (s : gmap nat MovieClip) :
  no_actions (trace_of (update_timed_child this frame timeline s)).
Proof.
  unfold update_timed_child, no_actions. apply bind_trace.
  { by rewrite get_node_trace. }
  intros t s1 t1 _.
  destruct (truthy _ && negb _).
  - apply bind_trace; [by repeat constructor|]. intros _ s2 t2 _.
    apply bind_trace; [apply Forall_False_any, addChild_trace|].
    intros _ s3 t3 _. apply bind_trace; [by rewrite get_node_trace|].
    intros t' s4 t4 _.
    destruct (_ && _); [by rewrite modify_node_trace|done].
  - destruct (negb _ && _); [|done].
    apply bind_trace; [by repeat constructor|]. intros _ s2 t2 _.
    apply Forall_False_any, removeChild_trace.
Qed.

Lemma sync_children_no_actions (updateTimeline : nat -> M unit) (this : nat)
    (frame : num) (remaining : nat) :
  (forall c s nc,
     s !! c = Some nc -> mode nc = SYNCHED ->
     no_actions (trace_of (updateTimeline c s))) ->
  forall i s,
    no_actions (trace_of (sync_children updateTimeline this frame i remaining s)).
Proof.
  intros Hrec. unfold no_actions in *.
  induction remaining as [|k IH]; intros i s; simpl; [done|].
  apply bind_trace; [by rewrite get_node_trace|]. intros n s1 t1 _.
  destruct (children n !! i) as [child|]; [|done].
  apply bind_trace; [by rewrite get_node_trace|]. intros c s2 t2 Hc.
  apply get_node_inv in Hc as (-> & Hc & ->).
  apply bind_trace; [|intros; apply IH].
  destruct (mode c =? SYNCHED) eqn:Hmode; [|done].
  apply bind_trace; [by rewrite modify_node_trace|]. intros [] s3 t3 Hmod.
  apply modify_node_inv in Hmod as (c' & Hc' & -> & ->).
  eapply Hrec; [apply lookup_insert_eq|].
  simplify_eq. simpl. lia.
Qed.

Lemma setTimelinePosition_no_actions (updateTimeline : nat -> M unit)
    (this : nat) (startFrame frame : num) (s : gmap nat MovieClip) :
  (forall c s nc,
     s !! c = Some nc -> mode nc = SYNCHED ->
     no_actions (trace_of (updateTimeline c s))) ->
  no_actions
    (trace_of (_setTimelinePosition updateTimeline this startFrame frame false s)).
Proof.
  intros Hrec. unfold _setTimelinePosition, no_actions.
  apply bind_trace; [by rewrite get_node_trace|]. intros n s1 t1 _.
  apply bind_trace; [apply tween_events_no_actions|]. intros _ s2 t2 _.
  apply bind_trace; [by rewrite get_node_trace|]. intros n2 s3 t3 _.
  apply bind_trace.
  { apply for_each_trace. intros. apply update_timed_child_no_actions. }
  intros _ s4 t4 _.
  apply bind_trace; [by rewrite get_node_trace|]. intros n4 s5 t5 _.
  apply bind_trace; [by apply sync_children_no_actions|]. done.
Qed.

Lemma updateTimeline_no_actions (fuel : nat) :
  forall (this : nat) (s : gmap nat MovieClip) (n : MovieClip),
    s !! this = Some n -> mode n <> INDEPENDENT ->
    no_actions (trace_of (_updateTimeline fuel this s)).
Proof.
  induction fuel as [|fuel IH]; intros this s n Hn Hmode;
    [by constructor|].
  cbn [_updateTimeline]. unfold no_actions.
  apply bind_trace; [by rewrite get_node_trace|]. intros n' s1 t1 Hget.
  apply get_node_inv in Hget as (-> & Hn' & ->). simplify_eq.
  assert (Hsynched : negb (mode n =? INDEPENDENT) = true).
  { apply negb_true_iff, Z.eqb_neq, Hmode. }
  rewrite Hsynched.
  apply bind_trace; [by rewrite modify_node_trace|]. intros _ s2 t2 _.
  apply bind_trace; [by rewrite get_node_trace|]. intros n2 s3 t3 _.
  destruct (num_eq _ _); [done|].
  apply bind_trace; [|intros; by rewrite modify_node_trace].
  apply setTimelinePosition_no_actions.
  intros c s' nc Hc Hnc. apply (IH c s' nc Hc).
  rewrite Hnc. done.
Qed.

Lemma goto_no_actions (fuel : nat) (this : nat) (target : string + Z)
    (n : MovieClip) (s : gmap nat MovieClip) :
  s !! this = Some n -> mode n <> INDEPENDENT ->
  no_actions (trace_of (_goto fuel this target s)).
Proof.
  intros Hn Hmode. unfold _goto, no_actions.
  apply bind_trace; [by rewrite get_node_trace|]. intros n1 s1 t1 Hget.
  apply get_node_inv in Hget as (-> & Hn1 & ->). simplify_eq.
  destruct (match target with inl _ => _ | inr _ => _ end) as [pos|]; [|done].
  apply bind_trace.
  { destruct (num_eq _ _); [by rewrite modify_node_trace|done]. }
  intros [] s2 t2 Hrun2.
  assert (exists n2, s2 !! this = Some n2 /\ mode n2 = mode n) as (n2 & Hn2 & E2).
  { destruct (num_eq _ _).
    - eapply (modify_node_keeps_mode _ _ _ _ _ this n); [|exact Hrun2|exact Hn].
      done.
    - unfold mret, M_ret in Hrun2. simplify_eq. by exists n. }
  apply bind_trace; [by rewrite modify_node_trace|]. intros [] s3 t3 Hrun3.
  eapply modify_node_keeps_mode in Hrun3 as (n3 & Hn3 & E3); [|done|done].
  apply bind_trace; [by rewrite modify_node_trace|]. intros [] s4 t4 Hrun4.
  eapply modify_node_keeps_mode in Hrun4 as (n4 & Hn4 & E4); [| |done].
  - apply (updateTimeline_no_actions fuel this s4 n4 Hn4). congruence.
  - intros m. by destruct (Qpositive _).
Qed.

Lemma advance_no_actions (fuel : nat) (this : nat) (time : Q)
    (n : MovieClip) (s : gmap nat MovieClip) :
  s !! this = Some n -> mode n <> INDEPENDENT ->
  no_actions (trace_of (advance fuel this time s)).
Proof.
  intros Hn Hmode. unfold advance, no_actions.
  apply bind_trace; [by rewrite get_node_trace|]. intros n0 s0 t0 Hget.
  apply get_node_inv in Hget as (-> & _ & _).
  set (step1 := if Qeq_bool (_framerate n0) 0 then _ else _).
  assert (K1 : keeps_mode step1).
  { unfold step1. destruct (Qeq_bool _ _); [|apply keeps_mode_ret].
    apply keeps_mode_bind; [apply keeps_mode_inherited_framerate|].
    intros fps. apply keeps_mode_modify, framerate_set_mode. }
  apply bind_trace.
  { unfold step1. destruct (Qeq_bool _ _); [|done].
    apply bind_trace; [by rewrite inherited_framerate_trace|].
    intros. by rewrite modify_node_trace. }
  intros [] s1 t1 Hrun1.
  destruct (K1 _ _ _ _ this n Hrun1 Hn) as (n1 & Hn1 & E1).
  set (step2 := if negb (Qeq_bool time 0) then _ else _).
  assert (K2 : keeps_mode step2).
  { unfold step2. destruct (negb _); [|apply keeps_mode_ret].
    by apply keeps_mode_modify. }
  apply bind_trace.
  { unfold step2. destruct (negb _); [by rewrite modify_node_trace|done]. }
  intros [] s2 t2 Hrun2.
  destruct (K2 _ _ _ _ this n1 Hrun2 Hn1) as (n2 & Hn2 & E2).
  apply bind_trace; [by rewrite modify_node_trace|]. intros [] s3 t3 Hrun3.
  eapply modify_node_keeps_mode in Hrun3 as (n3 & Hn3 & E3); [| |done].
  2: { intros m. cbn beta. destruct (Qle_bool _ _); reflexivity. }
  apply bind_trace; [by rewrite modify_node_trace|]. intros [] s4 t4 Hrun4.
  eapply modify_node_keeps_mode in Hrun4 as (n4 & Hn4 & E4); [|done|done].
  apply bind_trace; [by rewrite modify_node_trace|]. intros [] s5 t5 Hrun5.
  eapply modify_node_keeps_mode in Hrun5 as (n5 & Hn5 & E5); [| |done].
  2: { intros m. by destruct (num_ge _ _). }
  apply (updateTimeline_no_actions fuel this s5 n5 Hn5). congruence.
Qed.

(** C9 (as stated, refuted): the frame scripts of a clip that is not
    INDEPENDENT can fire.  [addTimedChild] ends with a pass of its own,
    [_setTimelinePosition(startFrame, currentFrame, true)], whatever the
    mode: on the SYNCHED clip 0, which has a script on frame 0, registering
    a child from frame 0 on attaches the child and calls that script. *)
Lemma registration_pass_fires_on_synched_clip :
  mode (clip_of graphic_scene 0%nat) = SYNCHED /\
  outcome_of
    (addTimedChild 2 true 0%nat 1%nat (Some 0) (Some 1) KfNone graphic_scene)
    = Done tt /\
  trace_of
    (addTimedChild 2 true 0%nat 1%nat (Some 0) (Some 1) KfNone graphic_scene)
    = [EvAddChild 0%nat 1%nat; EvAction 0%nat 5%nat] /\
  ~ no_actions
      (trace_of
         (addTimedChild 2 true 0%nat 1%nat (Some 0) (Some 1) KfNone
            graphic_scene)).
Proof.
  split; [vm_compute; reflexivity|]. split; [vm_compute; reflexivity|].
  split; [vm_compute; reflexivity|].
  intros H.
  assert (E : trace_of
                (addTimedChild 2 true 0%nat 1%nat (Some 0) (Some 1) KfNone
                   graphic_scene)
              = [EvAddChild 0%nat 1%nat; EvAction 0%nat 5%nat])
    by (vm_compute; reflexivity).
  rewrite E in H. unfold no_actions in H.
  apply Forall_cons in H as [_ H]. apply Forall_cons in H as [H _].
  discriminate H.
Qed.

(** C9: a clip whose mode is not INDEPENDENT is always resolved with the
    frame scripts off.  Whatever its [actionsEnabled] flag, no run of
    [_updateTimeline] on it calls a frame script, neither the run a parent
    starts for a SYNCHED child nor the one a seek with [gotoAndPlay] or
    [gotoAndStop] starts on the clip itself; the traces of these runs, as
    far as they get, hold no call of a script of any clip. *)
Theorem synched_clip_fires_no_action (fuel : nat) (this : nat)
    (n : MovieClip) (s : gmap nat MovieClip) :
  s !! this = Some n ->
  mode n <> INDEPENDENT ->
  no_actions (trace_of (_updateTimeline fuel this s)) /\
  forall target : string + Z,
    no_actions (trace_of (gotoAndPlay fuel this target s)) /\
    no_actions (trace_of (gotoAndStop fuel this target s)).
Proof.
  intros Hn Hmode. split; [by eapply updateTimeline_no_actions|].
  intros target.
  split; unfold gotoAndPlay, gotoAndStop, no_actions;
    (apply bind_trace; [by rewrite modify_node_trace|]);
    intros [] s1 t1 Hrun;
    (eapply modify_node_keeps_mode in Hrun as (n1 & Hn1 & E1); [|done|done]);
    apply (goto_no_actions fuel this target n1 s1 Hn1); congruence.
Qed.

Lemma synched_clip_fires_no_action_witness :
  played_scene !! 1%nat = Some (clip_of played_scene 1%nat) /\
  mode (clip_of played_scene 1%nat) <> INDEPENDENT /\
  no_actions (trace_of (_updateTimeline 2 1%nat played_scene)).
Proof.
  assert (H0 : played_scene !! 1%nat = Some (clip_of played_scene 1%nat))
    by (vm_compute; reflexivity).
  assert (H1 : mode (clip_of played_scene 1%nat) <> INDEPENDENT)
    by (vm_compute; discriminate).
  split; [exact H0|]. split; [exact H1|].
  exact (proj1 (synched_clip_fires_no_action 2 1%nat
                  (clip_of played_scene 1%nat) played_scene H0 H1)).
Defined.

(** ** Propagation to SYNCHED children *)

(** The turn of the loop for one child without children of its own. *)
Lemma child_turn (fuel : nat) (frame : num) (child : nat) (nc : MovieClip)
    (s : gmap nat MovieClip) :
  s !! child = Some nc -> leaf nc ->
  exists (s1 : gmap nat MovieClip) (t1 : list event) (nc1 : MovieClip),
    (if mode nc =? SYNCHED then
       modify_node child
         (set__synchOffset
            (num_sub frame (to_number (parentStartPosition nc)))) ;;
       _updateTimeline (S fuel) child
     else mret tt) s = (Done tt, s1, t1) /\
    s1 = <[child := nc1]> s /\
    leaf nc1 /\
    synched_with frame nc (Some nc1).
Proof.
  intros Hnc Hleaf. unfold synched_with.
  destruct (mode nc =? SYNCHED) eqn:Hmode.
  - rewrite bind_run, (modify_node_run child _ nc s Hnc).
    set (m := set__synchOffset _ nc).
    assert (Hm : <[child := m]> s !! child = Some m) by apply lookup_insert_eq.
    assert (Hleafm : leaf m) by apply Hleaf.
    rewrite (updateTimeline_leaf fuel child m _ Hm Hleafm). cbn zeta.
    assert (Hres : resolved_frame m = synched_frame m).
    { apply Z.eqb_eq in Hmode. unfold resolved_frame. subst m.
      cbn [mode set__synchOffset]. by rewrite Hmode. }
    rewrite Hres.
    destruct (num_eq _ _) eqn:Hsame.
    + eexists _, _, _. split; [reflexivity|].
      rewrite insert_insert_eq. split; [reflexivity|].
      split; [apply Hleaf|].
      eexists. split; [reflexivity|]. split; [reflexivity|].
      split; [reflexivity|]. by apply num_eq_true.
    + eexists _, _, _. split; [reflexivity|].
      rewrite insert_insert_eq. split; [reflexivity|].
      split; [apply Hleaf|].
      eexists. split; [reflexivity|]. split; [reflexivity|].
      split; reflexivity.
  - exists s, [], nc. split; [done|]. split; [by rewrite insert_id|].
    split; [done|done].
Qed.

Lemma sync_children_leaves (fuel : nat) (this : nat) (n : MovieClip)
    (frame : num) (remaining : nat) :
  NoDup (children n) -> this ∉ children n ->
  forall (i : nat) (s : gmap nat MovieClip),
    s !! this = Some n ->
    (i + remaining = length (children n))%nat ->
    (forall j c, (i <= j)%nat -> children n !! j = Some c ->
                 exists nc, s !! c = Some nc /\ leaf nc) ->
    exists (s' : gmap nat MovieClip) (t : list event),
      sync_children (_updateTimeline (S fuel)) this frame i remaining s =
        (Done tt, s', t) /\
      s' !! this = Some n /\
      (forall j c nc, (i <= j)%nat -> children n !! j = Some c ->
                      s !! c = Some nc -> synched_with frame nc (s' !! c)) /\
      (forall r, (forall j, (i <= j)%nat -> children n !! j <> Some r) ->
                 s' !! r = s !! r).
Proof.
  intros Hnodup Hthis.
  induction remaining as [|k IH]; intros i s Hn Hlen Hleaves.
  - exists s, []. split; [done|]. split; [done|]. split; [|done].
    intros j c nc Hj Hc _. apply lookup_lt_Some in Hc. lia.
  - destruct (lookup_lt_is_Some_2 (children n) i) as [child Hchild]; [lia|].
    destruct (Hleaves i child) as (nc & Hnc & Hleaf); [lia|done|].
    assert (Hne : child <> this).
    { intros ->. apply Hthis. by eapply list_elem_of_lookup_2. }
    assert (Hlater : forall j c, (S i <= j)%nat -> children n !! j = Some c ->
                                 c <> child).
    { intros j c Hj Hc ->.
      assert (i = j) by (eapply NoDup_lookup; eauto). lia. }
    destruct (child_turn fuel frame child nc s Hnc Hleaf)
      as (s1 & t1 & nc1 & Hturn & -> & Hleaf1 & Hpost).
    destruct (IH (S i) (<[child := nc1]> s))
      as (s' & t & Hrest & Hthis' & Hposts & Hothers).
    { by rewrite lookup_insert_ne. }
    { lia. }
    { intros j c Hj Hc. rewrite lookup_insert_ne.
      - apply (Hleaves j); [lia|done].
      - intros E. by apply (Hlater j c). }
    exists s', (t1 ++ t). split.
    { cbn [sync_children].
      rewrite bind_run, (get_node_run this n s Hn). rewrite Hchild.
      rewrite bind_run, (get_node_run child nc s Hnc).
      rewrite bind_run, Hturn. by rewrite Hrest. }
    split; [done|]. split.
    + intros j c nc0 Hj Hc Hnc0.
      destruct (decide (j = i)) as [->|Hji].
      * simplify_eq. rewrite Hothers.
        -- by rewrite lookup_insert_eq.
        -- intros j Hj' Hc'. by apply (Hlater j child).
      * apply (Hposts j c nc0); [lia|done|].
        rewrite lookup_insert_ne; [done|].
        intros E. apply (Hlater j c); [lia|done|done].
    + intros r Hr. rewrite Hothers.
      * apply lookup_insert_ne. intros ->. by apply (Hr i).
      * intros j Hj. apply Hr. lia.
Qed.




(** ** The keyframe decoder *)

(** C7 (as stated, refuted): the lower-case letters of ["0x100y100 10x150"]
    are no codes of [keysMap]; they are gathered in [buffer] with the digits,
    no frame is ever started, and the decoded object is empty. *)
Lemma lower_case_keyframes_decode_to_nothing :
  decodeKeyframes "0x100y100 10x150" = [] /\
  decodeKeyframes "0x100y100 10x150" <> two_keyframes.
Proof.
  split; [reflexivity|]. intros H. vm_compute in H. discriminate H.
Qed.

(** C7 (amended): with the code letters of [keysMap] and every record closed
    by a space, the string ["0X100Y100 10X150 "] decodes to
    [{0: {x: 100, y: 100}, 10: {x: 150}}]. *)
Theorem upper_case_keyframes_decode :
  decodeKeyframes "0X100Y100 10X150 " = two_keyframes.
Proof. vm_compute. reflexivity. Qed.

Lemma register_keyframes_run (this instance : nat)
    (keyframes : list (string * props)) :
  forall (s : gmap nat MovieClip) (n : MovieClip),
    s !! this = Some n ->
    exists (s' : gmap nat MovieClip) (n' : MovieClip),
      for_each
        (fun kv =>
           modify_node this
             (addTween instance (snd kv) (parseInt (fst kv) (Some 10))
                None None))
        keyframes s = (Done tt, s', []) /\
      s' !! this = Some n'.
Proof.
  induction keyframes as [|kv l IH]; intros s n Hn; simpl.
  - by exists s, n.
  - rewrite bind_run, (modify_node_run this _ n s Hn).
    destruct (IH (<[this := addTween instance kv.2
                              (parseInt kv.1 (Some 10)) None None n]> s)
                (addTween instance kv.2 (parseInt kv.1 (Some 10)) None None n))
      as (s' & n' & Hrun & Hn').
    { apply lookup_insert_eq. }
    rewrite Hrun. by exists s', n'.
Qed.

(** C8 (as stated, refuted): a letter outside the alphabet raises nothing.
    ["0X1Q5Y2 "] holds the letter Q, which is no code; [addKeyframes]
    returns normally, and the decoder has read x = 1 from the value "1Q5". *)
Lemma unknown_code_letter_raises_nothing :
  has_unknown_code "0X1Q5Y2 " = true /\
  outcome_of (addKeyframes 0%nat 1%nat (KfString "0X1Q5Y2 ") synched_scene)
    = Done tt /\
  (forall e : string,
     outcome_of (addKeyframes 0%nat 1%nat (KfString "0X1Q5Y2 ") synched_scene)
       <> Throw e) /\
  decodeKeyframes "0X1Q5Y2 " =
    [("0", {[ "x" := VNumber (Num 1); "y" := VNumber (Num 2) ]})].
Proof.
  split; [reflexivity|]. split; [vm_compute; reflexivity|].
  split; [|vm_compute; reflexivity].
  intros e H. vm_compute in H. discriminate H.
Qed.

(** C8 (amended): decoding has no error.  For every string, with or
    without letters outside the alphabet, [addKeyframes] returns normally
    and calls nothing back; a character that is neither a code of [keysMap]
    nor a space is appended to the token being read (the frame number or
    the value), whatever the state of the loop. *)
Theorem unknown_code_letters_are_buffered (this instance : nat)
    (keyframes : string) (s : gmap nat MovieClip) (n : MovieClip) :
  s !! this = Some n ->
  (exists s' : gmap nat MovieClip,
     addKeyframes this instance (KfString keyframes) s = (Done tt, s', [])) /\
  forall (st : decoder) (c : ascii),
    keysMap c = None -> Ascii.eqb c " " = false ->
    decode_step st c = buffer_append st c.
Proof.
  intros Hn. split.
  - unfold addKeyframes. destruct (String.eqb keyframes ""); [by exists s|].
    destruct (register_keyframes_run this instance
                (for_in (decodeKeyframes keyframes)) s n Hn)
      as (s' & n' & Hrun & _).
    by exists s'.
  - intros st c Hkey Hspace. unfold decode_step. by rewrite Hkey, Hspace.
Qed.

Lemma unknown_code_letters_are_buffered_witness :
  synched_scene !! 0%nat = Some (clip_of synched_scene 0%nat) /\
  exists s' : gmap nat MovieClip,
    addKeyframes 0%nat 1%nat (KfString "0X1Q5Y2 ") synched_scene =
      (Done tt, s', []).
Proof.
  assert (H0 : synched_scene !! 0%nat = Some (clip_of synched_scene 0%nat))
    by (vm_compute; reflexivity).
  split; [exact H0|].
  exact (proj1 (unknown_code_letters_are_buffered 0%nat 1%nat "0X1Q5Y2 "
                  synched_scene (clip_of synched_scene 0%nat) H0)).
Defined.

From Stdlib Require Import Lqa.

(** ** What a resolution never writes *)

Section Keeps.
Variable R : MovieClip -> MovieClip -> Prop.
Hypothesis R_refl : forall n, R n n.
Hypothesis R_trans : forall a b c, R a b -> R b c -> R a c.

Lemma keeps_ret {A : Type} (a : A) : keeps R (mret a : M A).
Proof.
  intros s s1 o t1 r n H Hn. unfold mret, M_ret in H. simplify_eq. eauto.
Qed.

Lemma keeps_throw {A : Type} (e : string) : keeps R (throw e : M A).
Proof.
  intros s s1 o t1 r n H Hn. unfold throw in H. simplify_eq. eauto.
Qed.

Lemma keeps_out_of_fuel {A : Type} : keeps R (out_of_fuel : M A).
Proof.
  intros s s1 o t1 r n H Hn. unfold out_of_fuel in H. simplify_eq. eauto.
Qed.

Lemma keeps_emit (e : event) : keeps R (emit e).
Proof.
  intros s s1 o t1 r n H Hn. unfold emit in H. simplify_eq. eauto.
Qed.

Lemma keeps_emit_all (es : list event) : keeps R (emit_all es).
Proof.
  intros s s1 o t1 r n H Hn. unfold emit_all in H. simplify_eq. eauto.
Qed.

Lemma keeps_get (r0 : nat) : keeps R (get_node r0).
Proof.
  intros s s1 o t1 r n H Hn. unfold get_node in H.
  destruct (s !! r0); simplify_eq; eauto.
Qed.

Lemma keeps_modify (r0 : nat) (f : MovieClip -> MovieClip) :
  (forall m, R m (f m)) -> keeps R (modify_node r0 f).
Proof.
  intros Hf s s1 o t1 r n H Hn. unfold modify_node in H.
  destruct (s !! r0) as [m|] eqn:Hm; simplify_eq; [|eauto].
  destruct (decide (r0 = r)) as [->|Hne].
  - exists (f m). rewrite lookup_insert_eq. simplify_eq. eauto.
  - exists n. rewrite lookup_insert_ne by done. eauto.
Qed.

Lemma keeps_bind {A B : Type} (m : M A) (f : A -> M B) :
  keeps R m -> (forall a, keeps R (f a)) -> keeps R (m ≫= f).
Proof.
  intros Hm Hf s s2 o t r n H Hn. rewrite bind_run in H.
  destruct (m s) as [[[a|e|] s1] t1] eqn:Hrun.
  - destruct (f a s1) as [[o' s2'] t2] eqn:Hrun2. simplify_eq.
    destruct (Hm s s1 _ t1 r n Hrun Hn) as (n1 & Hn1 & E1).
    destruct (Hf a s1 s2 _ t2 r n1 Hrun2 Hn1) as (n2 & Hn2 & E2).
    exists n2. eauto.
  - simplify_eq. by eapply Hm.
  - simplify_eq. by eapply Hm.
Qed.

Lemma keeps_for_each {A : Type} (body : A -> M unit) (l : list A) :
  (forall x, keeps R (body x)) -> keeps R (for_each body l).
Proof.
  intros Hbody. induction l as [|x l IH]; simpl.
  - apply keeps_ret.
  - apply keeps_bind; [apply Hbody|]. intros _. apply IH.
Qed.

Hypothesis R_parent : forall v m, R m (set_parent v m).
Hypothesis R_children : forall v m, R m (set_children v m).
Hypothesis R_reset : forall m, R m (_reset m).
Hypothesis R_synchOffset : forall v m, R m (set__synchOffset v m).
Hypothesis R_currentFrame : forall v m, R m (set_currentFrame v m).
Hypothesis R_prevPos : forall v m, R m (set__prevPos v m).

Lemma keeps_removeChild (this child : nat) : keeps R (removeChild this child).
Proof.
  unfold removeChild. apply keeps_bind; [apply keeps_get|]. intros n.
  case_bool_decide; [|apply keeps_ret].
  apply keeps_bind; [by apply keeps_modify|]. intros _.
  apply keeps_modify. intros m. apply R_children.
Qed.

Lemma keeps_addChild (this child : nat) : keeps R (addChild this child).
Proof.
  unfold addChild. apply keeps_bind; [apply keeps_get|]. intros c.
  apply keeps_bind.
  { destruct (parent c); [apply keeps_removeChild|apply keeps_ret]. }
  intros _. apply keeps_bind; [by apply keeps_modify|]. intros _.
  apply keeps_modify. intros m. apply R_children.
Qed.

Lemma keeps_update_timed_child (this : nat) (frame : num)
    (timeline : ChildTimeline) :
  keeps R (update_timed_child this frame timeline).
Proof.
  unfold update_timed_child. apply keeps_bind; [apply keeps_get|].
  intros t. destruct (truthy _ && negb _).
  - apply keeps_bind; [apply keeps_emit|]. intros _.
    apply keeps_bind; [apply keeps_addChild|]. intros _.
    apply keeps_bind; [apply keeps_get|]. intros t'.
    destruct (_ && _); [by apply keeps_modify|apply keeps_ret].
  - destruct (negb _ && _); [|apply keeps_ret].
    apply keeps_bind; [apply keeps_emit|]. intros _.
    apply keeps_removeChild.
Qed.

Lemma keeps_sync_children (updateTimeline : nat -> M unit) (this : nat)
    (frame : num) (remaining : nat) :
  (forall c, keeps R (updateTimeline c)) ->
  forall i, keeps R (sync_children updateTimeline this frame i remaining).
Proof.
  intros Hrec. induction remaining as [|k IH]; intros i; simpl.
  - apply keeps_ret.
  - apply keeps_bind; [apply keeps_get|]. intros n.
    destruct (children n !! i) as [child|]; [|apply keeps_throw].
    apply keeps_bind; [apply keeps_get|]. intros c.
    apply keeps_bind; [|intros _; apply IH].
    destruct (mode c =? SYNCHED); [|apply keeps_ret].
    apply keeps_bind; [by apply keeps_modify|]. intros _. apply Hrec.
Qed.

Lemma keeps_setTimelinePosition (updateTimeline : nat -> M unit)
    (this : nat) (startFrame frame : num) (doActions : bool) :
  (forall c, keeps R (updateTimeline c)) ->
  keeps R (_setTimelinePosition updateTimeline this startFrame frame doActions).
Proof.
  intros Hrec. unfold _setTimelinePosition.
  apply keeps_bind; [apply keeps_get|]. intros n.
  apply keeps_bind; [apply keeps_emit_all|]. intros _.
  apply keeps_bind; [apply keeps_get|]. intros n1.
  apply keeps_bind.
  { apply keeps_for_each. intros tl. apply keeps_update_timed_child. }
  intros _. apply keeps_bind; [apply keeps_get|]. intros n2.
  apply keeps_bind; [by apply keeps_sync_children|]. intros _.
  destruct doActions; [|apply keeps_ret].
  apply keeps_bind; [apply keeps_get|]. intros n3.
  destruct (fireActions _ _ _ _); [apply keeps_emit_all|apply keeps_out_of_fuel].
Qed.

Lemma keeps_updateTimeline (fuel : nat) :
  forall this, keeps R (_updateTimeline fuel this).
Proof.
  induction fuel as [|fuel IH]; intros this.
  - apply keeps_out_of_fuel.
  - cbn [_updateTimeline]. apply keeps_bind; [apply keeps_get|]. intros n.
    apply keeps_bind.
    { destruct (negb _); [|apply keeps_ret].
      apply keeps_modify. intros m. apply R_currentFrame. }
    intros _. apply keeps_bind; [apply keeps_get|]. intros n1.
    destruct (num_eq _ _); [apply keeps_ret|].
    apply keeps_bind; [by apply keeps_setTimelinePosition|]. intros _.
    apply keeps_modify. intros m. apply R_prevPos.
Qed.
End Keeps.

Lemma same_registration_refl (n : MovieClip) : same_registration n n.
Proof. by repeat split. Qed.

Lemma same_registration_trans (a b c : MovieClip) :
  same_registration a b -> same_registration b c -> same_registration a c.
Proof.
  unfold same_registration. intros Hab Hbc.
  repeat match goal with H : _ /\ _ |- _ => destruct H end.
  repeat split; congruence.
Qed.

(** X1: a resolution writes none of the registrations.  Whatever the scene
    and however the run of [_updateTimeline] ends, every clip of the store is
    still there afterwards, with the same mode, start position, flags, frame
    rate, length, labels, tweens, timed children and frame scripts. *)
Theorem resolution_keeps_registrations (fuel : nat) (this : nat)
    (s s' : gmap nat MovieClip) (o : outcome unit) (t : list event)
    (r : nat) (n : MovieClip) :
  _updateTimeline fuel this s = (o, s', t) ->
  s !! r = Some n ->
  exists n', s' !! r = Some n' /\ same_registration n n'.
Proof.
  apply (keeps_updateTimeline same_registration same_registration_refl
           same_registration_trans); intros; by repeat split.
Qed.

Lemma run_eta {A : Type} (r : outcome A * gmap nat MovieClip * list event) :
  r = (outcome_of r, store_of r, trace_of r).
Proof. by destruct r as [[o s] t]. Qed.

Lemma resolution_keeps_registrations_witness :
  moved_scene !! 1%nat = Some (clip_of moved_scene 1%nat) /\
  exists n',
    store_of (_updateTimeline 2 0%nat moved_scene) !! 1%nat = Some n' /\
    same_registration (clip_of moved_scene 1%nat) n'.
Proof.
  assert (H : moved_scene !! 1%nat = Some (clip_of moved_scene 1%nat))
    by (vm_compute; reflexivity).
  split; [exact H|].
  exact (resolution_keeps_registrations 2 0%nat moved_scene _ _ _ 1%nat _
           (run_eta (_updateTimeline 2 0%nat moved_scene)) H).
Defined.

(** ** Two resolutions in a row *)

Lemma bind_inv_done {A B : Type} (m : M A) (f : A -> M B)
    (s s' : gmap nat MovieClip) (b : B) (t : list event) :
  (m ≫= f) s = (Done b, s', t) ->
  exists a s1 t1 t2,
    m s = (Done a, s1, t1) /\ f a s1 = (Done b, s', t2) /\ t = t1 ++ t2.
Proof.
  rewrite bind_run. destruct (m s) as [[[a|e|] s1] t1]; try done.
  destruct (f a s1) as [[o s2] t2] eqn:Hf. intros H. simplify_eq.
  by exists a, s1, t1, t2.
Qed.

Lemma updateTimeline_recorded (fuel : nat) (this : nat)
    (s s' : gmap nat MovieClip) (t : list event) :
  _updateTimeline fuel this s = (Done tt, s', t) ->
  exists n', s' !! this = Some n' /\ _prevPos n' = currentFrame n'.
Proof.
  destruct fuel as [|fuel]; [done|]. cbn [_updateTimeline]. intros H.
  apply bind_inv_done in H as (n & s0 & t0 & t0' & Hget & H & _).
  apply get_node_inv in Hget as (-> & Hn & ->).
  apply bind_inv_done in H as ([] & s1 & t1 & t1' & _ & H & _).
  apply bind_inv_done in H as (n1 & s2 & t2 & t2' & Hget & H & _).
  apply get_node_inv in Hget as (-> & Hn1 & ->).
  destruct (num_eq (_prevPos n1) (currentFrame n1)) eqn:Hsame.
  - unfold mret, M_ret in H. simplify_eq. exists n1.
    split; [done|]. by apply num_eq_true.
  - apply bind_inv_done in H as ([] & s3 & t3 & t3' & _ & H & _).
    apply modify_node_inv in H as (m & Hm & -> & _).
    eexists. split; [apply lookup_insert_eq|]. done.
Qed.

(** X2: a resolution that returns has recorded its frame: the clip is in the
    store and its [_prevPos] is its [currentFrame], in any scene. *)
Theorem resolution_records_frame (fuel : nat) (this : nat)
    (s s' : gmap nat MovieClip) (t : list event) :
  _updateTimeline fuel this s = (Done tt, s', t) ->
  exists n', s' !! this = Some n' /\ _prevPos n' = currentFrame n'.
Proof. apply updateTimeline_recorded. Qed.

Lemma resolution_records_frame_witness :
  _updateTimeline 2 0%nat moved_scene =
    (Done tt, store_of (_updateTimeline 2 0%nat moved_scene), []) /\
  exists n',
    store_of (_updateTimeline 2 0%nat moved_scene) !! 0%nat = Some n' /\
    _prevPos n' = currentFrame n'.
Proof.
  assert (H : _updateTimeline 2 0%nat moved_scene =
                (Done tt, store_of (_updateTimeline 2 0%nat moved_scene), []))
    by (vm_compute; reflexivity).
  split; [exact H|].
  exact (resolution_records_frame 2 0%nat moved_scene _ _ H).
Defined.

Lemma updateTimeline_at_rest (fuel : nat) (this : nat) (n : MovieClip)
    (s : gmap nat MovieClip) (z : Z) :
  s !! this = Some n -> mode n = INDEPENDENT ->
  _prevPos n = Int z -> currentFrame n = Int z ->
  _updateTimeline (S fuel) this s = (Done tt, s, []).
Proof.
  intros Hn Hmode Hprev Hcur. cbn [_updateTimeline].
  rewrite bind_run, (get_node_run this n s Hn). rewrite Hmode.
  cbn [negb INDEPENDENT Z.eqb]. rewrite bind_run. unfold mret at 1, M_ret at 1.
  rewrite bind_run, (get_node_run this n s Hn).
  rewrite Hprev, Hcur. simpl. by rewrite Z.eqb_refl.
Qed.

(** X3: resolving an INDEPENDENT clip twice in a row.  When a resolution
    has returned and left the clip on a frame that is a number, a second
    resolution right after it returns at once, with an empty trace and the
    scene as the first one left it - whatever the children, tweens and
    scripts of the scene. *)
Theorem second_resolution_is_silent (fuel fuel' : nat) (this : nat)
    (s s' : gmap nat MovieClip) (t : list event) (n' : MovieClip) :
  _updateTimeline fuel this s = (Done tt, s', t) ->
  s' !! this = Some n' ->
  mode n' = INDEPENDENT ->
  currentFrame n' <> NaN ->
  _updateTimeline (S fuel') this s' = (Done tt, s', []).
Proof.
  intros Hrun Hn' Hmode Hnum.
  destruct (updateTimeline_recorded fuel this s s' t Hrun)
    as (m & Hm & Hprev).
  simplify_eq. destruct (currentFrame n') as [|z] eqn:Hcur; [done|].
  by apply (updateTimeline_at_rest fuel' this n' s' z).
Qed.

Lemma second_resolution_is_silent_witness :
  _updateTimeline 2 0%nat moved_scene =
    (Done tt, store_of (_updateTimeline 2 0%nat moved_scene), []) /\
  store_of (_updateTimeline 2 0%nat moved_scene) !! 0%nat =
    Some (clip_of (store_of (_updateTimeline 2 0%nat moved_scene)) 0%nat) /\
  mode (clip_of (store_of (_updateTimeline 2 0%nat moved_scene)) 0%nat)
    = INDEPENDENT /\
  currentFrame (clip_of (store_of (_updateTimeline 2 0%nat moved_scene)) 0%nat)
    <> NaN /\
  _updateTimeline 2 0%nat (store_of (_updateTimeline 2 0%nat moved_scene)) =
    (Done tt, store_of (_updateTimeline 2 0%nat moved_scene), []).
Proof.
  assert (H1 : _updateTimeline 2 0%nat moved_scene =
                 (Done tt, store_of (_updateTimeline 2 0%nat moved_scene), []))
    by (vm_compute; reflexivity).
  assert (H2 : store_of (_updateTimeline 2 0%nat moved_scene) !! 0%nat =
                 Some (clip_of (store_of (_updateTimeline 2 0%nat moved_scene))
                         0%nat))
    by (vm_compute; reflexivity).
  assert (H3 : mode (clip_of (store_of (_updateTimeline 2 0%nat moved_scene))
                       0%nat) = INDEPENDENT)
    by (vm_compute; reflexivity).
  assert (H4 : currentFrame
                 (clip_of (store_of (_updateTimeline 2 0%nat moved_scene))
                    0%nat) <> NaN)
    by (vm_compute; discriminate).
  split; [exact H1|]. split; [exact H2|]. split; [exact H3|].
  split; [exact H4|].
  exact (second_resolution_is_silent 2 1 0%nat moved_scene _ _ _ H1 H2 H3 H4).
Defined.

(** ** Seeking on a clip without children *)

Lemma goto_run (fuel : nat) (this : nat) (pos : Z) (n : MovieClip)
    (s : gmap nat MovieClip) :
  s !! this = Some n ->
  _goto fuel this (inr pos) s =
  _updateTimeline fuel this (<[this := sought pos n]> s).
Proof.
  intros Hn. unfold _goto.
  rewrite bind_run, (get_node_run this n s Hn). cbn iota beta zeta.
  assert (Hfix :
    (if num_eq (_prevPos n) (Int (-1))
     then modify_node this (set__prevPos NaN) else mret tt) s =
    (Done tt,
     <[this := if num_eq (_prevPos n) (Int (-1)) then set__prevPos NaN n
               else n]> s, [])).
  { destruct (num_eq _ _).
    - by rewrite (modify_node_run this _ n s Hn).
    - unfold mret, M_ret. by rewrite insert_id. }
  rewrite bind_run, Hfix.
  rewrite bind_run,
    (modify_node_run this _ _ _ (lookup_insert_eq _ _ _)), insert_insert_eq.
  rewrite bind_run,
    (modify_node_run this _ _ _ (lookup_insert_eq _ _ _)), insert_insert_eq.
  unfold sought. cbn zeta.
  destruct (_updateTimeline fuel this _) as [[o s'] t]. done.
Qed.

Lemma gotoAndStop_run (fuel : nat) (this : nat) (pos : Z) (n : MovieClip)
    (s : gmap nat MovieClip) :
  s !! this = Some n ->
  gotoAndStop fuel this (inr pos) s =
  _updateTimeline fuel this (<[this := sought pos (set_paused true n)]> s).
Proof.
  intros Hn. unfold gotoAndStop.
  rewrite bind_run, (modify_node_run this _ n s Hn).
  rewrite (goto_run fuel this pos (set_paused true n))
    by apply lookup_insert_eq.
  rewrite insert_insert_eq.
  destruct (_updateTimeline fuel this _) as [[o s'] t]. done.
Qed.

Lemma gotoAndPlay_run (fuel : nat) (this : nat) (pos : Z) (n : MovieClip)
    (s : gmap nat MovieClip) :
  s !! this = Some n ->
  gotoAndPlay fuel this (inr pos) s =
  _updateTimeline fuel this (<[this := sought pos (set_paused false n)]> s).
Proof.
  intros Hn. unfold gotoAndPlay.
  rewrite bind_run, (modify_node_run this _ n s Hn).
  rewrite (goto_run fuel this pos (set_paused false n))
    by apply lookup_insert_eq.
  rewrite insert_insert_eq.
  destruct (_updateTimeline fuel this _) as [[o s'] t]. done.
Qed.

Lemma sought_leaf (pos : Z) (n : MovieClip) : leaf n -> leaf (sought pos n).
Proof.
  intros Hleaf. unfold sought. cbn zeta.
  destruct (Qpositive _), (num_eq _ _); apply Hleaf.
Qed.

Lemma sought_fields (pos : Z) (n : MovieClip) :
  mode (sought pos n) = mode n /\
  currentFrame (sought pos n) = Int pos /\
  _prevPos (sought pos n) =
    (if num_eq (_prevPos n) (Int (-1)) then NaN else _prevPos n) /\
  _t (sought pos n) =
    (if Qpositive (_framerate n) then (inject_Z pos / _framerate n)%Q
     else 0%Q) /\
  paused (sought pos n) = paused n /\
  actionsEnabled (sought pos n) = actionsEnabled n /\
  _actions (sought pos n) = _actions n /\
  _timelines (sought pos n) = _timelines n /\
  synched_frame (sought pos n) = synched_frame n.
Proof.
  unfold sought. cbn zeta.
  destruct (num_eq (_prevPos n) (Int (-1))); cbn [_framerate set_currentFrame set__prevPos];
    destruct (Qpositive (_framerate n)); by repeat split.
Qed.

(** X4: seeking an INDEPENDENT clip without children to a frame number puts
    it exactly there: [currentFrame] and [_prevPos] are the number asked
    for, whatever [_totalFrames] is, [paused] is set, and the elapsed time
    is [pos / framerate], or 0 without a frame rate. *)
Theorem seek_sets_frame_and_time (fuel : nat) (this : nat) (pos : Z)
    (n : MovieClip) (s : gmap nat MovieClip) :
  s !! this = Some n -> leaf n -> mode n = INDEPENDENT ->
  exists (n' : MovieClip) (t : list event),
    gotoAndStop (S fuel) this (inr pos) s = (Done tt, <[this := n']> s, t) /\
    currentFrame n' = Int pos /\
    _prevPos n' = Int pos /\
    paused n' = true /\
    _t n' = (if Qpositive (_framerate n) then (inject_Z pos / _framerate n)%Q
             else 0%Q).
Proof.
  intros Hn Hleaf Hmode. rewrite (gotoAndStop_run _ _ _ n s Hn).
  set (m := sought pos (set_paused true n)).
  destruct (sought_fields pos (set_paused true n))
    as (Em & Ecur & Eprev & Et & Epaused & _). fold m in Em, Ecur, Eprev, Et, Epaused.
  rewrite (updateTimeline_leaf fuel this m _ (lookup_insert_eq _ _ _))
    by (apply sought_leaf, Hleaf).
  assert (Hres : resolved_frame m = Int pos).
  { unfold resolved_frame. rewrite Em. cbn [mode set_paused]. by rewrite Hmode. }
  cbn zeta. rewrite Hres, !insert_insert_eq.
  cbn [_prevPos currentFrame set_currentFrame].
  destruct (num_eq (_prevPos m) (Int pos)) eqn:Hsame.
  - eexists _, _. split; [reflexivity|]. split; [done|].
    split; [by apply num_eq_true in Hsame|]. split; [done|]. exact Et.
  - eexists _, _. split; [reflexivity|].
    split; [done|]. split; [done|]. split; [done|]. exact Et.
Qed.

Lemma seek_sets_frame_and_time_witness :
  seam_scene !! 0%nat = Some seam_clip /\
  leaf seam_clip /\
  mode seam_clip = INDEPENDENT /\
  exists (n' : MovieClip) (t : list event),
    gotoAndStop 1 0%nat (inr 9) seam_scene =
      (Done tt, <[0%nat := n']> seam_scene, t) /\
    currentFrame n' = Int 9 /\
    _prevPos n' = Int 9 /\
    paused n' = true /\
    _t n' = (if Qpositive (_framerate seam_clip)
             then (inject_Z 9 / _framerate seam_clip)%Q else 0%Q).
Proof.
  assert (H1 : seam_scene !! 0%nat = Some seam_clip)
    by (vm_compute; reflexivity).
  assert (H2 : leaf seam_clip) by (split; vm_compute; reflexivity).
  assert (H3 : mode seam_clip = INDEPENDENT) by (vm_compute; reflexivity).
  split; [exact H1|]. split; [exact H2|]. split; [exact H3|].
  exact (seek_sets_frame_and_time 0 0%nat 9 seam_clip seam_scene H1 H2 H3).
Defined.

(** X5: the first seek fires no frame script.  On an INDEPENDENT clip without
    children that was never resolved, or was reset ([_prevPos] is -1),
    [gotoAndPlay] to any frame positions the tweens and calls no script,
    whatever scripts are registered at or before that frame: [_goto] has
    replaced -1 by NaN, and the loop over the scripts starts at NaN. *)
Theorem first_seek_fires_no_script (fuel : nat) (this : nat) (pos : Z)
    (n : MovieClip) (s : gmap nat MovieClip) :
  s !! this = Some n -> leaf n -> mode n = INDEPENDENT ->
  _prevPos n = Int (-1) ->
  exists n' : MovieClip,
    gotoAndPlay (S fuel) this (inr pos) s =
      (Done tt, <[this := n']> s, tween_events (_timelines n) (Int pos)) /\
    currentFrame n' = Int pos /\ _prevPos n' = Int pos.
Proof.
  intros Hn Hleaf Hmode Hprev. rewrite (gotoAndPlay_run _ _ _ n s Hn).
  set (m := sought pos (set_paused false n)).
  destruct (sought_fields pos (set_paused false n))
    as (Em & Ecur & Eprev & _ & _ & _ & _ & Etl & _).
  fold m in Em, Ecur, Eprev, Etl.
  cbn [_prevPos set_paused] in Eprev. rewrite Hprev in Eprev.
  cbn in Eprev.
  rewrite (updateTimeline_leaf fuel this m _ (lookup_insert_eq _ _ _))
    by (apply sought_leaf, Hleaf).
  assert (Hres : resolved_frame m = Int pos).
  { unfold resolved_frame. rewrite Em. cbn [mode set_paused]. by rewrite Hmode. }
  cbn zeta. rewrite Hres, !insert_insert_eq.
  cbn [_prevPos currentFrame set_currentFrame]. rewrite Eprev. cbn [num_eq num_lt].
  rewrite Etl. cbn [_timelines set_paused].
  assert (Hnone : (if (mode m =? INDEPENDENT) && actionsEnabled m
                   then @nil event else []) = [])
    by (by destruct (_ && _)).
  rewrite Hnone, app_nil_r.
  eexists. split; [reflexivity|done].
Qed.

Lemma first_seek_fires_no_script_witness :
  seam_scene !! 0%nat = Some seam_clip /\
  leaf seam_clip /\
  mode seam_clip = INDEPENDENT /\
  _prevPos seam_clip = Int (-1) /\
  exists n' : MovieClip,
    gotoAndPlay 1 0%nat (inr 4) seam_scene =
      (Done tt, <[0%nat := n']> seam_scene,
       tween_events (_timelines seam_clip) (Int 4)) /\
    currentFrame n' = Int 4 /\ _prevPos n' = Int 4.
Proof.
  assert (H1 : seam_scene !! 0%nat = Some seam_clip)
    by (vm_compute; reflexivity).
  assert (H2 : leaf seam_clip) by (split; vm_compute; reflexivity).
  assert (H3 : mode seam_clip = INDEPENDENT) by (vm_compute; reflexivity).
  assert (H4 : _prevPos seam_clip = Int (-1)) by (vm_compute; reflexivity).
  split; [exact H1|]. split; [exact H2|]. split; [exact H3|].
  split; [exact H4|].
  exact (first_seek_fires_no_script 0 0%nat 4 seam_clip seam_scene H1 H2 H3 H4).
Defined.

(** X6: a later seek fires the scripts in between.  On an INDEPENDENT clip
    without children, with actions enabled, that was resolved at frame
    [prev >= 0] before, [gotoAndPlay] to another frame [pos] positions the
    tweens and then calls the scripts of the frames [prev] to [pos], in
    ascending order; they are none when [pos < prev]: seeking backwards
    fires nothing. *)
Theorem seek_fires_scripts_since_previous_frame (fuel : nat) (this : nat)
    (pos prev : Z) (n : MovieClip) (s : gmap nat MovieClip) :
  s !! this = Some n -> leaf n -> mode n = INDEPENDENT ->
  actionsEnabled n = true ->
  _prevPos n = Int prev -> 0 <= prev -> prev <> pos ->
  (exists n' : MovieClip,
     gotoAndPlay (S fuel) this (inr pos) s =
       (Done tt, <[this := n']> s,
        tween_events (_timelines n) (Int pos)
        ++ fired_between this (_actions n) prev pos)) /\
  (pos < prev -> fired_between this (_actions n) prev pos = []).
Proof.
  intros Hn Hleaf Hmode Hact Hprev Hnonneg Hne. split.
  - rewrite (gotoAndPlay_run _ _ _ n s Hn).
    set (m := sought pos (set_paused false n)).
    destruct (sought_fields pos (set_paused false n))
      as (Em & Ecur & Eprev & _ & _ & Eact & Eactions & Etl & _).
    fold m in Em, Ecur, Eprev, Eact, Eactions, Etl.
    cbn [_prevPos set_paused] in Eprev. rewrite Hprev in Eprev.
    assert (Hmark : num_eq (Int prev) (Int (-1)) = false).
    { cbn. apply Z.eqb_neq. lia. }
    rewrite Hmark in Eprev.
    rewrite (updateTimeline_leaf fuel this m _ (lookup_insert_eq _ _ _))
      by (apply sought_leaf, Hleaf).
    assert (Hres : resolved_frame m = Int pos).
    { unfold resolved_frame. rewrite Em. cbn [mode set_paused].
      by rewrite Hmode. }
    cbn zeta. rewrite Hres, !insert_insert_eq.
    cbn [_prevPos currentFrame set_currentFrame]. rewrite Eprev.
    assert (Hdiff : num_eq (Int prev) (Int pos) = false).
    { cbn. by apply Z.eqb_neq. }
    rewrite Hdiff. eexists. f_equal. f_equal.
    + by rewrite Etl.
    + rewrite Em, Eact, Eactions. cbn [mode actionsEnabled _actions set_paused].
      rewrite Hmode, Hact. cbn [INDEPENDENT Z.eqb andb num_lt].
      by destruct (prev <? 0) eqn:E; [lia|].
  - intros Hback. unfold fired_between. by rewrite seqZ_nil by lia.
Qed.

Lemma seek_fires_scripts_since_previous_frame_witness :
  resting_scene !! 0%nat = Some (clip_of resting_scene 0%nat) /\
  leaf (clip_of resting_scene 0%nat) /\
  mode (clip_of resting_scene 0%nat) = INDEPENDENT /\
  actionsEnabled (clip_of resting_scene 0%nat) = true /\
  _prevPos (clip_of resting_scene 0%nat) = Int 0 /\
  0 <= 0 /\ 0 <> 4 /\
  exists n' : MovieClip,
    gotoAndPlay 1 0%nat (inr 4) resting_scene =
      (Done tt, <[0%nat := n']> resting_scene,
       tween_events (_timelines (clip_of resting_scene 0%nat)) (Int 4)
       ++ fired_between 0%nat (_actions (clip_of resting_scene 0%nat)) 0 4).
Proof.
  assert (H1 : resting_scene !! 0%nat = Some (clip_of resting_scene 0%nat))
    by (vm_compute; reflexivity).
  assert (H2 : leaf (clip_of resting_scene 0%nat))
    by (split; vm_compute; reflexivity).
  assert (H3 : mode (clip_of resting_scene 0%nat) = INDEPENDENT)
    by (vm_compute; reflexivity).
  assert (H4 : actionsEnabled (clip_of resting_scene 0%nat) = true)
    by (vm_compute; reflexivity).
  assert (H5 : _prevPos (clip_of resting_scene 0%nat) = Int 0)
    by (vm_compute; reflexivity).
  assert (H6 : 0 <= 0) by lia.
  assert (H7 : 0 <> 4) by lia.
  split; [exact H1|]. split; [exact H2|]. split; [exact H3|].
  split; [exact H4|]. split; [exact H5|]. split; [exact H6|].
  split; [exact H7|].
  exact (proj1 (seek_fires_scripts_since_previous_frame 0 0%nat 4 0
                  (clip_of resting_scene 0%nat) resting_scene
                  H1 H2 H3 H4 H5 H6 H7)).
Defined.

(** X7: a seek does not move a clip that is not INDEPENDENT.  On such a clip
    without children, [gotoAndStop] to any frame number sets [paused] and
    leaves the clip on the frame its start position and synchronisation
    offset give: the number asked for is overwritten before it is used. *)
Theorem seek_does_not_move_synched_clip (fuel : nat) (this : nat) (pos : Z)
    (n : MovieClip) (s : gmap nat MovieClip) :
  s !! this = Some n -> leaf n -> mode n <> INDEPENDENT ->
  exists (n' : MovieClip) (t : list event),
    gotoAndStop (S fuel) this (inr pos) s = (Done tt, <[this := n']> s, t) /\
    currentFrame n' = synched_frame n /\
    paused n' = true /\
    _synchOffset n' = _synchOffset n.
Proof.
  intros Hn Hleaf Hmode. rewrite (gotoAndStop_run _ _ _ n s Hn).
  set (m := sought pos (set_paused true n)).
  destruct (sought_fields pos (set_paused true n))
    as (Em & _ & _ & _ & Epaused & _ & _ & _ & Esynch).
  fold m in Em, Epaused, Esynch.
  assert (Eoff : _synchOffset m = _synchOffset n).
  { unfold m, sought. cbn zeta.
    by destruct (Qpositive _), (num_eq _ _). }
  rewrite (updateTimeline_leaf fuel this m _ (lookup_insert_eq _ _ _))
    by (apply sought_leaf, Hleaf).
  assert (Hres : resolved_frame m = synched_frame n).
  { unfold resolved_frame. rewrite Em. cbn [mode set_paused].
    apply Z.eqb_neq in Hmode. by rewrite Hmode, Esynch. }
  cbn zeta. rewrite Hres, !insert_insert_eq.
  cbn [_prevPos currentFrame set_currentFrame].
  destruct (num_eq (_prevPos m) (synched_frame n));
    eexists _, _; (split; [reflexivity|]); by repeat split.
Qed.

Lemma seek_does_not_move_synched_clip_witness :
  graphic_scene !! 0%nat = Some (clip_of graphic_scene 0%nat) /\
  leaf (clip_of graphic_scene 0%nat) /\
  mode (clip_of graphic_scene 0%nat) <> INDEPENDENT /\
  exists (n' : MovieClip) (t : list event),
    gotoAndStop 1 0%nat (inr 2) graphic_scene =
      (Done tt, <[0%nat := n']> graphic_scene, t) /\
    currentFrame n' = synched_frame (clip_of graphic_scene 0%nat) /\
    paused n' = true /\
    _synchOffset n' = _synchOffset (clip_of graphic_scene 0%nat).
Proof.
  assert (H1 : graphic_scene !! 0%nat = Some (clip_of graphic_scene 0%nat))
    by (vm_compute; reflexivity).
  assert (H2 : leaf (clip_of graphic_scene 0%nat))
    by (split; vm_compute; reflexivity).
  assert (H3 : mode (clip_of graphic_scene 0%nat) <> INDEPENDENT)
    by (vm_compute; discriminate).
  split; [exact H1|]. split; [exact H2|]. split; [exact H3|].
  exact (seek_does_not_move_synched_clip 0 0%nat 2
           (clip_of graphic_scene 0%nat) graphic_scene H1 H2 H3).
Defined.

(** ** The frame of a clip that is not INDEPENDENT *)

(** X8: the frame of a SYNCHED clip with [_totalFrames > 0].  From the sum
    of its start position and its offset, the clip is put on that sum
    reduced modulo [_totalFrames] when the sum is not negative, and so on a
    frame of [0, _totalFrames); a negative sum (the parent is before the
    frame counted as the child's start) is taken as it is. *)
Theorem synched_frame_wraps (n : MovieClip) (offset : Z) :
  mode n <> SINGLE_FRAME ->
  _synchOffset n = Int offset ->
  0 < _totalFrames n ->
  synched_frame n =
    Int (if startPosition n + offset <? 0 then startPosition n + offset
         else (startPosition n + offset) mod _totalFrames n) /\
  (0 <= startPosition n + offset ->
   exists z, synched_frame n = Int z /\ 0 <= z < _totalFrames n).
Proof.
  intros Hmode Hoff Htotal.
  assert (E : synched_frame n =
    Int (if startPosition n + offset <? 0 then startPosition n + offset
         else (startPosition n + offset) mod _totalFrames n)).
  { unfold synched_frame. apply Z.eqb_neq in Hmode. rewrite Hmode, Hoff.
    cbn [num_add num_ge num_le num_rem].
    destruct (_totalFrames n <=? startPosition n + offset) eqn:Hge.
    - destruct (_totalFrames n =? 0) eqn:H0; [lia|].
      destruct (startPosition n + offset <? 0) eqn:Hneg; [lia|].
      by rewrite Z.rem_mod_nonneg by lia.
    - destruct (startPosition n + offset <? 0) eqn:Hneg; [done|].
      by rewrite Z.mod_small by lia. }
  split; [exact E|].
  intros Hnonneg. eexists. split; [exact E|].
  destruct (startPosition n + offset <? 0) eqn:Hneg; [lia|].
  apply Z.mod_pos_bound. lia.
Qed.

Lemma synched_frame_wraps_witness :
  mode (clip_of played_scene 1%nat) <> SINGLE_FRAME /\
  _synchOffset (clip_of played_scene 1%nat) = Int 2 /\
  0 < _totalFrames (clip_of played_scene 1%nat) /\
  synched_frame (clip_of played_scene 1%nat) =
    Int (if startPosition (clip_of played_scene 1%nat) + 2 <? 0
         then startPosition (clip_of played_scene 1%nat) + 2
         else (startPosition (clip_of played_scene 1%nat) + 2)
              mod _totalFrames (clip_of played_scene 1%nat)).
Proof.
  assert (H1 : mode (clip_of played_scene 1%nat) <> SINGLE_FRAME)
    by (vm_compute; discriminate).
  assert (H2 : _synchOffset (clip_of played_scene 1%nat) = Int 2)
    by (vm_compute; reflexivity).
  assert (H3 : 0 < _totalFrames (clip_of played_scene 1%nat))
    by (vm_compute; reflexivity).
  split; [exact H1|]. split; [exact H2|]. split; [exact H3|].
  exact (proj1 (synched_frame_wraps (clip_of played_scene 1%nat) 2 H1 H2 H3)).
Defined.

(** X9: the frame of a SINGLE_FRAME clip does not depend on the offset a
    parent may have written: with [_totalFrames > 0] and a start position
    that is not negative, the clip is on [startPosition mod _totalFrames]
    whatever [_synchOffset] holds. *)
Theorem single_frame_ignores_offset (n : MovieClip) (offset : num) :
  mode n = SINGLE_FRAME ->
  0 <= startPosition n ->
  0 < _totalFrames n ->
  synched_frame (set__synchOffset offset n) =
    Int (startPosition n mod _totalFrames n).
Proof.
  intros Hmode Hstart Htotal. unfold synched_frame.
  cbn [mode startPosition _totalFrames set__synchOffset]. rewrite Hmode.
  cbn [SINGLE_FRAME Z.eqb Pos.eqb num_add num_ge num_le num_rem].
  rewrite Z.add_0_r.
  destruct (_totalFrames n <=? startPosition n) eqn:Hge.
  - destruct (_totalFrames n =? 0) eqn:H0; [lia|].
    by rewrite Z.rem_mod_nonneg by lia.
  - by rewrite Z.mod_small by lia.
Qed.

Lemma single_frame_ignores_offset_witness :
  mode (clip_of graphic_scene 1%nat) = SINGLE_FRAME /\
  0 <= startPosition (clip_of graphic_scene 1%nat) /\
  0 < _totalFrames (clip_of graphic_scene 1%nat) /\
  synched_frame (set__synchOffset (Int 7) (clip_of graphic_scene 1%nat)) =
    Int (startPosition (clip_of graphic_scene 1%nat)
         mod _totalFrames (clip_of graphic_scene 1%nat)).
Proof.
  assert (H1 : mode (clip_of graphic_scene 1%nat) = SINGLE_FRAME)
    by (vm_compute; reflexivity).
  assert (H2 : 0 <= startPosition (clip_of graphic_scene 1%nat))
    by (vm_compute; discriminate).
  assert (H3 : 0 < _totalFrames (clip_of graphic_scene 1%nat))
    by (vm_compute; reflexivity).
  split; [exact H1|]. split; [exact H2|]. split; [exact H3|].
  exact (single_frame_ignores_offset (clip_of graphic_scene 1%nat) (Int 7)
           H1 H2 H3).
Defined.

(** X10: a SYNCHED child that no [addTimedChild] registered.  Such a child
    (attached with [addChild] alone) has no [parentStartPosition]; the pass
    of its parent, at whatever frame, then writes NaN as its offset, and the
    child ends on the frame NaN, with NaN recorded as its previous frame.
    Stated for attached children that are distinct clips without children
    of their own. *)
Theorem unregistered_synched_child_gets_NaN (fuel : nat) (this : nat)
    (n : MovieClip) (frame : num) (s : gmap nat MovieClip) (c : nat)
    (nc : MovieClip) :
  s !! this = Some n ->
  NoDup (children n) ->
  this ∉ children n ->
  (forall c, c ∈ children n -> exists nc, s !! c = Some nc /\ leaf nc) ->
  c ∈ children n ->
  s !! c = Some nc ->
  mode nc = SYNCHED ->
  parentStartPosition nc = None ->
  exists (s' : gmap nat MovieClip) (t : list event) (nc' : MovieClip),
    sync_children (_updateTimeline (S fuel)) this frame 0
      (length (children n)) s = (Done tt, s', t) /\
    s' !! c = Some nc' /\
    _synchOffset nc' = NaN /\ currentFrame nc' = NaN /\ _prevPos nc' = NaN.
Proof.
  intros Hn Hnodup Hthis Hleaves Hc Hnc Hmode Hnone.
  destruct (sync_children_leaves fuel this n frame (length (children n))
              Hnodup Hthis 0%nat s Hn)
    as (s' & t & Hrun & _ & Hposts & _).
  { done. }
  { intros j c' _ Hc'. apply Hleaves. by eapply list_elem_of_lookup_2. }
  apply list_elem_of_lookup_1 in Hc as [j Hj].
  specialize (Hposts j c nc ltac:(lia) Hj Hnc). unfold synched_with in Hposts.
  rewrite Hmode in Hposts. cbn [SYNCHED Z.eqb Pos.eqb] in Hposts.
  destruct Hposts as (nc' & Hnc' & Hoff & Hcur & Hprev).
  assert (Hkeep : exists m, s' !! c = Some m /\ same_registration nc m).
  { eapply (keeps_sync_children same_registration same_registration_refl
              same_registration_trans); [| |exact Hrun|exact Hnc].
    - intros; by repeat split.
    - intros c'. apply keeps_updateTimeline;
        [apply same_registration_refl|apply same_registration_trans|..];
        intros; by repeat split. }
  destruct Hkeep as (m & Hm & Hsame). simplify_eq.
  destruct Hsame as (Hmode' & _).
  rewrite Hnone in Hoff. assert (Hnan : _synchOffset nc' = NaN).
  { rewrite Hoff. by destruct frame. }
  assert (Hframe : synched_frame nc' = NaN).
  { unfold synched_frame. rewrite Hmode', Hmode, Hnan. done. }
  exists s', t, nc'. split; [done|]. split; [done|]. split; [done|].
  split; [congruence|congruence].
Qed.

Lemma unregistered_synched_child_gets_NaN_witness :
  adopted_scene !! 0%nat = Some (clip_of adopted_scene 0%nat) /\
  NoDup (children (clip_of adopted_scene 0%nat)) /\
  (0%nat ∉ children (clip_of adopted_scene 0%nat)) /\
  (forall c, c ∈ children (clip_of adopted_scene 0%nat) ->
             exists nc, adopted_scene !! c = Some nc /\ leaf nc) /\
  (1%nat ∈ children (clip_of adopted_scene 0%nat)) /\
  adopted_scene !! 1%nat = Some (clip_of adopted_scene 1%nat) /\
  mode (clip_of adopted_scene 1%nat) = SYNCHED /\
  parentStartPosition (clip_of adopted_scene 1%nat) = None /\
  exists (s' : gmap nat MovieClip) (t : list event) (nc' : MovieClip),
    sync_children (_updateTimeline 1) 0%nat (Int 3) 0
      (length (children (clip_of adopted_scene 0%nat))) adopted_scene
      = (Done tt, s', t) /\
    s' !! 1%nat = Some nc' /\
    _synchOffset nc' = NaN /\ currentFrame nc' = NaN /\ _prevPos nc' = NaN.
Proof.
  assert (Hchildren : children (clip_of adopted_scene 0%nat) = [1%nat])
    by (vm_compute; reflexivity).
  assert (H0 : adopted_scene !! 0%nat = Some (clip_of adopted_scene 0%nat))
    by (vm_compute; reflexivity).
  assert (H1 : NoDup (children (clip_of adopted_scene 0%nat))).
  { rewrite Hchildren. apply NoDup_singleton. }
  assert (H2 : 0%nat ∉ children (clip_of adopted_scene 0%nat)).
  { rewrite Hchildren. intros H. apply list_elem_of_singleton in H. lia. }
  assert (H3 : forall c, c ∈ children (clip_of adopted_scene 0%nat) ->
                         exists nc, adopted_scene !! c = Some nc /\ leaf nc).
  { rewrite Hchildren. intros c Hc. apply list_elem_of_singleton in Hc as ->.
    exists (clip_of adopted_scene 1%nat). split; [vm_compute; reflexivity|].
    split; vm_compute; reflexivity. }
  assert (H4 : 1%nat ∈ children (clip_of adopted_scene 0%nat)).
  { rewrite Hchildren. by apply list_elem_of_singleton. }
  assert (H5 : adopted_scene !! 1%nat = Some (clip_of adopted_scene 1%nat))
    by (vm_compute; reflexivity).
  assert (H6 : mode (clip_of adopted_scene 1%nat) = SYNCHED)
    by (vm_compute; reflexivity).
  assert (H7 : parentStartPosition (clip_of adopted_scene 1%nat) = None)
    by (vm_compute; reflexivity).
  split; [exact H0|]. split; [exact H1|]. split; [exact H2|].
  split; [exact H3|]. split; [exact H4|]. split; [exact H5|].
  split; [exact H6|]. split; [exact H7|].
  exact (unregistered_synched_child_gets_NaN 0 0%nat
           (clip_of adopted_scene 0%nat) (Int 3) adopted_scene 1%nat
           (clip_of adopted_scene 1%nat) H0 H1 H2 H3 H4 H5 H6 H7).
Defined.

(** ** Advancing a clip that has a frame rate *)

Lemma advance_run (fuel : nat) (this : nat) (time : Q) (n : MovieClip)
    (s : gmap nat MovieClip) :
  s !! this = Some n ->
  Qeq_bool (_framerate n) 0 = false ->
  advance fuel this time s =
  _updateTimeline fuel this (<[this := advanced time n]> s).
Proof.
  intros Hn Hrate. unfold advance.
  rewrite bind_run, (get_node_run this n s Hn). rewrite Hrate.
  rewrite bind_run. unfold mret at 1, M_ret at 1.
  assert (Hadd :
    (if negb (Qeq_bool time 0)
     then modify_node this (fun n => set__t (_t n + time)%Q n)
     else mret tt) s =
    (Done tt,
     <[this := if negb (Qeq_bool time 0) then set__t (_t n + time)%Q n
               else n]> s, [])).
  { destruct (negb _).
    - by rewrite (modify_node_run this _ n s Hn).
    - unfold mret, M_ret. by rewrite insert_id. }
  rewrite bind_run, Hadd.
  rewrite bind_run,
    (modify_node_run this _ _ _ (lookup_insert_eq _ _ _)), insert_insert_eq.
  rewrite bind_run,
    (modify_node_run this _ _ _ (lookup_insert_eq _ _ _)), insert_insert_eq.
  rewrite bind_run,
    (modify_node_run this _ _ _ (lookup_insert_eq _ _ _)), insert_insert_eq.
  unfold advanced. cbn zeta.
  destruct (_updateTimeline fuel this _) as [[o s'] t]. done.
Qed.

Lemma advanced_fields (time : Q) (n : MovieClip) :
  mode (advanced time n) = mode n /\
  _totalFrames (advanced time n) = _totalFrames n /\
  _prevPos (advanced time n) = _prevPos n /\
  children (advanced time n) = children n /\
  _timedChildTimelines (advanced time n) = _timedChildTimelines n /\
  exists z, currentFrame (advanced time n) = Int z /\ z < _totalFrames n.
Proof.
  unfold advanced. cbn zeta.
  set (n1 := if negb (Qeq_bool time 0) then _ else n).
  set (n2 := if negb (Qle_bool (_t n1) (_duration n1)) then _ else n1).
  assert (E1 : mode n1 = mode n /\ _totalFrames n1 = _totalFrames n /\
               _prevPos n1 = _prevPos n /\ children n1 = children n /\
               _timedChildTimelines n1 = _timedChildTimelines n).
  { unfold n1. by destruct (negb _). }
  assert (E2 : mode n2 = mode n /\ _totalFrames n2 = _totalFrames n /\
               _prevPos n2 = _prevPos n /\ children n2 = children n /\
               _timedChildTimelines n2 = _timedChildTimelines n).
  { unfold n2. destruct (negb (Qle_bool (_t n1) (_duration n1))); apply E1. }
  destruct E2 as (Em & Et & Ep & Ec & Etc).
  cbn [currentFrame _totalFrames set_currentFrame num_ge num_le].
  rewrite Et.
  destruct (_totalFrames n <=? Qfloor _) eqn:Hge.
  - repeat (split; [done|]). eexists. split; [reflexivity|]. lia.
  - repeat (split; [done|]). eexists. split; [reflexivity|]. lia.
Qed.

(** X11: [advance] never leaves the playhead at or past the end.  On an
    INDEPENDENT clip without children that has a frame rate of its own,
    after [advance] by any time the frame is a number below [_totalFrames]
    and is recorded as the previous frame; on a clip of no frames at all it
    is therefore negative. *)
Theorem advance_stays_below_totalFrames (fuel : nat) (this : nat) (time : Q)
    (n : MovieClip) (s : gmap nat MovieClip) :
  s !! this = Some n -> leaf n -> mode n = INDEPENDENT ->
  Qeq_bool (_framerate n) 0 = false ->
  exists (n' : MovieClip) (t : list event) (z : Z),
    advance (S fuel) this time s = (Done tt, <[this := n']> s, t) /\
    currentFrame n' = Int z /\ _prevPos n' = Int z /\
    z < _totalFrames n /\ _totalFrames n' = _totalFrames n.
Proof.
  intros Hn Hleaf Hmode Hrate. rewrite (advance_run _ _ _ n s Hn Hrate).
  set (m := advanced time n).
  destruct (advanced_fields time n)
    as (Em & Et & Ep & Ec & Etc & z & Ez & Hz).
  fold m in Em, Et, Ep, Ec, Etc, Ez.
  assert (Hleafm : leaf m).
  { destruct Hleaf. split; congruence. }
  rewrite (updateTimeline_leaf fuel this m _ (lookup_insert_eq _ _ _) Hleafm).
  assert (Hres : resolved_frame m = Int z).
  { unfold resolved_frame. by rewrite Em, Hmode. }
  cbn zeta. rewrite Hres, !insert_insert_eq.
  cbn [_prevPos currentFrame set_currentFrame].
  destruct (num_eq (_prevPos m) (Int z)) eqn:Hsame.
  - eexists _, _, z. split; [reflexivity|]. split; [done|].
    split; [by apply num_eq_true in Hsame|]. done.
  - eexists _, _, z. split; [reflexivity|]. done.
Qed.

Lemma advance_stays_below_totalFrames_witness :
  short_scene !! 0%nat = Some short_clip /\
  leaf short_clip /\
  mode short_clip = INDEPENDENT /\
  Qeq_bool (_framerate short_clip) 0 = false /\
  exists (n' : MovieClip) (t : list event) (z : Z),
    advance 1 0%nat 7%Q short_scene = (Done tt, <[0%nat := n']> short_scene, t) /\
    currentFrame n' = Int z /\ _prevPos n' = Int z /\
    z < _totalFrames short_clip /\ _totalFrames n' = _totalFrames short_clip.
Proof.
  assert (H1 : short_scene !! 0%nat = Some short_clip)
    by (vm_compute; reflexivity).
  assert (H2 : leaf short_clip) by (split; vm_compute; reflexivity).
  assert (H3 : mode short_clip = INDEPENDENT) by (vm_compute; reflexivity).
  assert (H4 : Qeq_bool (_framerate short_clip) 0 = false)
    by (vm_compute; reflexivity).
  split; [exact H1|]. split; [exact H2|]. split; [exact H3|].
  split; [exact H4|].
  exact (advance_stays_below_totalFrames 0 0%nat 7%Q short_clip short_scene
           H1 H2 H3 H4).
Defined.






(** ** Registering frame scripts *)

Lemma js_index_nat {A : Type} (a : list A) (i : Z) :
  0 <= i -> js_index a i = a !! Z.to_nat i.
Proof. intros H. unfold js_index. by destruct (i <? 0) eqn:E; [lia|]. Qed.

Lemma array_grow_lookup_old {A : Type} (n : Z) (a : list (option A)) (i : nat) :
  (i < length a)%nat -> array_grow n a !! i = a !! i.
Proof. intros H. unfold array_grow. by rewrite lookup_app_l. Qed.

Lemma array_grow_lookup_new {A : Type} (n : Z) (a : list (option A)) (i : nat) :
  (length a <= i)%nat -> (Z.of_nat i < n) ->
  array_grow n a !! i = Some None.
Proof.
  intros H1 H2. unfold array_grow. rewrite lookup_app_r by done.
  apply lookup_replicate_2. lia.
Qed.

Lemma array_grow_length {A : Type} (n : Z) (a : list (option A)) :
  Z.of_nat (length a) <= n -> Z.of_nat (length (array_grow n a)) = n.
Proof.
  intros H. unfold array_grow. rewrite length_app, length_replicate. lia.
Qed.

(** X13: [addAction] appends to the scripts of its frame and touches no
    other frame.  For a frame [startFrame >= 0], the scripts registered on
    it afterwards are those registered before followed by the new callback;
    the scripts of every other frame are as before; and the array of
    scripts has as many entries as before, or [startFrame + 1] if that is
    more. *)
Theorem addAction_appends (callback : nat) (startFrame : Z) (this : MovieClip) :
  0 <= startFrame ->
  scripts_at (_actions (addAction callback startFrame this)) startFrame =
    scripts_at (_actions this) startFrame ++ [callback] /\
  (forall i, i <> startFrame ->
     scripts_at (_actions (addAction callback startFrame this)) i =
     scripts_at (_actions this) i) /\
  Z.of_nat (length (_actions (addAction callback startFrame this))) =
    Z.max (Z.of_nat (length (_actions this))) (startFrame + 1).
Proof.
  intros Hnonneg. unfold addAction. cbn zeta.
  set (actions := _actions this).
  set (grown := if Z.of_nat (length actions) <=? startFrame
                then array_grow (startFrame + 1) actions else actions).
  assert (Hlen : Z.of_nat (length grown) =
                 Z.max (Z.of_nat (length actions)) (startFrame + 1)).
  { unfold grown. destruct (_ <=? _) eqn:E.
    - rewrite array_grow_length by lia. lia.
    - lia. }
  assert (Hin : (Z.to_nat startFrame < length grown)%nat) by lia.
  assert (Hold : forall i, scripts_at grown i = scripts_at actions i).
  { intros i. unfold scripts_at, js_index.
    destruct (i <? 0) eqn:Hneg; [done|]. unfold grown.
    destruct (_ <=? startFrame) eqn:E; [|done].
    destruct (decide (Z.to_nat i < length actions)%nat) as [Hi|Hi].
    - by rewrite array_grow_lookup_old.
    - rewrite (lookup_ge_None_2 actions) by lia.
      unfold array_grow. rewrite lookup_app_r by lia.
      by destruct (replicate _ _ !! _) as [x|] eqn:Hx;
        [apply lookup_replicate in Hx as [-> _]|]. }
  assert (Hset : forall v,
    scripts_at (<[Z.to_nat startFrame := Some v]> grown) startFrame = v /\
    (forall i, i <> startFrame ->
       scripts_at (<[Z.to_nat startFrame := Some v]> grown) i =
       scripts_at actions i) /\
    length (<[Z.to_nat startFrame := Some v]> grown) = length grown).
  { intros v. split; [|split].
    - unfold scripts_at. rewrite js_index_nat by done.
      by rewrite list_lookup_insert_eq.
    - intros i Hi. rewrite <- Hold. unfold scripts_at, js_index.
      destruct (i <? 0) eqn:Hneg; [done|].
      rewrite list_lookup_insert_ne by lia. done.
    - apply length_insert. }
  cbn [_actions set__actions].
  assert (E : _actions (if _totalFrames this <? startFrame
                        then set__totalFrames startFrame this else this)
              = actions) by (by destruct (_ <? _)).
  destruct (js_index grown startFrame) as [[frameActions|]|] eqn:Hat.
  - destruct (Hset (frameActions ++ [callback])) as (H1 & H2 & H3).
    assert (Hwas : scripts_at actions startFrame = frameActions).
    { rewrite <- Hold. unfold scripts_at. by rewrite Hat. }
    destruct (_totalFrames this <? startFrame);
      cbn [_actions set__actions set__totalFrames];
      (split; [by rewrite H1, Hwas|]); (split; [exact H2|]);
      rewrite H3; exact Hlen.
  - assert (Hwas : scripts_at actions startFrame = []).
    { rewrite <- Hold. unfold scripts_at. by rewrite Hat. }
    destruct (startFrame <? 0) eqn:Hneg; [lia|].
    destruct (Hset [callback]) as (H1 & H2 & H3).
    destruct (_totalFrames this <? startFrame);
      cbn [_actions set__actions set__totalFrames];
      (split; [by rewrite H1, Hwas|]); (split; [exact H2|]);
      rewrite H3; exact Hlen.
  - rewrite js_index_nat in Hat by done.
    apply lookup_ge_None_1 in Hat. lia.
Qed.

Lemma addAction_appends_witness :
  0 <= 3 /\
  scripts_at (_actions (addAction 8%nat 3 seam_clip)) 3 =
    scripts_at (_actions seam_clip) 3 ++ [8%nat].
Proof.
  split; [lia|].
  exact (proj1 (addAction_appends 8%nat 3 seam_clip ltac:(lia))).
Defined.

(** ** The length of a clip under registration *)

Lemma addTween_totalFrames (instance : nat) (properties : gmap string value)
    (startFrame : num) (duration : option Z) (ease : option nat)
    (this : MovieClip) :
  _totalFrames (addTween instance properties startFrame duration ease this) =
  match num_add startFrame (Int (default 0 duration)) with
  | Int e => Z.max (_totalFrames this) e
  | NaN => _totalFrames this
  end.
Proof.
  unfold addTween. cbn zeta.
  set (this1 := match find_last _ (_timelines this) with
                | Some _ => this | None => _ end).
  assert (E1 : _totalFrames this1 = _totalFrames this).
  { unfold this1. by destruct (find_last _ _). }
  destruct (num_add startFrame (Int (default 0 duration))) as [|e]; [done|].
  cbn [_totalFrames set__timelines]. rewrite E1.
  destruct (_totalFrames this <? e) eqn:Hlt;
    cbn [_totalFrames set__totalFrames set__timelines]; lia.
Qed.

Lemma register_presence_totalFrames (es6_fill : bool) (instance : nat)
    (startFrame duration : Z) (this : MovieClip) :
  _totalFrames (register_presence es6_fill instance startFrame duration this) =
  Z.max (_totalFrames this) (startFrame + duration).
Proof.
  unfold register_presence. cbn zeta.
  set (this1 := match find_last _ (_timedChildTimelines this) with
                | Some _ => this | None => _ end).
  assert (E1 : _totalFrames this1 = _totalFrames this).
  { unfold this1. by destruct (find_last _ _). }
  cbn [_totalFrames set__timedChildTimelines]. rewrite E1.
  destruct (_totalFrames this <? startFrame + duration) eqn:Hlt;
    cbn [_totalFrames set__totalFrames set__timedChildTimelines]; lia.
Qed.

Lemma not_shorter_refl (n : MovieClip) : not_shorter n n.
Proof. unfold not_shorter. lia. Qed.

Lemma not_shorter_trans (a b c : MovieClip) :
  not_shorter a b -> not_shorter b c -> not_shorter a c.
Proof. unfold not_shorter. lia. Qed.

Lemma keeps_addKeyframes (R : MovieClip -> MovieClip -> Prop)
    (this instance : nat) (keyframes : keyframes_arg) :
  (forall n, R n n) -> (forall a b c, R a b -> R b c -> R a c) ->
  (forall p sf m, R m (addTween instance p sf None None m)) ->
  keeps R (addKeyframes this instance keyframes).
Proof.
  intros Hrefl Htrans Htween. unfold addKeyframes.
  assert (Hreg : forall o,
    keeps R (for_each
               (fun kv => modify_node this
                  (addTween instance (snd kv) (parseInt (fst kv) (Some 10))
                     None None)) o)).
  { intros o. apply keeps_for_each; [done|done|].
    intros kv. apply keeps_modify; [done|]. intros m. apply Htween. }
  destruct keyframes as [|str|o].
  - by apply keeps_ret.
  - destruct (String.eqb str ""); [by apply keeps_ret|apply Hreg].
  - apply Hreg.
Qed.

(** X14: no registration shortens a clip.  Whatever [addTimedChild] is given
    and however its run ends, every clip of the scene is still there with a
    [_totalFrames] at least what it was: the clip registered on is extended
    to [startFrame + duration] and to the end of each keyframe, and the pass
    that closes the registration writes no length. *)
Theorem registration_never_shortens (fuel : nat) (es6_fill : bool)
    (this instance : nat) (startFrame duration : option Z)
    (keyframes : keyframes_arg) (s s' : gmap nat MovieClip)
    (o : outcome unit) (t : list event) (r : nat) (n : MovieClip) :
  addTimedChild fuel es6_fill this instance startFrame duration keyframes s
    = (o, s', t) ->
  s !! r = Some n ->
  exists n', s' !! r = Some n' /\ _totalFrames n <= _totalFrames n'.
Proof.
  assert (Hset : forall f : MovieClip -> MovieClip,
            (forall m, _totalFrames (f m) = _totalFrames m) ->
            forall m, not_shorter m (f m)).
  { intros f Hf m. unfold not_shorter. rewrite Hf. lia. }
  assert (Kget : forall r0, keeps not_shorter (get_node r0))
    by (intros; apply keeps_get, not_shorter_refl).
  assert (Kupdate : forall c, keeps not_shorter (_updateTimeline fuel c)).
  { intros c. apply keeps_updateTimeline;
      [apply not_shorter_refl|apply not_shorter_trans|..];
      intros; by apply Hset. }
  assert (K : keeps not_shorter
    (addTimedChild fuel es6_fill this instance startFrame duration keyframes)).
  { unfold addTimedChild.
    apply (keeps_bind _ not_shorter_trans); [apply Kget|]. intros n0. cbn zeta.
    apply (keeps_bind _ not_shorter_trans); [apply Kget|]. intros inst.
    apply (keeps_bind _ not_shorter_trans).
    { destruct (mode inst =? SYNCHED).
      - apply (keeps_modify _ not_shorter_refl). by apply Hset.
      - apply keeps_ret, not_shorter_refl. }
    intros _. apply (keeps_bind _ not_shorter_trans).
    { apply (keeps_modify _ not_shorter_refl). intros m. unfold not_shorter.
      rewrite register_presence_totalFrames. lia. }
    intros _. apply (keeps_bind _ not_shorter_trans).
    { apply keeps_addKeyframes;
        [apply not_shorter_refl|apply not_shorter_trans|].
      intros p sf m. unfold not_shorter. rewrite addTween_totalFrames.
      destruct (num_add _ _); lia. }
    intros _. apply (keeps_bind _ not_shorter_trans); [apply Kget|].
    intros n1.
    apply keeps_setTimelinePosition;
      [apply not_shorter_refl|apply not_shorter_trans|..|apply Kupdate];
      intros; by apply Hset. }
  exact (K s s' o t r n).
Qed.

Lemma registration_never_shortens_witness :
  synched_scene !! 0%nat = Some (clip_of synched_scene 0%nat) /\
  exists n',
    store_of (addTimedChild 2 true 0%nat 1%nat (Some 5) (Some 40)
                (KfString "0X100Y100 10X150 ") synched_scene) !! 0%nat
      = Some n' /\
    _totalFrames (clip_of synched_scene 0%nat) <= _totalFrames n'.
Proof.
  assert (H : synched_scene !! 0%nat = Some (clip_of synched_scene 0%nat))
    by (vm_compute; reflexivity).
  split; [exact H|].
  exact (registration_never_shortens 2 true 0%nat 1%nat (Some 5) (Some 40)
           (KfString "0X100Y100 10X150 ") synched_scene _ _ _ 0%nat _
           (run_eta _) H).
Defined.

(** ** One timeline for each target *)

Lemma find_last_None {A : Type} (P : A -> bool) (l : list A) :
  find_last P l = None -> forall x, x ∈ l -> P x = false.
Proof.
  induction l as [|y l IH]; intros H x Hx; [by apply elem_of_nil in Hx|].
  simpl in H. destruct (find_last P l) eqn:E; [done|].
  destruct (P y) eqn:Hy; [done|].
  apply elem_of_cons in Hx as [->|Hx]; [done|]. by apply IH.
Qed.

Lemma find_last_Some {A : Type} (P : A -> bool) (l : list A) (i : nat) :
  find_last P l = Some i -> exists x, l !! i = Some x /\ P x = true.
Proof.
  revert i. induction l as [|y l IH]; intros i H; [done|].
  simpl in H. destruct (find_last P l) as [j|] eqn:E.
  - simplify_eq. destruct (IH j eq_refl) as (x & Hx & HP). by exists x.
  - destruct (P y) eqn:Hy; [|done]. simplify_eq. by exists y.
Qed.

Lemma fmap_alter_same {A B : Type} (f : A -> B) (g : A -> A) (i : nat)
    (l : list A) :
  (forall x, f (g x) = f x) -> f <$> alter g i l = f <$> l.
Proof.
  intros Hfg. revert i. induction l as [|y l IH]; intros [|i]; simpl; [done..| |].
  - by rewrite Hfg.
  - f_equal. apply IH.
Qed.

Lemma addTween_targets (instance : nat) (properties : gmap string value)
    (startFrame : num) (duration : option Z) (ease : option nat)
    (this : MovieClip) :
  target <$> _timelines (addTween instance properties startFrame duration
                           ease this) =
  if bool_decide (instance ∈ target <$> _timelines this)
  then target <$> _timelines this
  else (target <$> _timelines this) ++ [instance].
Proof.
  unfold addTween. cbn zeta.
  set (P := fun tl : Timeline => bool_decide (target tl = instance)).
  assert (Hthis2 : forall this1 : MovieClip,
    target <$> _timelines
      (match num_add startFrame (Int (default 0 duration)) with
       | Int e =>
           if _totalFrames
                (set__timelines
                   (alter (Timeline_addTween instance
                             (convert_properties properties) startFrame
                             (default 0 duration) ease)
                      (default 0%nat (find_last P (_timelines this1)))
                      (_timelines this1)) this1) <? e
           then set__totalFrames e
                  (set__timelines
                     (alter (Timeline_addTween instance
                               (convert_properties properties) startFrame
                               (default 0 duration) ease)
                        (default 0%nat (find_last P (_timelines this1)))
                        (_timelines this1)) this1)
           else set__timelines
                  (alter (Timeline_addTween instance
                            (convert_properties properties) startFrame
                            (default 0 duration) ease)
                     (default 0%nat (find_last P (_timelines this1)))
                     (_timelines this1)) this1
       | NaN =>
           set__timelines
             (alter (Timeline_addTween instance
                       (convert_properties properties) startFrame
                       (default 0 duration) ease)
                (default 0%nat (find_last P (_timelines this1)))
                (_timelines this1)) this1
       end) = target <$> _timelines this1).
  { intros this1. destruct (num_add _ _) as [|e].
    - cbn [_timelines set__timelines]. by apply fmap_alter_same.
    - destruct (_ <? e); cbn [_timelines set__timelines set__totalFrames];
        by apply fmap_alter_same. }
  rewrite Hthis2. clear Hthis2.
  destruct (find_last P (_timelines this)) as [i|] eqn:Hfind.
  - apply find_last_Some in Hfind as (tl & Htl & HP).
    apply bool_decide_eq_true in HP. rewrite bool_decide_eq_true_2; [done|].
    rewrite <- HP. apply list_elem_of_fmap. exists tl.
    split; [done|]. by eapply list_elem_of_lookup_2.
  - cbn [_timelines set__timelines]. rewrite fmap_app.
    rewrite bool_decide_eq_false_2; [done|].
    intros Hin. apply list_elem_of_fmap in Hin as (tl & -> & Htl).
    pose proof (find_last_None P _ Hfind tl Htl) as HP.
    by apply bool_decide_eq_false in HP.
Qed.

(** X15: [addTween] keeps one timeline for each target.  When the targets
    of the timelines of a clip are distinct, they still are after
    [addTween]; the instance given is among them, and no other target was
    added or lost. *)
Theorem addTween_one_timeline_per_target (instance : nat)
    (properties : gmap string value) (startFrame : num) (duration : option Z)
    (ease : option nat) (this : MovieClip) :
  NoDup (target <$> _timelines this) ->
  NoDup (target <$> _timelines (addTween instance properties startFrame
                                  duration ease this)) /\
  instance ∈ target <$> _timelines (addTween instance properties startFrame
                                      duration ease this) /\
  forall r, r <> instance ->
    (r ∈ target <$> _timelines (addTween instance properties startFrame
                                  duration ease this)
     <-> r ∈ target <$> _timelines this).
Proof.
  intros Hnodup. rewrite addTween_targets.
  case_bool_decide as Hin.
  - split; [done|]. split; [done|]. done.
  - split.
    + apply NoDup_app. split; [done|]. split.
      * intros x Hx Hx'. apply list_elem_of_singleton in Hx' as ->. done.
      * apply NoDup_singleton.
    + split.
      * apply elem_of_app. right. by apply list_elem_of_singleton.
      * intros r Hr. rewrite elem_of_app, list_elem_of_singleton. tauto.
Qed.

Lemma addTween_one_timeline_per_target_witness :
  NoDup (target <$> _timelines (clip_of staged_scene 0%nat)) /\
  NoDup (target <$> _timelines
           (addTween 1%nat ∅ (Int 3) (Some 2) None
              (clip_of staged_scene 0%nat))).
Proof.
  assert (E : target <$> _timelines (clip_of staged_scene 0%nat) = [1%nat])
    by (vm_compute; reflexivity).
  assert (H : NoDup (target <$> _timelines (clip_of staged_scene 0%nat))).
  { rewrite E. apply NoDup_singleton. }
  split; [exact H|].
  exact (proj1 (addTween_one_timeline_per_target 1%nat ∅ (Int 3) (Some 2) None
                  (clip_of staged_scene 0%nat) H)).
Defined.

(** ** The presence timeline of a timed child *)

Lemma set_range_lookup {A : Type} (v : A) (from to : Z) (a : list A) (i : nat) :
  set_range v from to a !! i =
  (fun x => if (from <=? Z.of_nat i) && (Z.of_nat i <? to) then v else x)
    <$> a !! i.
Proof. unfold set_range. by rewrite list_lookup_imap. Qed.

Lemma set_range_length {A : Type} (v : A) (from to : Z) (a : list A) :
  length (set_range v from to a) = length a.
Proof. unfold set_range. apply length_imap. Qed.

Lemma array_fill_nonneg {A : Type} (v : A) (start end_ : Z) (a : list A) :
  0 <= start -> 0 <= end_ ->
  array_fill v start end_ a = set_range v start end_ a.
Proof.
  intros Hs He. unfold array_fill. cbn zeta.
  destruct (start <? 0) eqn:E1; [lia|]. destruct (end_ <? 0) eqn:E2; [lia|].
  apply list_eq. intros i. rewrite !set_range_lookup.
  destruct (a !! i) as [x|] eqn:Hx; [|done]. simpl.
  apply lookup_lt_Some in Hx. f_equal.
  destruct (start <=? Z.of_nat i) eqn:H1, (Z.of_nat i <? end_) eqn:H2;
    destruct (Z.min start _ <=? Z.of_nat i) eqn:H3,
             (Z.of_nat i <? Z.min end_ _) eqn:H4; simpl; try done; lia.
Qed.

(** The frames of a timeline after the part of [addTimedChild] that
    updates it. *)
Lemma presence_update_lookup (es6_fill : bool) (startFrame duration : Z)
    (timeline : list (option bool)) (f : Z) :
  0 <= startFrame -> 1 <= duration -> 0 <= f ->
  js_index
    (let oldLength := Z.of_nat (length timeline) in
     let timeline' :=
       if oldLength <? startFrame + duration then
         let timeline' := array_grow (startFrame + duration) timeline in
         if oldLength <? startFrame then
           if es6_fill
           then array_fill (Some false) oldLength startFrame timeline'
           else set_range (Some false) oldLength startFrame timeline'
         else timeline'
       else timeline in
     if es6_fill
     then array_fill (Some true) startFrame (startFrame + duration) timeline'
     else set_range (Some true) startFrame (Z.of_nat (length timeline'))
            timeline') f
  = marked es6_fill startFrame duration timeline f.
Proof.
  intros Hs Hd Hf. cbn zeta. unfold marked. cbn zeta.
  remember (Z.of_nat (length timeline)) as oldLength eqn:Hold.
  rewrite !array_fill_nonneg by lia.
  set (gap := if es6_fill
              then set_range (Some false) oldLength startFrame
                     (array_grow (startFrame + duration) timeline)
              else set_range (Some false) oldLength startFrame
                     (array_grow (startFrame + duration) timeline)).
  assert (Egap : gap = set_range (Some false) oldLength startFrame
                         (array_grow (startFrame + duration) timeline))
    by (unfold gap; by destruct es6_fill).
  fold gap. rewrite Egap. clear gap Egap.
  set (timeline' :=
         if oldLength <? startFrame + duration
         then if oldLength <? startFrame
              then set_range (Some false) oldLength startFrame
                     (array_grow (startFrame + duration) timeline)
              else array_grow (startFrame + duration) timeline
         else timeline).
  assert (Hlen' : Z.of_nat (length timeline') =
                  Z.max oldLength (startFrame + duration)).
  { unfold timeline'. destruct (oldLength <? startFrame + duration) eqn:E.
    - destruct (oldLength <? startFrame);
        rewrite ?set_range_length, array_grow_length; lia.
    - lia. }
  assert (Hlook' : timeline' !! Z.to_nat f =
                   if f <? oldLength then timeline !! Z.to_nat f
                   else if f <? startFrame then Some (Some false)
                   else if f <? startFrame + duration then Some None
                   else None).
  { unfold timeline'. destruct (oldLength <? startFrame + duration) eqn:E.
    - destruct (oldLength <? startFrame) eqn:E2.
      + rewrite set_range_lookup, Z2Nat.id by done.
        destruct (f <? oldLength) eqn:E3.
        * rewrite array_grow_lookup_old by lia.
          destruct (timeline !! Z.to_nat f) as [x|]; [|done]. simpl.
          by destruct (oldLength <=? f) eqn:E4; [exfalso; lia|].
        * destruct (f <? startFrame) eqn:E4.
          -- rewrite array_grow_lookup_new by lia.
             simpl.
             destruct (oldLength <=? f) eqn:E5; [|exfalso; lia].
             by destruct (f <? startFrame) eqn:E6; [|exfalso; lia].
          -- destruct (f <? startFrame + duration) eqn:E5.
             ++ rewrite array_grow_lookup_new by lia.
                simpl.
                destruct (f <? startFrame) eqn:E6; [exfalso; lia|].
                by rewrite andb_false_r.
             ++ rewrite lookup_ge_None_2; [done|].
                assert (Z.of_nat (length (array_grow (startFrame + duration)
                                            timeline))
                        = startFrame + duration)
                  by (apply array_grow_length; lia).
                lia.
      + destruct (f <? oldLength) eqn:E3.
        * by rewrite array_grow_lookup_old by lia.
        * destruct (f <? startFrame) eqn:E4; [exfalso; lia|].
          destruct (f <? startFrame + duration) eqn:E5.
          -- by rewrite array_grow_lookup_new by lia.
          -- rewrite lookup_ge_None_2; [done|].
             assert (Z.of_nat (length (array_grow (startFrame + duration)
                                         timeline))
                     = startFrame + duration)
               by (apply array_grow_length; lia).
             lia.
    - destruct (f <? oldLength) eqn:E3; [done|].
      destruct (f <? startFrame) eqn:E4; [exfalso; lia|].
      destruct (f <? startFrame + duration) eqn:E5; [exfalso; lia|].
      apply lookup_ge_None_2. lia. }
  rewrite js_index_nat by done.
  assert (Hboth : forall last,
    set_range (Some true) startFrame last timeline' !! Z.to_nat f =
    if (startFrame <=? f) && (f <? last) && (f <? Z.max oldLength (startFrame + duration))
    then Some (Some true)
    else timeline' !! Z.to_nat f).
  { intros last. rewrite set_range_lookup.
    destruct (timeline' !! Z.to_nat f) as [x|] eqn:Hx.
    - apply lookup_lt_Some in Hx. simpl. rewrite Z2Nat.id by done.
      destruct (f <? Z.max oldLength (startFrame + duration)) eqn:E; [|exfalso; lia].
      rewrite andb_true_r. by destruct (_ && _).
    - apply lookup_ge_None_1 in Hx.
      destruct (f <? Z.max oldLength (startFrame + duration)) eqn:E; [exfalso; lia|].
      by rewrite andb_false_r. }
  destruct es6_fill.
  - rewrite Hboth, Hlook'. rewrite js_index_nat by done.
    destruct (startFrame <=? f) eqn:E1, (f <? startFrame + duration) eqn:E2,
             (f <? Z.max oldLength (startFrame + duration)) eqn:E3,
             (f <? oldLength) eqn:E4, (f <? startFrame) eqn:E5;
      simpl; try done; exfalso; lia.
  - rewrite Hboth, Hlook', Hlen'. rewrite js_index_nat by done.
    destruct (startFrame <=? f) eqn:E1, (f <? startFrame + duration) eqn:E2,
             (f <? Z.max oldLength (startFrame + duration)) eqn:E3,
             (f <? oldLength) eqn:E4, (f <? startFrame) eqn:E5;
      simpl; try done; exfalso; lia.
Qed.

Lemma find_last_alter {A : Type} (P : A -> bool) (g : A -> A) (i : nat)
    (l : list A) :
  (forall x, P (g x) = P x) -> find_last P (alter g i l) = find_last P l.
Proof.
  intros Hg. revert i. induction l as [|y l IH]; intros [|i]; [done..| |].
  - simpl. by rewrite Hg.
  - specialize (IH i). simpl.
    change (list_alter g i l) with (alter g i l). by rewrite IH.
Qed.

Lemma find_last_snoc {A : Type} (P : A -> bool) (l : list A) (x : A) :
  find_last P (l ++ [x]) =
  if P x then Some (length l) else find_last P l.
Proof.
  induction l as [|y l IH]; simpl.
  - by destruct (P x).
  - rewrite IH. destruct (P x); [done|]. done.
Qed.

Lemma register_presence_timelines (es6_fill : bool) (instance : nat)
    (startFrame duration : Z) (this : MovieClip) :
  _timedChildTimelines
    (register_presence es6_fill instance startFrame duration this) =
  let l1 :=
    match find_last (fun tl => bool_decide (ct_target tl = instance))
            (_timedChildTimelines this) with
    | Some _ => _timedChildTimelines this
    | None => _timedChildTimelines this ++ [mkChildTimeline instance []]
    end in
  alter (fun tl => mkChildTimeline (ct_target tl)
                     (presence_update es6_fill startFrame duration
                        (ct_frames tl)))
    (default 0%nat
       (find_last (fun tl => bool_decide (ct_target tl = instance)) l1)) l1.
Proof.
  unfold register_presence. cbn zeta.
  destruct (find_last _ (_timedChildTimelines this)) eqn:Hfind.
  - rewrite Hfind.
    destruct (_totalFrames _ <? startFrame + duration); reflexivity.
  - cbn [_timedChildTimelines set__timedChildTimelines].
    destruct (_totalFrames _ <? startFrame + duration); reflexivity.
Qed.

Lemma presence_timelines (es6_fill : bool) (instance : nat)
    (startFrame duration : Z) (this : MovieClip) :
  exists (l1 : list ChildTimeline) (i : nat) (tl : ChildTimeline)
         (update : list (option bool) -> list (option bool)),
    (forall f, 0 <= startFrame -> 1 <= duration -> 0 <= f ->
       js_index (update (ct_frames tl)) f =
       marked es6_fill startFrame duration (ct_frames tl) f) /\
    ct_frames tl = presence this instance /\
    ct_target tl = instance /\
    l1 !! i = Some tl /\
    find_last (fun tl => bool_decide (ct_target tl = instance)) l1 = Some i /\
    (forall other, other <> instance ->
       find_last (fun tl => bool_decide (ct_target tl = other)) l1 =
       find_last (fun tl => bool_decide (ct_target tl = other))
         (_timedChildTimelines this)) /\
    (forall j x, _timedChildTimelines this !! j = Some x -> l1 !! j = Some x) /\
    _timedChildTimelines
      (register_presence es6_fill instance startFrame duration this) =
    alter (fun tl => mkChildTimeline (ct_target tl) (update (ct_frames tl)))
      i l1.
Proof.
  rewrite register_presence_timelines. cbn zeta.
  set (P := fun tl : ChildTimeline => bool_decide (ct_target tl = instance)).
  set (update := presence_update es6_fill startFrame duration).
  assert (Hupd : forall tl f, 0 <= startFrame -> 1 <= duration -> 0 <= f ->
            js_index (update tl) f = marked es6_fill startFrame duration tl f).
  { intros tl f Hs Hd Hf. unfold update.
    apply (presence_update_lookup es6_fill startFrame duration tl f Hs Hd Hf). }
  destruct (find_last P (_timedChildTimelines this)) as [i|] eqn:Hfind.
  - destruct (find_last_Some _ _ _ Hfind) as (tl & Htl & HP).
    apply bool_decide_eq_true in HP.
    exists (_timedChildTimelines this), i, tl, update.
    split; [intros; by apply Hupd|].
    split. { unfold presence. fold P. by rewrite Hfind, Htl. }
    split; [done|]. split; [done|]. split; [done|]. split; [done|].
    split; [done|].
    by rewrite Hfind.
  - exists (_timedChildTimelines this ++ [mkChildTimeline instance []]),
      (length (_timedChildTimelines this)), (mkChildTimeline instance []),
      update.
    split; [intros; by apply Hupd|].
    split. { unfold presence. fold P. by rewrite Hfind. }
    split; [done|].
    split. { by rewrite lookup_app_r, Nat.sub_diag by lia. }
    assert (Hnew : find_last P (_timedChildTimelines this
                                ++ [mkChildTimeline instance []])
                   = Some (length (_timedChildTimelines this))).
    { rewrite find_last_snoc. unfold P. cbn [ct_target].
      by rewrite bool_decide_eq_true_2. }
    split; [exact Hnew|].
    split. { intros other Hother. rewrite find_last_snoc. cbn [ct_target].
             by rewrite bool_decide_eq_false_2 by done. }
    split.
    { intros j x Hj. rewrite lookup_app_l; [done|]. by eapply lookup_lt_Some. }
    by rewrite Hnew.
Qed.

(** X16: what [addTimedChild] records.  For [startFrame >= 0] and
    [duration >= 1], the presence timeline of the instance afterwards is
    true on the frames [startFrame, startFrame + duration), false on the
    frames between the end of the former timeline and [startFrame], and as
    before on the other frames of the former timeline; without
    [Array.prototype.fill] it is true up to the end of the timeline.  The
    presence timeline of every other target is as before. *)
Theorem register_presence_marks (es6_fill : bool) (instance : nat)
    (startFrame duration : Z) (this : MovieClip) :
  0 <= startFrame -> 1 <= duration ->
  (forall f, 0 <= f ->
     js_index
       (presence (register_presence es6_fill instance startFrame duration this)
          instance) f =
     marked es6_fill startFrame duration (presence this instance) f) /\
  (forall other, other <> instance ->
     presence (register_presence es6_fill instance startFrame duration this)
       other = presence this other).
Proof.
  intros Hs Hd.
  destruct (presence_timelines es6_fill instance startFrame duration this)
    as (l1 & i & tl & update & Hupd & Hwas & Htarget & Htl & Hfind & Hothers
        & Hrest & Hafter).
  split.
  - intros f Hf. unfold presence at 1. rewrite Hafter.
    rewrite find_last_alter by done. rewrite Hfind.
    rewrite list_lookup_alter_eq, Htl. cbn [fmap option_fmap option_map default ct_frames].
    rewrite <- Hwas. by apply Hupd.
  - intros other Hother. unfold presence. rewrite Hafter.
    rewrite find_last_alter by done. rewrite Hothers by done.
    destruct (find_last _ (_timedChildTimelines this)) as [j|] eqn:Hj; [|done].
    destruct (find_last_Some _ _ _ Hj) as (tlj & Htlj & HPj).
    apply bool_decide_eq_true in HPj.
    pose proof (Hrest j tlj Htlj) as Hl1.
    assert (Hji : i <> j).
    { intros ->. simplify_eq. }
    rewrite list_lookup_alter_ne by done. by rewrite Hl1, Htlj.
Qed.

Lemma register_presence_marks_witness :
  0 <= 2 /\ 1 <= 3 /\
  (forall f, 0 <= f ->
     js_index
       (presence (register_presence true 1%nat 2 3 (clip_of staged_scene 0%nat))
          1%nat) f =
     marked true 2 3 (presence (clip_of staged_scene 0%nat) 1%nat) f).
Proof.
  assert (H1 : 0 <= 2) by lia. assert (H2 : 1 <= 3) by lia.
  split; [exact H1|]. split; [exact H2|].
  exact (proj1 (register_presence_marks true 1%nat 2 3
                  (clip_of staged_scene 0%nat) H1 H2)).
Defined.

Lemma register_presence_unfold (es6_fill : bool) (instance : nat)
    (startFrame duration : Z) (this : MovieClip) :
  register_presence es6_fill instance startFrame duration this =
  let this1 :=
    match find_last (fun tl => bool_decide (ct_target tl = instance))
            (_timedChildTimelines this) with
    | Some _ => this
    | None =>
        set__timedChildTimelines
          (_timedChildTimelines this ++ [mkChildTimeline instance []]) this
    end in
  let this2 :=
    set__timedChildTimelines
      (alter (fun tl => mkChildTimeline (ct_target tl)
                          (presence_update es6_fill startFrame duration
                             (ct_frames tl)))
         (default 0%nat
            (find_last (fun tl => bool_decide (ct_target tl = instance))
               (_timedChildTimelines this1)))
         (_timedChildTimelines this1)) this1 in
  if _totalFrames this2 <? startFrame + duration
  then set__totalFrames (startFrame + duration) this2
  else this2.
Proof. reflexivity. Qed.

Lemma presence_update_agree (startFrame duration : Z)
    (timeline : list (option bool)) :
  0 <= startFrame -> 1 <= duration ->
  Z.of_nat (length timeline) <= startFrame + duration ->
  presence_update true startFrame duration timeline =
  presence_update false startFrame duration timeline.
Proof.
  intros Hs Hd Hlen. apply list_eq. intros i.
  pose proof (presence_update_lookup true startFrame duration timeline
                (Z.of_nat i) Hs Hd ltac:(lia)) as Ht.
  pose proof (presence_update_lookup false startFrame duration timeline
                (Z.of_nat i) Hs Hd ltac:(lia)) as Hf.
  change (js_index (presence_update true startFrame duration timeline)
            (Z.of_nat i) = marked true startFrame duration timeline (Z.of_nat i))
    in Ht.
  change (js_index (presence_update false startFrame duration timeline)
            (Z.of_nat i) = marked false startFrame duration timeline (Z.of_nat i))
    in Hf.
  rewrite js_index_nat, Nat2Z.id in Ht, Hf by lia.
  rewrite Ht, Hf. unfold marked. cbn zeta.
  by rewrite Z.max_r by lia.
Qed.

(** X17: the two ways of filling agree on a timeline that has to grow.  The
    code fills a presence timeline with [Array.prototype.fill] where the
    array has it and with a loop up to the length of the timeline where it
    has not; when the timeline of the instance does not reach past the new
    interval (its length is at most [startFrame + duration]), the clip after
    the registration is the same either way. *)
Theorem fill_and_loop_agree (instance : nat) (startFrame duration : Z)
    (this : MovieClip) :
  0 <= startFrame -> 1 <= duration ->
  Z.of_nat (length (presence this instance)) <= startFrame + duration ->
  register_presence true instance startFrame duration this =
  register_presence false instance startFrame duration this.
Proof.
  intros Hs Hd Hlen. rewrite !register_presence_unfold. cbn zeta.
  set (P := fun tl : ChildTimeline => bool_decide (ct_target tl = instance)).
  set (this1 := match find_last P (_timedChildTimelines this) with
                | Some _ => this | None => _ end).
  assert (E : forall es6_fill,
    alter (fun tl => mkChildTimeline (ct_target tl)
                       (presence_update es6_fill startFrame duration
                          (ct_frames tl)))
      (default 0%nat (find_last P (_timedChildTimelines this1)))
      (_timedChildTimelines this1) =
    alter (fun tl => mkChildTimeline (ct_target tl)
                       (presence_update false startFrame duration
                          (ct_frames tl)))
      (default 0%nat (find_last P (_timedChildTimelines this1)))
      (_timedChildTimelines this1)).
  { intros [|]; [|done]. apply list_alter_ext; [|done].
    intros tl Htl. f_equal. apply presence_update_agree; [done|done|].
    revert Htl Hlen. unfold presence, this1. fold P.
    destruct (find_last P (_timedChildTimelines this)) as [i|] eqn:Hfind.
    - rewrite Hfind. intros Htl.
      change (_timedChildTimelines this !! i = Some tl) in Htl.
      by rewrite Htl.
    - cbn [_timedChildTimelines set__timedChildTimelines].
      rewrite find_last_snoc. unfold P at 1. cbn [ct_target].
      rewrite bool_decide_eq_true_2 by done. cbn [default].
      change (id (length (_timedChildTimelines this)))
        with (length (_timedChildTimelines this)).
      rewrite lookup_app_r, Nat.sub_diag by lia. intros [= <-]. done. }
  by rewrite (E true).
Qed.

Lemma fill_and_loop_agree_witness :
  0 <= 7 /\ 1 <= 4 /\
  register_presence true 1%nat 7 4 (clip_of staged_scene 0%nat) =
  register_presence false 1%nat 7 4 (clip_of staged_scene 0%nat).
Proof.
  assert (H1 : 0 <= 7) by lia. assert (H2 : 1 <= 4) by lia.
  assert (H3 : Z.of_nat (length (presence (clip_of staged_scene 0%nat) 1%nat))
               <= 7 + 4) by (vm_compute; discriminate).
  split; [exact H1|]. split; [exact H2|].
  exact (fill_and_loop_agree 1%nat 7 4 (clip_of staged_scene 0%nat) H1 H2 H3).
Defined.

Lemma register_presence_targets (es6_fill : bool) (instance : nat)
    (startFrame duration : Z) (this : MovieClip) :
  ct_target <$> _timedChildTimelines
                  (register_presence es6_fill instance startFrame duration
                     this) =
  if bool_decide (instance ∈ ct_target <$> _timedChildTimelines this)
  then ct_target <$> _timedChildTimelines this
  else (ct_target <$> _timedChildTimelines this) ++ [instance].
Proof.
  rewrite register_presence_timelines. cbn zeta.
  rewrite fmap_alter_same by done.
  set (P := fun tl : ChildTimeline => bool_decide (ct_target tl = instance)).
  destruct (find_last P (_timedChildTimelines this)) as [i|] eqn:Hfind.
  - apply find_last_Some in Hfind as (tl & Htl & HP).
    apply bool_decide_eq_true in HP. rewrite bool_decide_eq_true_2; [done|].
    rewrite <- HP. apply list_elem_of_fmap. exists tl.
    split; [done|]. by eapply list_elem_of_lookup_2.
  - rewrite fmap_app.
    rewrite bool_decide_eq_false_2; [done|].
    intros Hin. apply list_elem_of_fmap in Hin as (tl & -> & Htl).
    pose proof (find_last_None P _ Hfind tl Htl) as HP.
    by apply bool_decide_eq_false in HP.
Qed.

(** X18: [addTimedChild] keeps one presence timeline for each instance.
    When the targets of the presence timelines of a clip are distinct, they
    still are after the registration; the instance given is among them, and
    no other target was added or lost. *)
Theorem one_presence_timeline_per_instance (es6_fill : bool) (instance : nat)
    (startFrame duration : Z) (this : MovieClip) :
  NoDup (ct_target <$> _timedChildTimelines this) ->
  NoDup (ct_target <$> _timedChildTimelines
           (register_presence es6_fill instance startFrame duration this)) /\
  instance ∈ ct_target <$> _timedChildTimelines
               (register_presence es6_fill instance startFrame duration this) /\
  forall r, r <> instance ->
    (r ∈ ct_target <$> _timedChildTimelines
           (register_presence es6_fill instance startFrame duration this)
     <-> r ∈ ct_target <$> _timedChildTimelines this).
Proof.
  intros Hnodup. rewrite register_presence_targets.
  case_bool_decide as Hin.
  - split; [done|]. split; [done|]. done.
  - split.
    + apply NoDup_app. split; [done|]. split.
      * intros x Hx Hx'. apply list_elem_of_singleton in Hx' as ->. done.
      * apply NoDup_singleton.
    + split.
      * apply elem_of_app. right. by apply list_elem_of_singleton.
      * intros r Hr. rewrite elem_of_app, list_elem_of_singleton. tauto.
Qed.

Lemma one_presence_timeline_per_instance_witness :
  NoDup (ct_target <$> _timedChildTimelines (clip_of staged_scene 0%nat)) /\
  NoDup (ct_target <$> _timedChildTimelines
           (register_presence true 2%nat 4 2 (clip_of staged_scene 0%nat))).
Proof.
  assert (E : ct_target <$> _timedChildTimelines (clip_of staged_scene 0%nat)
              = [1%nat]) by (vm_compute; reflexivity).
  assert (H : NoDup (ct_target <$> _timedChildTimelines
                       (clip_of staged_scene 0%nat))).
  { rewrite E. apply NoDup_singleton. }
  split; [exact H|].
  exact (proj1 (one_presence_timeline_per_instance true 2%nat 4 2
                  (clip_of staged_scene 0%nat) H)).
Defined.

(** ** Timed children come and go with their presence timeline *)

Lemma removeChild_run (p child : nat) (np c : MovieClip)
    (s : gmap nat MovieClip) :
  s !! p = Some np -> s !! child = Some c -> p <> child ->
  removeChild p child s =
  (Done tt,
   (if bool_decide (child ∈ children np)
    then <[p := set_children (remove_first child (children np)) np]>
           (<[child := set_parent None c]> s)
    else s), []).
Proof.
  intros Hp Hc Hne. unfold removeChild.
  rewrite bind_run, (get_node_run _ _ _ Hp).
  case_bool_decide; [|done].
  rewrite bind_run, (modify_node_run _ _ c) by done.
  rewrite (modify_node_run _ _ np) by (by rewrite lookup_insert_ne).
  done.
Qed.

Lemma attach_run (this child : nat) (c : MovieClip) (s : gmap nat MovieClip) :
  s !! child = Some c -> is_Some (s !! this) -> this <> child ->
  exists s',
    (modify_node child (set_parent (Some this)) ;;
     modify_node this (fun n => set_children (children n ++ [child]) n)) s =
    (Done tt, s', []) /\
    s' !! child = Some (set_parent (Some this) c).
Proof.
  intros Hc [n Hn] Hne.
  rewrite bind_run, (modify_node_run _ _ c) by done.
  rewrite (modify_node_run _ _ n) by (by rewrite lookup_insert_ne).
  eexists. split; [reflexivity|].
  by rewrite lookup_insert_ne, lookup_insert_eq.
Qed.

Lemma addChild_run (this child : nat) (c : MovieClip)
    (s : gmap nat MovieClip) :
  s !! child = Some c -> is_Some (s !! this) -> this <> child ->
  (forall p, parent c = Some p -> p <> child /\ is_Some (s !! p)) ->
  exists s',
    addChild this child s = (Done tt, s', []) /\
    s' !! child = Some (set_parent (Some this) c).
Proof.
  intros Hc Hthis Hne Hparent. unfold addChild.
  rewrite bind_run, (get_node_run _ _ _ Hc).
  destruct (parent c) as [p|] eqn:Hp.
  - destruct (Hparent p eq_refl) as [Hpc [np Hnp]].
    rewrite bind_run, (removeChild_run p child np c) by done.
    case_bool_decide.
    + destruct (attach_run this child (set_parent None c)
                  (<[p := set_children (remove_first child (children np)) np]>
                     (<[child := set_parent None c]> s)))
        as (s' & Hrun & Hs'); [| |done|].
      * by rewrite lookup_insert_ne, lookup_insert_eq.
      * destruct (decide (this = p)) as [->|Hthisp].
        -- rewrite lookup_insert_eq. by eexists.
        -- by rewrite !lookup_insert_ne.
      * rewrite Hrun. exists s'. split; [done|]. rewrite Hs'. by destruct c.
    + destruct (attach_run this child c s Hc Hthis Hne) as (s' & Hrun & Hs').
      rewrite Hrun. by exists s'.
  - rewrite bind_run. cbn [mret M_ret].
    destruct (attach_run this child c s Hc Hthis Hne) as (s' & Hrun & Hs').
    rewrite Hrun. by exists s'.
Qed.

Lemma update_timed_child_run (this : nat) (currentFrame : num)
    (timeline : ChildTimeline) (n t : MovieClip) (s : gmap nat MovieClip) :
  s !! this = Some n -> s !! ct_target timeline = Some t ->
  this <> ct_target timeline ->
  (parent t = Some this -> ct_target timeline ∈ children n) ->
  (forall p, parent t = Some p ->
     p <> ct_target timeline /\ is_Some (s !! p)) ->
  exists s',
    update_timed_child this currentFrame timeline s =
    (Done tt, s',
     if truthy (js_index_num (ct_frames timeline) currentFrame)
     then if bool_decide (parent t = Some this) then []
          else [EvAddChild this (ct_target timeline)]
     else if bool_decide (parent t = Some this)
          then [EvRemoveChild this (ct_target timeline)]
          else []) /\
    s' !! ct_target timeline =
    Some (if truthy (js_index_num (ct_frames timeline) currentFrame)
          then if bool_decide (parent t = Some this) then t
               else if (mode t =? INDEPENDENT) && autoReset t
                    then _reset (set_parent (Some this) t)
                    else set_parent (Some this) t
          else if bool_decide (parent t = Some this)
               then set_parent None t
               else t).
Proof.
  intros Hn Ht Hne Htree Hparent. unfold update_timed_child. cbn zeta.
  rewrite bind_run, (get_node_run _ _ _ Ht).
  destruct (truthy (js_index_num (ct_frames timeline) currentFrame)).
  - case_bool_decide as Hp; cbn [negb andb].
    + exists s. by split.
    + destruct (addChild_run this (ct_target timeline) t s Ht
                  ltac:(by eexists) Hne Hparent) as (s1 & Hrun & Hs1).
      rewrite bind_run. unfold emit at 1.
      rewrite bind_run, Hrun.
      rewrite bind_run, (get_node_run _ _ _ Hs1).
      change (mode (set_parent (Some this) t)) with (mode t).
      change (autoReset (set_parent (Some this) t)) with (autoReset t).
      destruct ((mode t =? INDEPENDENT) && autoReset t).
      * rewrite (modify_node_run _ _ _ _ Hs1). eexists. split; [reflexivity|].
        by rewrite lookup_insert_eq.
      * exists s1. by split.
  - case_bool_decide as Hp; cbn [negb andb].
    + rewrite bind_run. unfold emit at 1.
      rewrite (removeChild_run this (ct_target timeline) n t) by done.
      rewrite bool_decide_eq_true_2 by auto.
      eexists. split; [reflexivity|].
      by rewrite lookup_insert_ne, lookup_insert_eq.
    + exists s. by split.
Qed.

(** X19: a timed child is on the parent exactly on the frames of its
    presence timeline.  In a display tree where the parent and the child are
    distinct clips of the store, the child is among the parent's children
    when the parent is its parent, and the parent the child has (if any) is a
    clip of the store, one turn of the loop over the presence timelines
    returns, and afterwards the parent of the child is this clip exactly
    when the presence timeline holds true at the frame. *)
Theorem timed_child_follows_presence (this : nat) (currentFrame : num)
    (timeline : ChildTimeline) (n t : MovieClip) (s : gmap nat MovieClip) :
  s !! this = Some n -> s !! ct_target timeline = Some t ->
  this <> ct_target timeline ->
  (parent t = Some this -> ct_target timeline ∈ children n) ->
  (forall p, parent t = Some p ->
     p <> ct_target timeline /\ is_Some (s !! p)) ->
  exists s' tr t',
    update_timed_child this currentFrame timeline s = (Done tt, s', tr) /\
    s' !! ct_target timeline = Some t' /\
    (parent t' = Some this <->
     js_index_num (ct_frames timeline) currentFrame = Some (Some true)).
Proof.
  intros Hn Ht Hne Htree Hparent.
  destruct (update_timed_child_run this currentFrame timeline n t s
              Hn Ht Hne Htree Hparent) as (s' & Hrun & Hs').
  eexists s', _, _. split; [exact Hrun|]. split; [exact Hs'|].
  assert (Htruthy : forall b, truthy b = true <-> b = Some (Some true)).
  { intros [[[|]|]|]; simpl; split; congruence. }
  destruct (truthy _) eqn:E.
  - apply Htruthy in E. case_bool_decide as Hp.
    + tauto.
    + destruct ((mode t =? INDEPENDENT) && autoReset t); simpl; tauto.
  - assert (js_index_num (ct_frames timeline) currentFrame <> Some (Some true)).
    { intros H. apply Htruthy in H. congruence. }
    case_bool_decide as Hp; simpl; [|tauto].
    split; [done|tauto].
Qed.

(** X20: an INDEPENDENT clip with [autoReset] starts over when it comes back.
    Under the conditions of X19, when the presence timeline holds true at
    the frame and the child is not on the parent, [addChild] is called and
    nothing else, and a child that is INDEPENDENT with [autoReset] set is
    reset: frame 0, time 0, no frame resolved yet; its registrations are
    untouched. *)
Theorem reattached_clip_is_reset (this : nat) (frame : num)
    (timeline : ChildTimeline) (n t : MovieClip) (s : gmap nat MovieClip) :
  s !! this = Some n -> s !! ct_target timeline = Some t ->
  this <> ct_target timeline ->
  (forall p, parent t = Some p ->
     p <> ct_target timeline /\ is_Some (s !! p)) ->
  js_index_num (ct_frames timeline) frame = Some (Some true) ->
  parent t <> Some this ->
  mode t = INDEPENDENT -> autoReset t = true ->
  exists s' t',
    update_timed_child this frame timeline s =
    (Done tt, s', [EvAddChild this (ct_target timeline)]) /\
    s' !! ct_target timeline = Some t' /\
    parent t' = Some this /\
    currentFrame t' = Int 0 /\ _t t' = 0%Q /\ _prevPos t' = Int (-1) /\
    same_registration t t'.
Proof.
  intros Hn Ht Hne Hparent Hpresent Hp Hmode Hauto.
  destruct (update_timed_child_run this frame timeline n t s
              Hn Ht Hne ltac:(done) Hparent) as (s' & Hrun & Hs').
  rewrite Hpresent in Hrun, Hs'. cbn [truthy] in Hrun, Hs'.
  rewrite bool_decide_eq_false_2 in Hrun, Hs' by done.
  rewrite Hmode, Hauto in Hs'. cbn [Z.eqb andb] in Hs'.
  change (INDEPENDENT =? INDEPENDENT) with true in Hs'. cbn [andb] in Hs'.
  eexists s', _. split; [exact Hrun|]. split; [exact Hs'|].
  repeat split.
Qed.

Lemma timed_child_follows_presence_witness :
  played_scene !! 0%nat = Some (clip_of played_scene 0%nat) /\
  exists s' tr t',
    update_timed_child 0%nat (Int 2)
      (first_presence (clip_of played_scene 0%nat)) played_scene =
    (Done tt, s', tr) /\
    s' !! ct_target (first_presence (clip_of played_scene 0%nat)) = Some t' /\
    (parent t' = Some 0%nat <->
     js_index_num (ct_frames (first_presence (clip_of played_scene 0%nat)))
       (Int 2) = Some (Some true)).
Proof.
  assert (H0 : played_scene !! 0%nat = Some (clip_of played_scene 0%nat))
    by (vm_compute; reflexivity).
  assert (H1 : played_scene
               !! ct_target (first_presence (clip_of played_scene 0%nat))
               = Some (clip_of played_scene 1%nat))
    by (vm_compute; reflexivity).
  assert (Hne : 0%nat <> ct_target (first_presence (clip_of played_scene 0%nat)))
    by (vm_compute; discriminate).
  assert (Htree : parent (clip_of played_scene 1%nat) = Some 0%nat ->
                  ct_target (first_presence (clip_of played_scene 0%nat))
                  ∈ children (clip_of played_scene 0%nat)).
  { intros _.
    assert (E : children (clip_of played_scene 0%nat) = [1%nat])
      by (vm_compute; reflexivity).
    rewrite E. apply list_elem_of_singleton. vm_compute; reflexivity. }
  assert (Hparent : forall p, parent (clip_of played_scene 1%nat) = Some p ->
            p <> ct_target (first_presence (clip_of played_scene 0%nat)) /\
            is_Some (played_scene !! p)).
  { intros p Hp.
    assert (E : parent (clip_of played_scene 1%nat) = Some 0%nat)
      by (vm_compute; reflexivity).
    rewrite E in Hp. injection Hp as <-. split; [exact Hne|].
    rewrite H0. eexists; reflexivity. }
  split; [exact H0|].
  exact (timed_child_follows_presence 0%nat (Int 2)
           (first_presence (clip_of played_scene 0%nat))
           _ _ played_scene H0 H1 Hne Htree Hparent).
Defined.

Lemma reattached_clip_is_reset_witness :
  currentFrame (clip_of returning_scene 1%nat) = Int 3 /\
  exists s' t',
    update_timed_child 0%nat (Int 2)
      (first_presence (clip_of returning_scene 0%nat)) returning_scene =
    (Done tt, s',
     [EvAddChild 0%nat
        (ct_target (first_presence (clip_of returning_scene 0%nat)))]) /\
    s' !! ct_target (first_presence (clip_of returning_scene 0%nat))
    = Some t' /\
    parent t' = Some 0%nat /\
    currentFrame t' = Int 0 /\ _t t' = 0%Q /\ _prevPos t' = Int (-1) /\
    same_registration (clip_of returning_scene 1%nat) t'.
Proof.
  assert (H0 : returning_scene !! 0%nat = Some (clip_of returning_scene 0%nat))
    by (vm_compute; reflexivity).
  assert (H1 : returning_scene
               !! ct_target (first_presence (clip_of returning_scene 0%nat))
               = Some (clip_of returning_scene 1%nat))
    by (vm_compute; reflexivity).
  assert (Hne : 0%nat
                <> ct_target (first_presence (clip_of returning_scene 0%nat)))
    by (vm_compute; discriminate).
  assert (Hnone : parent (clip_of returning_scene 1%nat) = None)
    by (vm_compute; reflexivity).
  assert (Hparent : forall p, parent (clip_of returning_scene 1%nat) = Some p ->
            p <> ct_target (first_presence (clip_of returning_scene 0%nat)) /\
            is_Some (returning_scene !! p)).
  { intros p Hp. rewrite Hnone in Hp. discriminate Hp. }
  assert (Hpresent :
            js_index_num
              (ct_frames (first_presence (clip_of returning_scene 0%nat)))
              (Int 2) = Some (Some true))
    by (vm_compute; reflexivity).
  assert (Hp : parent (clip_of returning_scene 1%nat) <> Some 0%nat).
  { rewrite Hnone. discriminate. }
  assert (Hmode : mode (clip_of returning_scene 1%nat) = INDEPENDENT)
    by (vm_compute; reflexivity).
  assert (Hauto : autoReset (clip_of returning_scene 1%nat) = true)
    by (vm_compute; reflexivity).
  split; [vm_compute; reflexivity|].
  exact (reattached_clip_is_reset 0%nat (Int 2)
           (first_presence (clip_of returning_scene 0%nat))
           _ _ returning_scene H0 H1 Hne Hparent Hpresent Hp Hmode Hauto).
Defined.

(** ** The decoder reads what the compact format writes *)

Lemma append_empty (s : string) : s +:+ "" = s.
Proof.
  induction s as [|a s IH]; [reflexivity|].
  change (String a (s +:+ "") = String a s). by rewrite IH.
Qed.

Lemma append_snoc (b : string) (a : ascii) (v : string) :
  (b +:+ String a "") +:+ v = b +:+ String a v.
Proof.
  induction b as [|c b IH]; [reflexivity|].
  change (String c ((b +:+ String a "") +:+ v) = String c (b +:+ String a v)).
  by rewrite IH.
Qed.

Lemma token_char_inv (c : ascii) :
  token_char c = true -> keysMap c = None /\ Ascii.eqb c " " = false.
Proof.
  unfold token_char. destruct (keysMap c); [done|].
  by destruct (Ascii.eqb c " ").
Qed.

Lemma keysMap_truthy (c : ascii) (p : string) :
  keysMap c = Some p -> prop_truthy (PropName p) = true.
Proof.
  unfold keysMap.
  repeat (destruct (Ascii.eqb c _); [intros [= <-]; reflexivity|]).
  discriminate.
Qed.

Lemma decode_token (v : string) :
  token v ->
  forall O R b started p f,
    fold_left decode_step (list_ascii_of_string v)
      (mkDecoder O R b started p f) =
    mkDecoder O R (b +:+ v) started p f.
Proof.
  unfold token. induction v as [|a v IH]; intros Hv O R b started p f.
  - simpl. by rewrite append_empty.
  - cbn [list_ascii_of_string fold_left] in *.
    apply Forall_cons in Hv as [Ha Hv].
    apply token_char_inv in Ha as [Hkey Hspace].
    unfold decode_step at 2. rewrite Hkey, Hspace.
    cbn [d_objects d_result d_buffer d_isFrameStarted d_prop d_frame].
    rewrite (IH Hv). by rewrite append_snoc.
Qed.

Lemma decode_code (c : ascii) (p : string) O R b (p0 : propname) f :
  keysMap c = Some p -> prop_truthy p0 = true ->
  decode_step (mkDecoder O R b true p0 f) c =
  mkDecoder (alter (fun fr => parseValue fr p0 b) f O) R "" true (PropName p) f.
Proof.
  intros Hc Hp0. unfold decode_step. rewrite Hc.
  cbn [d_objects d_result d_buffer d_isFrameStarted d_prop d_frame].
  by rewrite Hp0.
Qed.

Lemma decode_first_code (c : ascii) (p : string) O R b (p0 : propname) f :
  keysMap c = Some p -> prop_truthy p0 = false ->
  decode_step (mkDecoder O R b false p0 f) c =
  mkDecoder O (obj_set b f R) "" true (PropName p) f.
Proof.
  intros Hc Hp0. unfold decode_step. rewrite Hc.
  cbn [d_objects d_result d_buffer d_isFrameStarted d_prop d_frame].
  by rewrite Hp0.
Qed.

Lemma decode_space O R b started (p : propname) f :
  decode_step (mkDecoder O R b started p f) " " =
  mkDecoder (alter (fun fr => parseValue fr p b) f O ++ [∅]) R "" false
    PropNull (length (alter (fun fr => parseValue fr p b) f O)).
Proof. reflexivity. Qed.

Lemma stored_waiting (cv : ascii * string) (ps : list (ascii * string)) :
  stored cv ps ++ [waiting cv ps] = cv :: ps.
Proof.
  revert cv. induction ps as [|cv' ps IH]; intros cv; simpl; [done|].
  by rewrite IH.
Qed.

Lemma decode_properties (ps : list (ascii * string)) :
  Forall (fun cv => is_Some (keysMap (fst cv)) /\ token (snd cv)) ps ->
  forall O R f (cv : ascii * string),
    is_Some (keysMap (fst cv)) ->
    fold_left decode_step (write_properties ps)
      (mkDecoder O R (snd cv) true
         (PropName (default "" (keysMap (fst cv)))) f) =
    mkDecoder
      (alter (fun fr => fold_left read_property (stored cv ps) fr) f O) R
      (snd (waiting cv ps)) true
      (PropName (default "" (keysMap (fst (waiting cv ps))))) f.
Proof.
  induction ps as [|[c v] ps IH]; intros Hps O R f cv Hcv.
  - simpl. by rewrite list_alter_id.
  - apply Forall_cons in Hps as [[[p Hc] Hv] Hps]. cbn [fst snd] in Hc, Hv.
    destruct Hcv as [p0 Hp0].
    unfold write_properties. cbn [flat_map fst snd].
    rewrite <- app_comm_cons. cbn [fold_left]. rewrite fold_left_app.
    rewrite (decode_code c p) by (by rewrite ?Hp0; eauto using keysMap_truthy).
    rewrite (decode_token v Hv). change ("" +:+ v) with v.
    fold (write_properties ps).
    pose proof (IH Hps (alter (fun fr => parseValue fr
                                 (PropName (default "" (keysMap cv.1))) cv.2)
                          f O) R f (c, v) ltac:(cbn [fst]; eauto)) as IH'.
    cbn [fst snd] in IH'. rewrite Hc in IH'.
    change (default "" (Some p)) with p in IH'.
    rewrite IH'. cbn [stored waiting]. f_equal.
    rewrite list_alter_alter_eq. apply list_alter_ext; [|done].
    intros fr _. reflexivity.
Qed.

Lemma alter_last {A : Type} (g : A -> A) (l : list A) (x : A) :
  alter g (length l) (l ++ [x]) = l ++ [g x].
Proof. by rewrite alter_app_r_alt, Nat.sub_diag by lia. Qed.

Lemma decode_open_record (k : string) (cv : ascii * string)
    (ps : list (ascii * string)) (objs : list props)
    (R : list (string * nat)) (p0 : propname) :
  token k ->
  Forall (fun cv => is_Some (keysMap (fst cv)) /\ token (snd cv)) (cv :: ps) ->
  prop_truthy p0 = false ->
  fold_left decode_step
    (list_ascii_of_string k ++ write_properties (cv :: ps))
    (mkDecoder (objs ++ [∅]) R "" false p0 (length objs)) =
  mkDecoder (objs ++ [fold_left read_property (stored cv ps) ∅])
    (obj_set k (length objs) R) (snd (waiting cv ps)) true
    (PropName (default "" (keysMap (fst (waiting cv ps))))) (length objs).
Proof.
  intros Hk Hps Hp0. apply Forall_cons in Hps as [[[p Hc] Hv] Hps].
  rewrite fold_left_app, (decode_token k Hk). change ("" +:+ k) with k.
  unfold write_properties. cbn [flat_map].
  rewrite <- app_comm_cons. cbn [fold_left]. rewrite fold_left_app.
  rewrite (decode_first_code _ p) by done.
  rewrite (decode_token _ Hv). change ("" +:+ cv.2) with cv.2.
  fold (write_properties ps).
  pose proof (decode_properties ps Hps (objs ++ [∅])
                (obj_set k (length objs) R) (length objs) cv
                ltac:(eauto)) as Hrest.
  rewrite Hc in Hrest. change (default "" (Some p)) with p in Hrest.
  rewrite Hrest. by rewrite alter_last.
Qed.

Lemma decode_record (kf : string * list (ascii * string))
    (objs : list props) (R : list (string * nat)) (p0 : propname) :
  well_written kf -> prop_truthy p0 = false ->
  fold_left decode_step (write_keyframe kf)
    (mkDecoder (objs ++ [∅]) R "" false p0 (length objs)) =
  mkDecoder ((objs ++ [read_properties (snd kf)]) ++ [∅])
    (obj_set (fst kf) (length objs) R) "" false PropNull
    (length (objs ++ [read_properties (snd kf)])).
Proof.
  destruct kf as [k [|cv ps]]; intros (Hk & Hne & Hps) Hp0; [done|].
  cbn [fst snd] in *. unfold write_keyframe. cbn [fst snd].
  rewrite app_assoc, fold_left_app.
  rewrite (decode_open_record k cv ps objs R p0 Hk Hps Hp0).
  cbn [fold_left]. rewrite decode_space, alter_last.
  assert (E : parseValue (fold_left read_property (stored cv ps) ∅)
                (PropName (default "" (keysMap (waiting cv ps).1)))
                (waiting cv ps).2 = read_properties (cv :: ps)).
  { unfold read_properties. rewrite <- (stored_waiting cv ps).
    by rewrite fold_left_app. }
  by rewrite E.
Qed.

Lemma decode_records (kfs : list (string * list (ascii * string))) :
  Forall well_written kfs ->
  forall (objs : list props) (R : list (string * nat)) (p0 : propname),
    prop_truthy p0 = false ->
    exists p1,
      prop_truthy p1 = false /\
      fold_left decode_step (flat_map write_keyframe kfs)
        (mkDecoder (objs ++ [∅]) R "" false p0 (length objs)) =
      mkDecoder ((objs ++ map (fun kf => read_properties (snd kf)) kfs) ++ [∅])
        (results_from (length objs) kfs R) "" false p1
        (length (objs ++ map (fun kf => read_properties (snd kf)) kfs)).
Proof.
  induction kfs as [|kf kfs IH]; intros Hkfs objs R p0 Hp0.
  - exists p0. split; [done|]. simpl. by rewrite app_nil_r.
  - apply Forall_cons in Hkfs as [Hkf Hkfs]. cbn [flat_map].
    rewrite fold_left_app, (decode_record kf objs R p0 Hkf Hp0).
    destruct (IH Hkfs (objs ++ [read_properties kf.2])
                (obj_set kf.1 (length objs) R) PropNull eq_refl)
      as (p1 & Hp1 & Hrun).
    exists p1. split; [done|]. rewrite Hrun. cbn [map results_from].
    rewrite <- !(app_assoc objs [read_properties kf.2]).
    cbn [app]. by rewrite length_app, Nat.add_1_r.
Qed.

Lemma obj_set_fresh {A : Type} (k : string) (v : A) (o : list (string * A)) :
  k ∉ map fst o -> obj_set k v o = o ++ [(k, v)].
Proof.
  induction o as [|[k' v'] o IH]; intros Hk; [done|]. simpl in *.
  destruct (String.eqb k' k) eqn:E.
  - apply String.eqb_eq in E as ->. exfalso. apply Hk. apply elem_of_cons. by left.
  - rewrite IH; [done|]. intros H. apply Hk. apply elem_of_cons. by right.
Qed.

Lemma results_from_distinct (kfs : list (string * list (ascii * string))) :
  forall (i : nat) (R : list (string * nat)),
    NoDup (map fst R ++ map fst kfs) ->
    results_from i kfs R = R ++ zip (map fst kfs) (seq i (length kfs)).
Proof.
  induction kfs as [|kf kfs IH]; intros i R Hnodup.
  - simpl. by rewrite app_nil_r.
  - cbn [results_from map length seq zip_with].
    assert (Hfresh : kf.1 ∉ map fst R).
    { cbn [map] in Hnodup. apply NoDup_app in Hnodup as (_ & Hdisj & _).
      intros Hin. apply (Hdisj _ Hin). apply elem_of_cons. by left. }
    rewrite (obj_set_fresh _ _ _ Hfresh), IH.
    + by rewrite <- app_assoc.
    + rewrite map_app, <- app_assoc. exact Hnodup.
Qed.

Lemma follow_references (kfs : list (string * list (ascii * string)))
    (rest : list props) :
  forall pre : list props,
    map (fun kr : string * nat =>
           (fst kr,
            default ∅
              (((pre ++ map (fun kf => read_properties (snd kf)) kfs) ++ rest)
               !! snd kr)))
      (zip (map fst kfs) (seq (length pre) (length kfs))) =
    map (fun kf => (fst kf, read_properties (snd kf))) kfs.
Proof.
  induction kfs as [|kf kfs IH]; intros pre; [done|].
  cbn [map length seq zip_with fst snd]. f_equal.
  - f_equal. rewrite <- app_assoc. cbn [app].
    by rewrite list_lookup_middle.
  - specialize (IH (pre ++ [read_properties kf.2])).
    rewrite length_app, Nat.add_1_r in IH.
    rewrite <- (app_assoc pre [read_properties kf.2]) in IH. exact IH.
Qed.

Lemma zip_seq_keys {A B : Type} (f : A -> B) (l : list A) (i : nat) :
  map fst (zip (map f l) (seq i (length l))) = map f l.
Proof.
  revert i. induction l as [|x l IH]; intros i; [done|].
  cbn [length seq zip_with map fst]. by rewrite IH.
Qed.

(** The conditions of a written keyframe, on a given one. *)
Ltac written :=
  unfold well_written, token;
  repeat match goal with
         | |- _ /\ _ => split
         | |- Forall _ [] => apply Forall_nil
         | |- Forall _ (_ :: _) => apply Forall_cons; split
         | |- _ <> _ => discriminate
         | |- is_Some _ => eexists; reflexivity
         | |- token_char _ = true => reflexivity
         | |- True => exact I
         | |- _ => progress cbn [fst snd list_ascii_of_string]
         end.

(** X21: the decoder reads what the compact format writes.  For keyframes
    with distinct frame numbers, each with at least one property, whose
    frame numbers and values hold no code letter and no space and whose code
    letters are codes of [keysMap], the string that writes them one after
    the other (frame number, code letter and value of each property, a
    space) decodes to these keyframes in the same order, the properties of
    each parsed by [parseValue] in the order written. *)
Theorem decoder_reads_written_keyframes
    (kfs : list (string * list (ascii * string))) :
  Forall well_written kfs -> NoDup (map fst kfs) ->
  decodeKeyframes (write_keyframes kfs) =
  map (fun kf => (fst kf, read_properties (snd kf))) kfs.
Proof.
  intros Hkfs Hnodup. unfold decodeKeyframes, decode_loop, write_keyframes.
  cbn zeta. rewrite list_ascii_of_string_of_list_ascii.
  destruct (decode_records kfs Hkfs [] [] PropUndefined eq_refl)
    as (p1 & _ & Hrun).
  change (mkDecoder ([] ++ [∅]) [] "" false PropUndefined (length []))
    with decoder_init in Hrun.
  rewrite Hrun. cbn [d_objects d_result].
  rewrite results_from_distinct by exact Hnodup.
  cbn [app]. apply (follow_references kfs [∅] []).
Qed.

Lemma decoder_reads_written_keyframes_witness :
  write_keyframes
    [("0", [("X"%char, "100"); ("Y"%char, "100")]); ("10", [("X"%char, "150")])]
  = "0X100Y100 10X150 " /\
  decodeKeyframes
    (write_keyframes
       [("0", [("X"%char, "100"); ("Y"%char, "100")]);
        ("10", [("X"%char, "150")])]) =
  map (fun kf => (fst kf, read_properties (snd kf)))
    [("0", [("X"%char, "100"); ("Y"%char, "100")]); ("10", [("X"%char, "150")])].
Proof.
  split; [reflexivity|].
  apply decoder_reads_written_keyframes.
  - written.
  - cbn [map fst]. apply NoDup_cons. split.
    + intros H. apply list_elem_of_singleton in H. discriminate H.
    + apply NoDup_singleton.
Defined.

(** X22: a value that no space follows is never stored.  When the string
    ends in a keyframe that is not closed by a space, after keyframes
    written as in X21, the decoder still creates the keyframe, with all its
    properties but the last: the value of the last one stays in [buffer]
    when the loop ends. *)
Theorem unterminated_value_is_dropped
    (kfs : list (string * list (ascii * string))) (k : string)
    (cv : ascii * string) (ps : list (ascii * string)) :
  Forall well_written kfs -> token k ->
  Forall (fun cv => is_Some (keysMap (fst cv)) /\ token (snd cv)) (cv :: ps) ->
  NoDup (map fst kfs ++ [k]) ->
  decodeKeyframes
    (string_of_list_ascii
       (flat_map write_keyframe kfs ++
        list_ascii_of_string k ++ write_properties (cv :: ps))) =
  map (fun kf => (fst kf, read_properties (snd kf))) kfs ++
  [(k, fold_left read_property (stored cv ps) ∅)].
Proof.
  intros Hkfs Hk Hps Hnodup. unfold decodeKeyframes, decode_loop.
  cbn zeta. rewrite list_ascii_of_string_of_list_ascii, fold_left_app.
  destruct (decode_records kfs Hkfs [] [] PropUndefined eq_refl)
    as (p1 & Hp1 & Hrun).
  change (mkDecoder ([] ++ [∅]) [] "" false PropUndefined (length []))
    with decoder_init in Hrun.
  rewrite Hrun, (decode_open_record k cv ps _ _ p1 Hk Hps Hp1).
  cbn [d_objects d_result].
  rewrite results_from_distinct
    by (cbn [map app]; by apply NoDup_app in Hnodup as (? & _ & _)).
  cbn [app length].
  rewrite obj_set_fresh.
  - rewrite map_app. cbn [map fst snd]. f_equal.
    + apply (follow_references kfs _ []).
    + by rewrite list_lookup_middle.
  - rewrite zip_seq_keys. apply NoDup_app in Hnodup as (_ & Hdisj & _).
    intros Hin. apply (Hdisj _ Hin). by apply list_elem_of_singleton.
Qed.

Lemma unterminated_value_is_dropped_witness :
  string_of_list_ascii
    (flat_map write_keyframe [("0", [("X"%char, "100"); ("Y"%char, "100")])] ++
     list_ascii_of_string "10" ++
     write_properties [("X"%char, "150"); ("Y"%char, "7")])
  = "0X100Y100 10X150Y7" /\
  decodeKeyframes
    (string_of_list_ascii
       (flat_map write_keyframe [("0", [("X"%char, "100"); ("Y"%char, "100")])] ++
        list_ascii_of_string "10" ++
        write_properties [("X"%char, "150"); ("Y"%char, "7")])) =
  map (fun kf => (fst kf, read_properties (snd kf)))
    [("0", [("X"%char, "100"); ("Y"%char, "100")])] ++
  [("10", fold_left read_property
            (stored ("X"%char, "150") [("Y"%char, "7")]) ∅)].
Proof.
  split; [reflexivity|].
  apply unterminated_value_is_dropped.
  - written.
  - written.
  - written.
  - cbn [map fst app]. apply NoDup_cons. split.
    + intros H. apply list_elem_of_singleton in H. discriminate H.
    + apply NoDup_singleton.
Defined.

Lemma decode_without_codes (l : list ascii) :
  Forall (fun c => keysMap c = None) l ->
  forall st, d_result (fold_left decode_step l st) = d_result st.
Proof.
  induction l as [|c l IH]; intros Hl st; [done|].
  apply Forall_cons in Hl as [Hc Hl]. cbn [fold_left].
  rewrite (IH Hl). unfold decode_step. rewrite Hc.
  by destruct (Ascii.eqb c " ").
Qed.

(** X23: a string without code letters adds nothing.  [result] gets a
    property only at a code letter of [keysMap]; a string that holds none
    decodes to the empty object, and [addKeyframes] with it returns with the
    clips as they were and without a call. *)
Theorem keyframes_without_codes_add_nothing (this instance : nat)
    (keyframes : string) (s : gmap nat MovieClip) :
  Forall (fun c => keysMap c = None) (list_ascii_of_string keyframes) ->
  decodeKeyframes keyframes = [] /\
  addKeyframes this instance (KfString keyframes) s = (Done tt, s, []).
Proof.
  intros Hnone.
  assert (E : decodeKeyframes keyframes = []).
  { unfold decodeKeyframes, decode_loop. cbn zeta.
    by rewrite (decode_without_codes _ Hnone). }
  split; [exact E|]. unfold addKeyframes.
  destruct (String.eqb keyframes ""); [done|]. by rewrite E.
Qed.

Lemma keyframes_without_codes_add_nothing_witness :
  decodeKeyframes "0x100y100 10x150" = [] /\
  addKeyframes 0%nat 1%nat (KfString "0x100y100 10x150") synched_scene =
  (Done tt, synched_scene, []).
Proof.
  apply keyframes_without_codes_add_nothing.
  cbn [list_ascii_of_string].
  repeat first [apply Forall_cons; split; [reflexivity|] | apply Forall_nil; exact I].
Defined.

(** ** Seeking to a label *)

Lemma goto_label (fuel : nat) (this : nat) (label : string) (pos : Z)
    (n : MovieClip) (s : gmap nat MovieClip) :
  s !! this = Some n -> obj_get label (_labelDict n) = Some pos ->
  _goto fuel this (inl label) s = _goto fuel this (inr pos) s.
Proof.
  intros Hn Hlabel. unfold _goto.
  rewrite !bind_run, (get_node_run _ _ _ Hn). cbn beta zeta.
  by rewrite Hlabel.
Qed.

(** X24: seeking to a label is seeking to its frame.  When the label
    dictionary of the clip gives the label a frame, [gotoAndStop] and
    [gotoAndPlay] with the label run as with the frame number: the same
    outcome, the same clips, the same calls. *)
Theorem seek_label_is_seek_frame (fuel : nat) (this : nat) (label : string)
    (pos : Z) (n : MovieClip) (s : gmap nat MovieClip) :
  s !! this = Some n -> obj_get label (_labelDict n) = Some pos ->
  gotoAndStop fuel this (inl label) s = gotoAndStop fuel this (inr pos) s /\
  gotoAndPlay fuel this (inl label) s = gotoAndPlay fuel this (inr pos) s.
Proof.
  intros Hn Hlabel. unfold gotoAndStop, gotoAndPlay.
  rewrite !bind_run, !(modify_node_run _ _ _ _ Hn).
  split.
  - by rewrite (goto_label fuel this label pos (set_paused true n))
      by (by rewrite ?lookup_insert_eq).
  - by rewrite (goto_label fuel this label pos (set_paused false n))
      by (by rewrite ?lookup_insert_eq).
Qed.

Lemma seek_label_is_seek_frame_witness :
  obj_get "intro" (_labelDict short_clip) = Some 2 /\
  gotoAndStop 1 0%nat (inl "intro") short_scene =
  gotoAndStop 1 0%nat (inr 2) short_scene.
Proof.
  assert (H1 : short_scene !! 0%nat = Some short_clip)
    by (vm_compute; reflexivity).
  assert (H2 : obj_get "intro" (_labelDict short_clip) = Some 2)
    by (vm_compute; reflexivity).
  split; [exact H2|].
  exact (proj1 (seek_label_is_seek_frame 1 0%nat "intro" 2 short_clip
                  short_scene H1 H2)).
Defined.

(** ** Advancing a clip that has no frame rate of its own *)

Lemma updateTimeline_same_registration (fuel : nat) (this : nat) :
  keeps same_registration (_updateTimeline fuel this).
Proof.
  apply (keeps_updateTimeline same_registration same_registration_refl
           same_registration_trans); intros; by repeat split.
Qed.

Lemma advance_tail_run (fuel : nat) (this : nat) (time : Q) (n : MovieClip)
    (s : gmap nat MovieClip) :
  s !! this = Some n ->
  ((if negb (Qeq_bool time 0)
    then modify_node this (fun n => set__t (_t n + time)%Q n) else mret tt) ;;
   modify_node this
     (fun n =>
        if negb (Qle_bool (_t n) (_duration n))
        then set__t (if loop n then (_t n - _duration n)%Q else _duration n) n
        else n) ;;
   modify_node this
     (fun n =>
        set_currentFrame
          (Int (Qfloor (_t n * _framerate n + (1 # 100000000))%Q)) n) ;;
   modify_node this
     (fun n =>
        if num_ge (currentFrame n) (Int (_totalFrames n))
        then set_currentFrame (Int (_totalFrames n - 1)) n else n) ;;
   _updateTimeline fuel this) s =
  _updateTimeline fuel this (<[this := advanced time n]> s).
Proof.
  intros Hn.
  assert (Hadd :
    (if negb (Qeq_bool time 0)
     then modify_node this (fun n => set__t (_t n + time)%Q n)
     else mret tt) s =
    (Done tt,
     <[this := if negb (Qeq_bool time 0) then set__t (_t n + time)%Q n
               else n]> s, [])).
  { destruct (negb _).
    - by rewrite (modify_node_run this _ n s Hn).
    - unfold mret, M_ret. by rewrite insert_id. }
  rewrite bind_run, Hadd.
  rewrite bind_run,
    (modify_node_run this _ _ _ (lookup_insert_eq _ _ _)), insert_insert_eq.
  rewrite bind_run,
    (modify_node_run this _ _ _ (lookup_insert_eq _ _ _)), insert_insert_eq.
  rewrite bind_run,
    (modify_node_run this _ _ _ (lookup_insert_eq _ _ _)), insert_insert_eq.
  unfold advanced. cbn zeta.
  destruct (_updateTimeline fuel this _) as [[o s'] t]. done.
Qed.

Lemma inherited_framerate_parent (fuel : nat) (this p : nat)
    (n np : MovieClip) (s : gmap nat MovieClip) :
  s !! this = Some n -> Qeq_bool (_framerate n) 0 = true ->
  parent n = Some p -> s !! p = Some np -> mode np = INDEPENDENT ->
  Qeq_bool (_framerate np) 0 = false ->
  inherited_framerate (S (S fuel)) this (_framerate n) s =
  (Done (_framerate np), s, []).
Proof.
  intros Hn Hrate Hparent Hnp Hmode Hfps.
  cbn [inherited_framerate].
  rewrite bind_run, (get_node_run _ _ _ Hn), Hparent, Hrate.
  rewrite bind_run, (get_node_run _ _ _ Hnp), Hmode.
  change (INDEPENDENT =? INDEPENDENT) with true. cbn iota.
  rewrite bind_run, (get_node_run _ _ _ Hnp).
  destruct (parent np); [|done]. by rewrite Hfps.
Qed.

Lemma advanced_keeps_rate (time : Q) (n : MovieClip) :
  _framerate (advanced time n) = _framerate n /\
  _duration (advanced time n) = _duration n.
Proof.
  unfold advanced. cbn zeta.
  repeat match goal with
         | |- context [if ?b then _ else _] => destruct b
         end; done.
Qed.

(** X25: a clip without a frame rate takes its parent's.  When [advance] is
    called on a clip whose frame rate is 0 and whose parent is an INDEPENDENT
    clip with a positive frame rate, the clip has that frame rate afterwards,
    and the duration that its own length gives at that rate, however the
    resolution that follows ends. *)
Theorem advance_takes_parent_framerate (fuel : nat) (this p : nat) (time : Q)
    (n np : MovieClip) (s s' : gmap nat MovieClip) (o : outcome unit)
    (t : list event) :
  s !! this = Some n -> Qeq_bool (_framerate n) 0 = true ->
  parent n = Some p -> s !! p = Some np -> mode np = INDEPENDENT ->
  Qpositive (_framerate np) = true ->
  advance (S (S fuel)) this time s = (o, s', t) ->
  exists n',
    s' !! this = Some n' /\
    _framerate n' = _framerate np /\
    _duration n' = (inject_Z (_totalFrames n) / _framerate np)%Q.
Proof.
  intros Hn Hrate Hparent Hnp Hmode Hpos Hrun.
  assert (Hfps : Qeq_bool (_framerate np) 0 = false).
  { destruct (Qeq_bool (_framerate np) 0) eqn:E; [|done].
    apply Qeq_bool_iff in E. unfold Qpositive in Hpos.
    apply negb_true_iff in Hpos.
    assert (Hle : Qle_bool (_framerate np) 0 = true).
    { apply Qle_bool_iff. rewrite E. apply Qle_refl. }
    congruence. }
  unfold advance in Hrun.
  rewrite bind_run, (get_node_run _ _ _ Hn), Hrate in Hrun.
  rewrite bind_run in Hrun.
  rewrite (bind_run (inherited_framerate _ _ _)) in Hrun.
  rewrite (inherited_framerate_parent fuel this p n np s
             Hn Hrate Hparent Hnp Hmode Hfps) in Hrun.
  rewrite (modify_node_run _ _ _ _ Hn) in Hrun.
  cbn [app] in Hrun.
  rewrite (advance_tail_run (S (S fuel)) this time
             (framerate_set (_framerate np) n)) in Hrun
    by apply lookup_insert_eq.
  rewrite insert_insert_eq in Hrun.
  destruct (_updateTimeline (S (S fuel)) this _) as [[o1 s1] t1] eqn:Hupd.
  assert (s1 = s') as -> by (cbn in Hrun; congruence).
  destruct (updateTimeline_same_registration _ _ _ _ _ _ this _ Hupd
              (lookup_insert_eq _ _ _)) as (n' & Hn' & Hsame).
  exists n'. split; [done|].
  destruct (advanced_keeps_rate time (framerate_set (_framerate np) n))
    as [Ef Ed].
  unfold same_registration in Hsame.
  destruct Hsame as (_ & _ & _ & _ & _ & _ & _ & _ & _ & Hf & Hd & _).
  rewrite Hf, Hd, Ef, Ed. unfold framerate_set. rewrite Hpos, Hfps.
  done.
Qed.

Lemma advance_takes_parent_framerate_witness :
  Qeq_bool (_framerate (clip_of played_scene 1%nat)) 0 = true /\
  parent (clip_of played_scene 1%nat) = Some 0%nat /\
  exists n',
    store_of (advance 2 1%nat (1 # 2) played_scene) !! 1%nat = Some n' /\
    _framerate n' = _framerate (clip_of played_scene 0%nat) /\
    _duration n' =
    (inject_Z (_totalFrames (clip_of played_scene 1%nat)) /
     _framerate (clip_of played_scene 0%nat))%Q.
Proof.
  assert (H1 : played_scene !! 1%nat = Some (clip_of played_scene 1%nat))
    by (vm_compute; reflexivity).
  assert (H2 : Qeq_bool (_framerate (clip_of played_scene 1%nat)) 0 = true)
    by (vm_compute; reflexivity).
  assert (H3 : parent (clip_of played_scene 1%nat) = Some 0%nat)
    by (vm_compute; reflexivity).
  assert (H4 : played_scene !! 0%nat = Some (clip_of played_scene 0%nat))
    by (vm_compute; reflexivity).
  assert (H5 : mode (clip_of played_scene 0%nat) = INDEPENDENT)
    by (vm_compute; reflexivity).
  assert (H6 : Qpositive (_framerate (clip_of played_scene 0%nat)) = true)
    by (vm_compute; reflexivity).
  split; [exact H2|]. split; [exact H3|].
  exact (advance_takes_parent_framerate 0 1%nat 0%nat (1 # 2) _ _
           played_scene _ _ _ H1 H2 H3 H4 H5 H6
           (run_eta (advance 2 1%nat (1 # 2) played_scene))).
Defined.

(** ** The tweens of a pass *)





(** ** The start frame a registration records *)

Lemma same_start_refl (n : MovieClip) : same_start n n.
Proof. by split. Qed.

Lemma same_start_trans (a b c : MovieClip) :
  same_start a b -> same_start b c -> same_start a c.
Proof. unfold same_start. intros [] []. split; congruence. Qed.

Lemma register_presence_same_start (es6_fill : bool) (instance : nat)
    (startFrame duration : Z) (this : MovieClip) :
  same_start this
    (register_presence es6_fill instance startFrame duration this).
Proof.
  rewrite register_presence_unfold. cbn zeta.
  destruct (find_last _ (_timedChildTimelines this));
    destruct (_totalFrames _ <? startFrame + duration); by split.
Qed.

Lemma addTween_same_start (instance : nat) (properties : gmap string value)
    (startFrame : num) (duration : option Z) (ease : option nat)
    (this : MovieClip) :
  same_start this (addTween instance properties startFrame duration ease this).
Proof.
  unfold addTween. cbn zeta.
  destruct (find_last _ (_timelines this));
    destruct (num_add startFrame (Int (default 0 duration))); try by split.
  all: destruct (_totalFrames _ <? _); by split.
Qed.

Lemma keeps_registration_tail (fuel : nat) (es6_fill : bool)
    (this instance : nat) (startFrame duration : Z)
    (keyframes : keyframes_arg) :
  keeps same_start
    (modify_node this
       (register_presence es6_fill instance startFrame duration) ;;
     addKeyframes this instance keyframes ;;
     n ← get_node this;
     _setTimelinePosition (_updateTimeline fuel) this (Int startFrame)
       (currentFrame n) true).
Proof.
  assert (Hset : forall f : MovieClip -> MovieClip,
            (forall m, mode (f m) = mode m) ->
            (forall m, parentStartPosition (f m) = parentStartPosition m) ->
            forall m, same_start m (f m)).
  { intros f Hm Hp m. split; [by rewrite Hm|by rewrite Hp]. }
  assert (Kupdate : forall c, keeps same_start (_updateTimeline fuel c)).
  { intros c. apply keeps_updateTimeline;
      [apply same_start_refl|apply same_start_trans|..];
      intros; by apply Hset. }
  apply (keeps_bind _ same_start_trans).
  { apply (keeps_modify _ same_start_refl). intros m.
    apply register_presence_same_start. }
  intros _. apply (keeps_bind _ same_start_trans).
  { apply keeps_addKeyframes; [apply same_start_refl|apply same_start_trans|].
    intros p sf m. apply addTween_same_start. }
  intros _. apply (keeps_bind _ same_start_trans).
  { apply keeps_get, same_start_refl. }
  intros n1.
  apply keeps_setTimelinePosition;
    [apply same_start_refl|apply same_start_trans|..|apply Kupdate];
    intros; by apply Hset.
Qed.

(** X27: the start frame a registration records.  When the parent and the
    instance are clips of the scene, after [addTimedChild], however its run
    ends, the instance is still there with its mode; a SYNCHED instance has
    [parentStartPosition] set to the start frame given (0 when it is left
    out), and an instance of another mode has the [parentStartPosition] it
    had. *)
Theorem registration_records_start_frame (fuel : nat) (es6_fill : bool)
    (this instance : nat) (startFrame duration : option Z)
    (keyframes : keyframes_arg) (s s' : gmap nat MovieClip)
    (o : outcome unit) (t : list event) (n inst : MovieClip) :
  s !! this = Some n -> s !! instance = Some inst ->
  addTimedChild fuel es6_fill this instance startFrame duration keyframes s
    = (o, s', t) ->
  exists inst',
    s' !! instance = Some inst' /\
    mode inst' = mode inst /\
    parentStartPosition inst' =
    if mode inst =? SYNCHED then Some (default 0 startFrame)
    else parentStartPosition inst.
Proof.
  intros Hn Hinst Hrun. unfold addTimedChild in Hrun.
  rewrite bind_run, (get_node_run _ _ _ Hn) in Hrun. cbn zeta in Hrun.
  rewrite bind_run, (get_node_run _ _ _ Hinst) in Hrun.
  rewrite bind_run in Hrun.
  destruct (mode inst =? SYNCHED) eqn:Hmode.
  - rewrite (modify_node_run _ _ _ _ Hinst) in Hrun.
    match type of Hrun with
    | context [?m (<[instance := ?x]> s)] =>
        destruct (m (<[instance := x]> s)) as [[o1 s1] t1] eqn:Htail
    end.
    destruct (keeps_registration_tail _ _ _ _ _ _ _ _ _ _ _ instance _ Htail
                (lookup_insert_eq _ _ _)) as (inst' & Hinst' & Em & Ep).
    assert (s1 = s') as -> by (cbn in Hrun; congruence).
    exists inst'. split; [done|]. split; [by rewrite <- Em|by rewrite <- Ep].
  - unfold mret at 1, M_ret at 1 in Hrun.
    match type of Hrun with
    | context [?m s] =>
        destruct (m s) as [[o1 s1] t1] eqn:Htail
    end.
    destruct (keeps_registration_tail _ _ _ _ _ _ _ _ _ _ _ instance _ Htail
                Hinst) as (inst' & Hinst' & Em & Ep).
    assert (s1 = s') as -> by (cbn in Hrun; congruence).
    exists inst'. split; [done|]. split; [by rewrite <- Em|by rewrite <- Ep].
Qed.

Lemma registration_records_start_frame_witness :
  synched_scene !! 1%nat = Some (clip_of synched_scene 1%nat) /\
  exists inst',
    store_of (addTimedChild 2 true 0%nat 1%nat (Some 5) (Some 4)
                (KfString "0X100Y100 10X150 ") synched_scene) !! 1%nat
    = Some inst' /\
    mode inst' = mode (clip_of synched_scene 1%nat) /\
    parentStartPosition inst' =
    if mode (clip_of synched_scene 1%nat) =? SYNCHED then Some (default 0 (Some 5))
    else parentStartPosition (clip_of synched_scene 1%nat).
Proof.
  assert (H0 : synched_scene !! 0%nat = Some (clip_of synched_scene 0%nat))
    by (vm_compute; reflexivity).
  assert (H1 : synched_scene !! 1%nat = Some (clip_of synched_scene 1%nat))
    by (vm_compute; reflexivity).
  split; [exact H1|].
  exact (registration_records_start_frame 2 true 0%nat 1%nat (Some 5) (Some 4)
           (KfString "0X100Y100 10X150 ") synched_scene _ _ _ _ _ H0 H1
           (run_eta _)).
Defined.
